(** * car-app: the real-time ride coordination engine and the Car photo hook

    A shallow embedding of
    - [server/models/Car.js]   (the Car schema: [addPhoto], the pre-save hook),
    - the Ride schema          ([updateParticipantLocation], [addChatMessage],
                                [startRide], [endRide], the pre-save hook),
    - the socket connection handler ([handleSocketConnection] with its two
      process-wide maps [connectedUsers] and [rideRooms]),
    - the other methods of the Ride and User schemas (participants, points
      and badges),
    - the browser profile script ([getUser], [saveUser], [addPoints],
      [joinClub], [markVisited], [createBlogPost], [getLeaderboard]).

    Documents are records, the Mongo collections and the two JS [Map]s are
    [gmap]s, JS [Set]s are [gset]s.  A handler is a function from the world
    before the event to the world after it and the list of events it emitted.

    Conventions of the embedding:
    - a handler runs to completion before the next event is taken, and every
      [new Date()] of one handler run reads the same value of the server
      clock;
    - payloads are well-formed for their event (ids and texts are strings,
      coordinates are numbers); [listen] adds the event sent with no payload
      at all;
    - [join_ride] is given any string as ride id and casts it as
      [Ride.findById] does ([castObjectId]); the handlers that go on to
      write a ride are given ObjectIds as the store prints them (24
      hexadecimal digits in lower case), on which the cast is the identity;
    - the store answers every call; a [save] fails only where a validator
      declared in the schema rejects the data the handler wrote, and the
      handler's [catch] then emits its error event. *)

From stdpp Require Import gmap strings list fin_maps pretty sorting.

Local Open Scope Z_scope.
Local Open Scope string_scope.
Local Open Scope list_scope.

(* ===================================================================== *)
(** ** Car documents: photos and the single-primary hook                   *)
(* ===================================================================== *)

Module Car.

(** One element of [carSchema.photos]. *)
Record photo := Photo {
  url : string;
  caption : string;
  isPrimary : bool;
  uploadedAt : Z
}.

(** The part of a Car document the photo paths read or write. *)
Record car := MkCar {
  owner : string;
  photos : list photo
}.

Definition set_isPrimary (b : bool) (p : photo) : photo :=
  {| url := url p; caption := caption p; isPrimary := b; uploadedAt := uploadedAt p |}.

Definition set_photos (ps : list photo) (c : car) : car :=
  {| owner := owner c; photos := ps |}.

(** The [forEach] of the pre-save hook, with its [foundPrimary] flag threaded
    through the iteration. *)
Fixpoint keep_first_primary (foundPrimary : bool) (ps : list photo) : list photo :=
  match ps with
  | [] => []
  | p :: rest =>
      if isPrimary p && negb foundPrimary then p :: keep_first_primary true rest
      else if isPrimary p then set_isPrimary false p :: keep_first_primary foundPrimary rest
      else p :: keep_first_primary foundPrimary rest
  end.

(** [carSchema.pre('save', ...)]. *)
Definition pre_save (c : car) : car :=
  let primaryPhotos := List.filter isPrimary (photos c) in
  if decide (1 < length primaryPhotos)%nat
  then set_photos (keep_first_primary false (photos c)) c
  else c.

(** Schema validation of the photo array: [url] is [required]
    (Mongoose's required validator rejects the empty string). *)
Definition photo_valid (p : photo) : bool := negb (String.eqb (url p) "").

(** [this.save()]: validation, then the pre-save hook; the result is the
    document as stored, [None] is a rejected save. *)
Definition save (c : car) : option car :=
  if forallb photo_valid (photos c) then Some (pre_save c) else None.

(** [carSchema.methods.addPhoto]. *)
Definition addPhoto (photoData : photo) (c : car) : option car :=
  let cleared :=
    if isPrimary photoData then map (set_isPrimary false) (photos c) else photos c in
  save (set_photos (cleared ++ [photoData]) c).

(** Number of photos carrying the primary flag. *)
Definition primary_count (ps : list photo) : nat := length (List.filter isPrimary ps).

End Car.

(* ===================================================================== *)
(** ** User and Ride documents                                             *)
(* ===================================================================== *)

Inductive friend_status := PENDING | ACCEPTED | BLOCKED.
Inductive ride_status := PLANNING | ACTIVE | COMPLETED | CANCELLED.
Inductive participant_status := INVITED | CONFIRMED | DECLINED | JOINED | LEFT.

#[global] Instance friend_status_eq_dec : EqDecision friend_status.
Proof. solve_decision. Defined.
#[global] Instance ride_status_eq_dec : EqDecision ride_status.
Proof. solve_decision. Defined.
#[global] Instance participant_status_eq_dec : EqDecision participant_status.
Proof. solve_decision. Defined.

(** One element of [userSchema.friends]. *)
Record friend := Friend {
  f_user : string;
  f_status : friend_status
}.

(** The part of a User document the connection handler reads or writes. *)
Record user := User {
  username : string;
  friends : list friend;
  isOnline : bool;
  lastSeen : Z
}.

(** JS numbers that are only carried around (latitude, speed, ...) are
    integers here; no handler computes with them. *)
Record coordinates := Coordinates { lat : Z; lng : Z }.

(** [participants[i].currentLocation], also the [location] field of the
    [participant_location] event. *)
Record location := Location {
  loc_coordinates : coordinates;
  loc_timestamp : Z;
  loc_speed : Z;
  loc_heading : Z
}.

(** One element of [rideSchema.participants]. *)
Record participant := Participant {
  p_user : string;
  p_status : participant_status;
  p_currentLocation : option location;
  p_isOnline : bool
}.

(** One element of [rideSchema.chat]. *)
Record chat_entry := ChatEntry {
  c_user : string;
  c_message : string;
  c_timestamp : Z;
  c_type : string
}.

(** The part of a Ride document the handlers and methods read or write;
    [stats_duration] is [stats.duration], the one statistic the pre-save hook
    computes. *)
Record ride := Ride {
  organizer : string;
  status : ride_status;
  startTime : Z;
  endTime : option Z;
  participants : list participant;
  chat : list chat_entry;
  stats_duration : Z
}.

Definition set_status (s : ride_status) (r : ride) : ride :=
  {| organizer := organizer r; status := s; startTime := startTime r;
     endTime := endTime r; participants := participants r; chat := chat r;
     stats_duration := stats_duration r |}.

Definition set_startTime (t : Z) (r : ride) : ride :=
  {| organizer := organizer r; status := status r; startTime := t;
     endTime := endTime r; participants := participants r; chat := chat r;
     stats_duration := stats_duration r |}.

Definition set_endTime (t : option Z) (r : ride) : ride :=
  {| organizer := organizer r; status := status r; startTime := startTime r;
     endTime := t; participants := participants r; chat := chat r;
     stats_duration := stats_duration r |}.

Definition set_participants (ps : list participant) (r : ride) : ride :=
  {| organizer := organizer r; status := status r; startTime := startTime r;
     endTime := endTime r; participants := ps; chat := chat r;
     stats_duration := stats_duration r |}.

Definition set_chat (cs : list chat_entry) (r : ride) : ride :=
  {| organizer := organizer r; status := status r; startTime := startTime r;
     endTime := endTime r; participants := participants r; chat := cs;
     stats_duration := stats_duration r |}.

Definition set_stats_duration (d : Z) (r : ride) : ride :=
  {| organizer := organizer r; status := status r; startTime := startTime r;
     endTime := endTime r; participants := participants r; chat := chat r;
     stats_duration := d |}.

(** [rideSchema.pre('save', ...)]: a [Date] is always truthy, so the guard
    is on [endTime] being set. *)
Definition ride_pre_save (r : ride) : ride :=
  match endTime r with
  | Some e => set_stats_duration (e - startTime r) r
  | None => r
  end.

(** [p.user.toString() === userId.toString()]. *)
Definition is_user (userId : string) (p : participant) : bool :=
  bool_decide (p_user p = userId).

(** [this.participants.find(...)] followed by an in-place update of the
    participant found: only the first match changes. *)
Fixpoint update_found (userId : string) (f : participant → participant)
    (ps : list participant) : list participant :=
  match ps with
  | [] => []
  | p :: rest =>
      if is_user userId p then f p :: rest else p :: update_found userId f rest
  end.

(** The [location] object of an [update_location] payload; [speed] and
    [heading] may be missing. *)
Record location_data := LocationData {
  ld_coordinates : coordinates;
  ld_speed : option Z;
  ld_heading : option Z
}.

(** The object literal built from [locationData] and [new Date()];
    [x || 0] is [0] for a missing [x]. *)
Definition location_snapshot (now : Z) (locationData : location_data) : location :=
  {| loc_coordinates := ld_coordinates locationData;
     loc_timestamp := now;
     loc_speed := default 0 (ld_speed locationData);
     loc_heading := default 0 (ld_heading locationData) |}.

(** [rideSchema.methods.updateParticipantLocation]; the returned document is
    what [save] stores. *)
Definition updateParticipantLocation (now : Z) (userId : string)
    (locationData : location_data) (r : ride) : ride :=
  let relocate p :=
    {| p_user := p_user p; p_status := p_status p;
       p_currentLocation := Some (location_snapshot now locationData);
       p_isOnline := true |} in
  ride_pre_save (set_participants (update_found userId relocate (participants r)) r).

(** Validators of a chat sub-document: [message] is [required] with
    [maxlength: 500], [type] is one of the enum's values. *)
Definition chat_entry_valid (c : chat_entry) : bool :=
  negb (String.eqb (c_message c) "")
  && bool_decide (String.length (c_message c) ≤ 500)%nat
  && bool_decide (c_type c ∈ ["TEXT"; "SYSTEM"; "LOCATION"]).

(** [rideSchema.methods.addChatMessage]: the pushed entry takes its
    [timestamp] from the schema default [Date.now]; [save] validates the new
    sub-document and rejects ([None]) when a validator fails. *)
Definition addChatMessage (now : Z) (userId message type : string) (r : ride) : option ride :=
  let entry := {| c_user := userId; c_message := message;
                  c_timestamp := now; c_type := type |} in
  if chat_entry_valid entry
  then Some (ride_pre_save (set_chat (chat r ++ [entry]) r))
  else None.

(** [rideSchema.methods.startRide]. *)
Definition startRide (now : Z) (r : ride) : ride :=
  ride_pre_save (set_startTime now (set_status ACTIVE r)).

(** [rideSchema.methods.endRide]. *)
Definition endRide (now : Z) (r : ride) : ride :=
  ride_pre_save (set_endTime (Some now) (set_status COMPLETED r)).

(* ===================================================================== *)
(** ** Sockets, rooms and the world                                        *)
(* ===================================================================== *)

(** A connection: [socket.userId] and [socket.user], both unset until a
    successful [authenticate]. *)
Record socket := Socket {
  s_userId : option string;
  s_user : option user
}.

(** Server-to-client events with their payloads. *)
Inductive event :=
  | auth_error (message : string)
  | authenticated (userId uname : string) (activeRides : list string)
  | friend_online (userId uname : string)
  | friend_offline (userId uname : string)
  | error (message : string)
  | joined_ride (rideId : string)
  | participant_joined (userId uname : string)
  | left_ride (rideId : string)
  | participant_left (userId uname : string)
  | participant_location (userId uname : string) (loc : location)
  | new_message (userId uname message type : string) (timestamp : Z)
  | ride_started (rideId : string) (startTime : Z)
  | ride_ended (rideId : string) (endTime : option Z) (stats : Z)
  | user_typing (userId uname : string) (isTyping : bool).

(** The three ways the handler addresses an event: [socket.emit],
    [io.to(room).emit] and [socket.to(room).emit]. *)
Inductive target :=
  | ToSocket (sid : nat)
  | ToRoom (room : string)
  | ToRoomExcept (room : string) (sender : nat).

(** An emitted event, with the sockets it is delivered to as the room stood
    when it was emitted. *)
Record out := Out {
  o_target : target;
  o_recipients : gset nat;
  o_event : event
}.

(** Everything the handlers share: the two collections, the open sockets,
    socket.io's rooms, the two module-level maps, and the server clock read
    by [new Date()]. *)
Record World := MkWorld {
  users : gmap string user;
  rides : gmap string ride;
  sockets : gmap nat socket;
  rooms : gmap string (gset nat);
  connectedUsers : gmap string nat;
  rideRooms : gmap string (gset string);
  clock : Z
}.

Definition set_users (x : gmap string user) (w : World) : World :=
  {| users := x; rides := rides w; sockets := sockets w; rooms := rooms w;
     connectedUsers := connectedUsers w; rideRooms := rideRooms w; clock := clock w |}.

Definition set_rides (x : gmap string ride) (w : World) : World :=
  {| users := users w; rides := x; sockets := sockets w; rooms := rooms w;
     connectedUsers := connectedUsers w; rideRooms := rideRooms w; clock := clock w |}.

Definition set_sockets (x : gmap nat socket) (w : World) : World :=
  {| users := users w; rides := rides w; sockets := x; rooms := rooms w;
     connectedUsers := connectedUsers w; rideRooms := rideRooms w; clock := clock w |}.

Definition set_rooms (x : gmap string (gset nat)) (w : World) : World :=
  {| users := users w; rides := rides w; sockets := sockets w; rooms := x;
     connectedUsers := connectedUsers w; rideRooms := rideRooms w; clock := clock w |}.

Definition set_connectedUsers (x : gmap string nat) (w : World) : World :=
  {| users := users w; rides := rides w; sockets := sockets w; rooms := rooms w;
     connectedUsers := x; rideRooms := rideRooms w; clock := clock w |}.

Definition set_rideRooms (x : gmap string (gset string)) (w : World) : World :=
  {| users := users w; rides := rides w; sockets := sockets w; rooms := rooms w;
     connectedUsers := connectedUsers w; rideRooms := x; clock := clock w |}.

Definition set_clock (t : Z) (w : World) : World :=
  {| users := users w; rides := rides w; sockets := sockets w; rooms := rooms w;
     connectedUsers := connectedUsers w; rideRooms := rideRooms w; clock := t |}.

(** The room name [`ride_${rideId}`]. *)
Definition room_of (rideId : string) : string := "ride_" +:+ rideId.

(** Sockets currently in a socket.io room. *)
Definition room_members (w : World) (room : string) : gset nat :=
  default ∅ (rooms w !! room).

Definition recipients (w : World) (t : target) : gset nat :=
  match t with
  | ToSocket sid => {[sid]}
  | ToRoom room => room_members w room
  | ToRoomExcept room sender => room_members w room ∖ {[sender]}
  end.

(** [socket.emit], [io.to(room).emit], [socket.to(room).emit]. *)
Definition emit (w : World) (t : target) (e : event) : out :=
  {| o_target := t; o_recipients := recipients w t; o_event := e |}.

(** [socket.join(room)]. *)
Definition socket_join (sid : nat) (room : string) (w : World) : World :=
  set_rooms (<[room := {[sid]} ∪ room_members w room]> (rooms w)) w.

(** [socket.leave(room)]; socket.io drops a room that has no socket left. *)
Definition socket_leave (sid : nat) (room : string) (w : World) : World :=
  let rest := room_members w room ∖ {[sid]} in
  set_rooms (if decide (rest = ∅) then delete room (rooms w)
             else <[room := rest]> (rooms w)) w.

(** [if (!rideRooms.has(id)) rideRooms.set(id, new Set());
     rideRooms.get(id).add(userId)]. *)
Definition rideRooms_add (rideId userId : string)
    (rr : gmap string (gset string)) : gmap string (gset string) :=
  let rr1 := match rr !! rideId with
             | Some _ => rr
             | None => <[rideId := ∅]> rr
             end in
  alter (λ members, {[userId]} ∪ members) rideId rr1.

(** The body run on one entry by [leave_ride] and by the [forEach] of
    [disconnect]: delete the user from the set and discard the entry when the
    set is left empty ([None] is the discarded entry). *)
Definition prune_member (userId : string) (members : gset string) : option (gset string) :=
  let rest := members ∖ {[userId]} in
  if decide (size rest = 0%nat) then None else Some rest.

(** [if (rideRooms.has(id)) { rideRooms.get(id).delete(userId); ... }]. *)
Definition rideRooms_leave (rideId userId : string)
    (rr : gmap string (gset string)) : gmap string (gset string) :=
  match rr !! rideId with
  | Some members =>
      match prune_member userId members with
      | Some rest => <[rideId := rest]> rr
      | None => delete rideId rr
      end
  | None => rr
  end.

(** [rideRooms.forEach((users, rideId) => { users.delete(userId); ... })]:
    every entry is visited once, deleting the visited entry does not disturb
    the iteration. *)
Definition rideRooms_prune (userId : string)
    (rr : gmap string (gset string)) : gmap string (gset string) :=
  omap (prune_member userId) rr.

(** [User.findByIdAndUpdate(id, { isOnline, lastSeen })]. *)
Definition set_presence (online : bool) (now : Z) (u : user) : user :=
  {| username := username u; friends := friends u; isOnline := online; lastSeen := now |}.

(** [User.find({ 'friends.user': id, 'friends.status': 'ACCEPTED' })]: the
    two conditions are matched against the [friends] array independently. *)
Definition friend_query (userId : string) (u : user) : bool :=
  existsb (λ f, bool_decide (f_user f = userId)) (friends u)
  && existsb (λ f, bool_decide (f_status f = ACCEPTED)) (friends u).

Definition find_friends (w : World) (userId : string) : list string :=
  (List.filter (λ doc, friend_query userId doc.2) (map_to_list (users w))).*1.

(* ===================================================================== *)
(** ** The event handlers of [handleSocketConnection]                      *)
(* ===================================================================== *)

(** Client-to-server events with their payloads.  [client_timestamp] stands
    for a timestamp the client may put into a [send_message] payload. *)
Inductive inbound :=
  | Authenticate (token : option string)
  | JoinRide (rideId : string)
  | LeaveRide (rideId : string)
  | UpdateLocation (rideId : string) (location : location_data)
  | SendMessage (rideId message : string) (type : option string)
                (client_timestamp : option Z)
  | StartRide (rideId : string)
  | EndRide (rideId : string)
  | Typing (rideId : string) (isTyping : bool)
  | Disconnect.

(** The events whose listener destructures a payload. *)
Inductive event_name :=
  | authenticate | join_ride | leave_ride | update_location
  | send_message | start_ride | end_ride | typing.

(** What reaches a listener: an event with the payload object the listener
    destructures ([disconnect], which the transport fires, has none to
    read), or an event the client sent with no payload, for which [data] is
    [undefined]. *)
Inductive arrival :=
  | WithPayload (ev : inbound)
  | Bare (name : event_name).

(** How a listener ends: it returns (the promise of an [async] listener
    resolves), or an exception leaves it. *)
Inductive outcome :=
  | Returned (result : World * list out)
  | Thrown.

(** The characters of an ObjectId written in hexadecimal. *)
Definition is_hex_digit (c : Ascii.ascii) : bool :=
  let n := Ascii.nat_of_ascii c in
  (Nat.leb 48 n && Nat.leb n 57) || (Nat.leb 97 n && Nat.leb n 102)
  || (Nat.leb 65 n && Nat.leb n 70).

Definition lower_hex_digit (c : Ascii.ascii) : Ascii.ascii :=
  let n := Ascii.nat_of_ascii c in
  if Nat.leb 65 n && Nat.leb n 70 then Ascii.ascii_of_nat (n + 32) else c.

(** The cast [Ride.findById] applies to the id it is given: a string of 24
    hexadecimal digits is the ObjectId those digits spell, which prints in
    lower case; for any other string the cast throws ([None]).  This is the
    ObjectId constructor of the current driver; older ones also read a
    string of 12 characters as 12 raw bytes. *)
Definition castObjectId (id : string) : option string :=
  let digits := String.list_ascii_of_string id in
  if Nat.eqb (length digits) 24 && forallb is_hex_digit digits
  then Some (String.string_of_list_ascii (map lower_hex_digit digits))
  else None.

(** [Ride.find({ 'participants.user': id, status: 'ACTIVE' })], as ride ids. *)
Definition find_active_rides (w : World) (userId : string) : list string :=
  (List.filter (λ doc, existsb (is_user userId) (participants doc.2)
                       && bool_decide (status doc.2 = ACTIVE))
               (map_to_list (rides w))).*1.

(** The body of [activeRides.forEach] in [authenticate]. *)
Definition rehydrate_one (sid : nat) (userId : string) (w : World) (rideId : string) : World :=
  let w1 := socket_join sid (room_of rideId) w in
  set_rideRooms (rideRooms_add rideId userId (rideRooms w1)) w1.

(** The [friends.forEach] of [authenticate] and [disconnect]: one event to
    the registered socket of every friend that has one. *)
Definition notify_friends (w : World) (userId : string) (e : event) : list out :=
  omap (λ fid, (λ friendSocket, emit w (ToSocket friendSocket) e) <$> connectedUsers w !! fid)
       (find_friends w userId).

(** The friends the [forEach] reaches, each with the socket registered for
    it in [connectedUsers]. *)
Definition reached (w : World) (userId : string) : list (string * nat) :=
  omap (λ fid, (λ friendSocket, (fid, friendSocket)) <$> connectedUsers w !! fid)
       (find_friends w userId).

Section Handlers.

(** [jwt.verify(token, secret)] followed by [decoded.userId]; [None] is a
    thrown verification error. *)
Variable jwt_verify : string → option string.

Definition on_authenticate (w : World) (sid : nat) (token : option string)
    : World * list out :=
  match token with
  | None | Some "" => (w, [emit w (ToSocket sid) (auth_error "No token provided")])
  | Some tok =>
      match jwt_verify tok with
      | None => (w, [emit w (ToSocket sid) (auth_error "Authentication failed")])
      | Some decoded =>
          match users w !! decoded with
          | None => (w, [emit w (ToSocket sid) (auth_error "Invalid token")])
          | Some u =>
              let w1 := set_sockets (<[sid := Socket (Some decoded) (Some u)]> (sockets w)) w in
              let w2 := set_connectedUsers (<[decoded := sid]> (connectedUsers w1)) w1 in
              let w3 := set_users (alter (set_presence true (clock w2)) decoded (users w2)) w2 in
              let activeRides := find_active_rides w3 decoded in
              let w4 := fold_left (rehydrate_one sid decoded) activeRides w3 in
              (w4, emit w4 (ToSocket sid) (authenticated decoded (username u) activeRides)
                   :: notify_friends w4 decoded (friend_online decoded (username u)))
          end
      end
  end.

(** [socket.user.username]; [socket.user] is set whenever [socket.userId] is. *)
Definition socket_username (s : socket) : string :=
  match s_user s with Some u => username u | None => "" end.

(** [join_ride]; the [CastError] that [Ride.findById] throws for an id it
    cannot cast is caught by the handler's [catch]. *)
Definition on_join_ride (w : World) (sid : nat) (s : socket) (rideId : string)
    : World * list out :=
  match s_userId s with
  | None => (w, [emit w (ToSocket sid) (error "Not authenticated")])
  | Some userId =>
      match castObjectId rideId with
      | None => (w, [emit w (ToSocket sid) (error "Failed to join ride")])
      | Some id =>
          match rides w !! id with
          | None => (w, [emit w (ToSocket sid) (error "Ride not found")])
          | Some r =>
              let isParticipant := existsb (is_user userId) (participants r) in
              if negb isParticipant
              then (w, [emit w (ToSocket sid) (error "Not a participant of this ride")])
              else
                let w1 := socket_join sid (room_of rideId) w in
                let w2 := set_rideRooms (rideRooms_add rideId userId (rideRooms w1)) w1 in
                (w2, [emit w2 (ToSocket sid) (joined_ride rideId);
                      emit w2 (ToRoomExcept (room_of rideId) sid)
                           (participant_joined userId (socket_username s))])
          end
      end
  end.

Definition on_leave_ride (w : World) (sid : nat) (s : socket) (rideId : string)
    : World * list out :=
  match s_userId s with
  | None => (w, [])
  | Some userId =>
      let w1 := socket_leave sid (room_of rideId) w in
      let w2 := set_rideRooms (rideRooms_leave rideId userId (rideRooms w1)) w1 in
      (w2, [emit w2 (ToSocket sid) (left_ride rideId);
            emit w2 (ToRoomExcept (room_of rideId) sid)
                 (participant_left userId (socket_username s))])
  end.

Definition on_update_location (w : World) (sid : nat) (s : socket)
    (rideId : string) (loc : location_data) : World * list out :=
  match s_userId s with
  | None => (w, [])
  | Some userId =>
      match rides w !! rideId with
      | None => (w, [])
      | Some r =>
          let w1 := set_rides (<[rideId := updateParticipantLocation (clock w) userId loc r]>
                                 (rides w)) w in
          (w1, [emit w1 (ToRoomExcept (room_of rideId) sid)
                     (participant_location userId (socket_username s)
                                           (location_snapshot (clock w1) loc))])
      end
  end.

(** The [type = 'TEXT'] default of the payload destructuring; no other
    field of the payload is read. *)
Definition on_send_message (w : World) (sid : nat) (s : socket)
    (rideId message : string) (type : option string) : World * list out :=
  let type := default "TEXT" type in
  match s_userId s with
  | None => (w, [])
  | Some userId =>
      match rides w !! rideId with
      | None => (w, [])
      | Some r =>
          match addChatMessage (clock w) userId message type r with
          | Some r' =>
              let w1 := set_rides (<[rideId := r']> (rides w)) w in
              (w1, [emit w1 (ToRoom (room_of rideId))
                         (new_message userId (socket_username s) message type (clock w1))])
          | None => (w, [emit w (ToSocket sid) (error "Failed to send message")])
          end
      end
  end.

Definition on_start_ride (w : World) (sid : nat) (s : socket) (rideId : string)
    : World * list out :=
  match s_userId s with
  | None => (w, [])
  | Some userId =>
      match rides w !! rideId with
      | None => (w, [])
      | Some r =>
          if negb (bool_decide (organizer r = userId))
          then (w, [emit w (ToSocket sid) (error "Only organizer can start ride")])
          else
            let r' := startRide (clock w) r in
            let w1 := set_rides (<[rideId := r']> (rides w)) w in
            (w1, [emit w1 (ToRoom (room_of rideId)) (ride_started rideId (startTime r'))])
      end
  end.

Definition on_end_ride (w : World) (sid : nat) (s : socket) (rideId : string)
    : World * list out :=
  match s_userId s with
  | None => (w, [])
  | Some userId =>
      match rides w !! rideId with
      | None => (w, [])
      | Some r =>
          if negb (bool_decide (organizer r = userId))
          then (w, [emit w (ToSocket sid) (error "Only organizer can end ride")])
          else
            let r' := endRide (clock w) r in
            let w1 := set_rides (<[rideId := r']> (rides w)) w in
            (w1, [emit w1 (ToRoom (room_of rideId))
                       (ride_ended rideId (endTime r') (stats_duration r'))])
      end
  end.

Definition on_typing (w : World) (sid : nat) (s : socket)
    (rideId : string) (isTyping : bool) : World * list out :=
  match s_userId s with
  | None => (w, [])
  | Some userId =>
      (w, [emit w (ToRoomExcept (room_of rideId) sid)
                (user_typing userId (socket_username s) isTyping)])
  end.

Definition on_disconnect (w : World) (sid : nat) (s : socket) : World * list out :=
  match s_userId s with
  | None => (w, [])
  | Some userId =>
      let w1 := set_connectedUsers (delete userId (connectedUsers w)) w in
      let w2 := set_users (alter (set_presence false (clock w1)) userId (users w1)) w1 in
      let w3 := set_rideRooms (rideRooms_prune userId (rideRooms w2)) w2 in
      (w3, notify_friends w3 userId (friend_offline userId (socket_username s)))
  end.

(** The [socket.on(...)] table: the handler registered for each event, run
    on an open socket. *)
Definition handle (w : World) (sid : nat) (ev : inbound) : World * list out :=
  match sockets w !! sid with
  | None => (w, [])
  | Some s =>
      match ev with
      | Authenticate token => on_authenticate w sid token
      | JoinRide rideId => on_join_ride w sid s rideId
      | LeaveRide rideId => on_leave_ride w sid s rideId
      | UpdateLocation rideId loc => on_update_location w sid s rideId loc
      | SendMessage rideId message type _ => on_send_message w sid s rideId message type
      | StartRide rideId => on_start_ride w sid s rideId
      | EndRide rideId => on_end_ride w sid s rideId
      | Typing rideId isTyping => on_typing w sid s rideId isTyping
      | Disconnect => on_disconnect w sid s
      end
  end.

(** The listeners as registered, on any arrival.  Destructuring [undefined]
    throws a [TypeError].  In the seven [async] listeners the destructuring
    is the first statement of the [try], ahead of the [socket.userId] guard,
    and the [catch] logs the error and, in all but [leave_ride] and
    [update_location], emits one event to the socket.  In [typing] (l.270-272)
    the destructuring stands outside any [try]: the error leaves the
    listener. *)
Definition listen (w : World) (sid : nat) (a : arrival) : outcome :=
  match a with
  | WithPayload ev => Returned (handle w sid ev)
  | Bare name =>
      match sockets w !! sid with
      | None => Returned (w, [])
      | Some _ =>
          match name with
          | authenticate =>
              Returned (w, [emit w (ToSocket sid) (auth_error "Authentication failed")])
          | join_ride =>
              Returned (w, [emit w (ToSocket sid) (error "Failed to join ride")])
          | leave_ride | update_location => Returned (w, [])
          | send_message =>
              Returned (w, [emit w (ToSocket sid) (error "Failed to send message")])
          | start_ride =>
              Returned (w, [emit w (ToSocket sid) (error "Failed to start ride")])
          | end_ride =>
              Returned (w, [emit w (ToSocket sid) (error "Failed to end ride")])
          | typing => Thrown
          end
      end
  end.

(** What the transport does when a connection closes, besides firing
    [disconnect]: the socket is gone from the server and from every room. *)
Definition close_socket (sid : nat) (w : World) : World :=
  let drop members :=
    let rest := members ∖ {[sid]} in
    if decide (rest = ∅) then None else Some rest in
  set_rooms (omap drop (rooms w)) (set_sockets (delete sid (sockets w)) w).

(** What can happen to the server. *)
Inductive action :=
  | Connect (sid : nat)
  | Receive (sid : nat) (ev : inbound)
  | Tick (now : Z)
  | StoreWrite (us : gmap string user) (rs : gmap string ride).

Definition run (w : World) (a : action) : World * list out :=
  match a with
  | Connect sid =>
      match sockets w !! sid with
      | None => (set_sockets (<[sid := Socket None None]> (sockets w)) w, [])
      | Some _ => (w, [])
      end
  | Receive sid Disconnect =>
      let '(w1, outs) := handle w sid Disconnect in (close_socket sid w1, outs)
  | Receive sid ev => handle w sid ev
  | Tick now => (set_clock now w, [])
  | StoreWrite us rs => (set_rides rs (set_users us w), [])
  end.

(** The server as started: empty maps, no connection. *)
Definition boot (us : gmap string user) (rs : gmap string ride) (now : Z) : World :=
  {| users := us; rides := rs; sockets := ∅; rooms := ∅;
     connectedUsers := ∅; rideRooms := ∅; clock := now |}.

Definition run_all (w : World) (script : list action) : World :=
  fold_left (λ w a, (run w a).1) script w.

(** Worlds the server can be in. *)
Definition reachable (w : World) : Prop :=
  ∃ us rs now script, w = run_all (boot us rs now) script.

(** An identity has an open authenticated connection. *)
Definition has_open_connection (w : World) (userId : string) : Prop :=
  ∃ sid s, sockets w !! sid = Some s ∧ s_userId s = Some userId.

(** What the presence registry reports for an identity: it is registered
    in [connectedUsers] and its stored [isOnline] flag is set. *)
Definition reports_online (w : World) (userId : string) : Prop :=
  is_Some (connectedUsers w !! userId)
  ∧ ∃ u, users w !! userId = Some u ∧ isOnline u = true.

End Handlers.

(* ===================================================================== *)
(** ** Notions the statements below are phrased with                      *)
(* ===================================================================== *)

(** The world a successful [join_ride] leaves. *)
Definition joined (sid : nat) (userId rideId : string) (w : World) : World :=
  let w1 := socket_join sid (room_of rideId) w in
  set_rideRooms (rideRooms_add rideId userId (rideRooms w1)) w1.

(** The world [authenticate] leaves before it rejoins the active rides:
    the socket carries the identity, [connectedUsers] maps the identity to
    the socket, the stored user is online. *)
Definition registered (sid : nat) (userId : string) (u : user) (w : World) : World :=
  let w1 := set_sockets (<[sid := Socket (Some userId) (Some u)]> (sockets w)) w in
  let w2 := set_connectedUsers (<[userId := sid]> (connectedUsers w1)) w1 in
  set_users (alter (set_presence true (clock w2)) userId (users w2)) w2.

(** The world the [disconnect] handler leaves for an authenticated socket. *)
Definition unregistered (userId : string) (w : World) : World :=
  let w1 := set_connectedUsers (delete userId (connectedUsers w)) w in
  let w2 := set_users (alter (set_presence false (clock w1)) userId (users w1)) w1 in
  set_rideRooms (rideRooms_prune userId (rideRooms w2)) w2.

(** Every entry of the room map is a non-empty set. *)
Definition rooms_nonempty (rr : gmap string (gset string)) : Prop :=
  ∀ rideId members, rr !! rideId = Some members → members ≠ ∅.

(** A [start_ride] request went through: the stored ride is [ACTIVE] and a
    [ride_started] event was emitted. *)
Definition start_succeeded (result : World * list out) (rideId : string) : Prop :=
  (∃ r', rides result.1 !! rideId = Some r' ∧ status r' = ACTIVE)
  ∧ ∃ recipients t, result.2 = [Out (ToRoom (room_of rideId)) recipients (ride_started rideId t)].

(** C1 as the specification words it: a start succeeds only from [PLANNING]
    and only for the organizer. *)
Definition start_only_from_planning_as_stated : Prop :=
  ∀ (jwt_verify : string → option string) w sid s rideId r,
    sockets w !! sid = Some s →
    rides w !! rideId = Some r →
    start_succeeded (handle jwt_verify w sid (StartRide rideId)) rideId →
    status r = PLANNING ∧ s_userId s = Some (organizer r).

(** C2 as the specification words it: an organizer's [end_ride] on a
    [COMPLETED] session fails with an error and leaves the session, its end
    time included, as it was. *)
Definition end_on_completed_fails_as_stated : Prop :=
  ∀ (jwt_verify : string → option string) w sid s rideId r,
    sockets w !! sid = Some s →
    s_userId s = Some (organizer r) →
    rides w !! rideId = Some r →
    status r = COMPLETED →
    let result := handle jwt_verify w sid (EndRide rideId) in
    rides result.1 !! rideId = Some r
    ∧ ∃ message, result.2 = [Out (ToSocket sid) {[sid]} (error message)].

(** A [participant_location] event was emitted. *)
Definition location_broadcast (outs : list out) : Prop :=
  ∃ t recipients userId uname loc,
    Out t recipients (participant_location userId uname loc) ∈ outs.

(** C3 as the specification words it: a location is broadcast only for a
    caller with a [JOINED] or [CONFIRMED] participant record on an [ACTIVE]
    ride. *)
Definition update_location_revalidates_as_stated : Prop :=
  ∀ (jwt_verify : string → option string) w sid s userId rideId r loc,
    sockets w !! sid = Some s →
    s_userId s = Some userId →
    rides w !! rideId = Some r →
    location_broadcast (handle jwt_verify w sid (UpdateLocation rideId loc)).2 →
    status r = ACTIVE
    ∧ ∃ p, p ∈ participants r ∧ p_user p = userId
           ∧ (p_status p = JOINED ∨ p_status p = CONFIRMED).

(** C8 as the specification words it: every message an authenticated caller
    posts to an existing ride is appended to the stored chat and broadcast. *)
Definition send_message_always_posts_as_stated : Prop :=
  ∀ (jwt_verify : string → option string) w sid s userId rideId r message type stamp,
    sockets w !! sid = Some s →
    s_userId s = Some userId →
    rides w !! rideId = Some r →
    let result := handle jwt_verify w sid (SendMessage rideId message type stamp) in
    (∃ r' t, rides result.1 !! rideId = Some r'
             ∧ chat r' = chat r ++ [ChatEntry userId message t (default "TEXT" type)])
    ∧ ∃ recipients uname t,
        result.2 = [Out (ToRoom (room_of rideId)) recipients
                        (new_message userId uname message (default "TEXT" type) t)].

(** C5 as the specification words it, in its second half: [join_ride] on an
    id under which no ride is stored answers with the ride-not-found error. *)
Definition join_unknown_id_not_found_as_stated : Prop :=
  ∀ (jwt_verify : string → option string) w sid s userId rideId,
    sockets w !! sid = Some s →
    s_userId s = Some userId →
    (∀ id, castObjectId rideId = Some id → rides w !! id = None) →
    handle jwt_verify w sid (JoinRide rideId)
    = (w, [Out (ToSocket sid) {[sid]} (error "Ride not found")]).

(** C4 as the specification words it: closing one of several connections of
    an identity leaves the identity online, with a connection still
    registered, and sends no offline notification. *)
Definition closing_one_device_keeps_online_as_stated : Prop :=
  ∀ (jwt_verify : string → option string) w sid s sid' s' userId,
    sid ≠ sid' →
    sockets w !! sid = Some s → s_userId s = Some userId →
    sockets w !! sid' = Some s' → s_userId s' = Some userId →
    reports_online w userId →
    let result := run jwt_verify w (Receive sid Disconnect) in
    has_open_connection result.1 userId
    ∧ reports_online result.1 userId
    ∧ result.2 = [].

(* ===================================================================== *)
(** ** A small server used in the examples                                 *)
(* ===================================================================== *)

Module Sample.

(** The credentials that verify: one each for alice, bob and carol. *)
Definition verify (token : string) : option string :=
  if String.eqb token "token-alice" then Some "alice"
  else if String.eqb token "token-bob" then Some "bob"
  else if String.eqb token "token-carol" then Some "carol"
  else None.

Definition alice : user := User "Alice" [Friend "bob" ACCEPTED] false 0.
Definition bob : user := User "Bob" [Friend "alice" ACCEPTED] false 0.
Definition carol : user := User "Carol" [] false 0.

(** A ride alice organizes, with alice and bob as participants. *)
Definition meetup (st : ride_status) (finished : option Z) : ride :=
  {| organizer := "alice"; status := st; startTime := 5; endTime := finished;
     participants := [Participant "alice" CONFIRMED None false;
                      Participant "bob" JOINED None false];
     chat := []; stats_duration := 0 |}.

Definition people : gmap string user :=
  <["alice" := alice]> (<["bob" := bob]> (<["carol" := carol]> ∅)).

(** alice on sockets 1 and 2 (two devices), bob on socket 3, carol on
    socket 4, and socket 5 connected but not authenticated. *)
Definition logins : list action :=
  [Connect 1%nat; Connect 2%nat; Connect 3%nat; Connect 4%nat; Connect 5%nat;
   Receive 3%nat (Authenticate (Some "token-bob"));
   Receive 1%nat (Authenticate (Some "token-alice"));
   Receive 2%nat (Authenticate (Some "token-alice"));
   Receive 4%nat (Authenticate (Some "token-carol"));
   Receive 1%nat (JoinRide "64d1f0a2b3c4d5e6f7089a01");
   Receive 3%nat (JoinRide "64d1f0a2b3c4d5e6f7089a01")].

Definition server (st : ride_status) (finished : option Z) : World :=
  run_all verify (boot people (<["64d1f0a2b3c4d5e6f7089a01" := meetup st finished]> ∅) 100) logins.

Definition alice_socket : socket :=
  Socket (Some "alice") (Some (User "Alice" [Friend "bob" ACCEPTED] false 0)).
Definition alice_socket2 : socket :=
  Socket (Some "alice") (Some (User "Alice" [Friend "bob" ACCEPTED] true 100)).
Definition bob_socket : socket := Socket (Some "bob") (Some bob).
Definition carol_socket : socket := Socket (Some "carol") (Some carol).

Definition long_message : string := String.string_of_list_ascii (repeat (Ascii.ascii_of_nat 97) 501).

Definition demo_car : Car.car :=
  Car.MkCar "alice" [Car.Photo "a.jpg" "front" true 1; Car.Photo "b.jpg" "rear" true 2].

End Sample.


(* ===================================================================== *)
(** ** Further notions: the participant roster                             *)
(* ===================================================================== *)

(** Who takes part in a ride, and how: the participants' identities and
    statuses, in order. *)
Definition roster_of (ps : list participant) : list (string * participant_status) :=
  map (λ p, (p_user p, p_status p)) ps.

(* ===================================================================== *)
(** ** Ride documents: the participant list                                *)
(* ===================================================================== *)

(** [rideSchema.virtual('duration')]. *)
Definition duration (r : ride) : option Z :=
  match endTime r with
  | Some e => Some (e - startTime r)
  | None => None
  end.

(** [p.status === 'CONFIRMED' || p.status === 'JOINED']. *)
Definition counted (p : participant) : bool :=
  bool_decide (p_status p = CONFIRMED) || bool_decide (p_status p = JOINED).

(** [rideSchema.virtual('participantCount')]. *)
Definition participantCount (r : ride) : nat :=
  length (List.filter counted (participants r)).

Module Roster.

(** A participant sub-document in full: the part the socket handlers use
    ([core]), and the [car] and [leftAt] fields that [addParticipant] and
    [removeParticipant] write. *)
Record entry := Entry {
  core : participant;
  car : option string;
  leftAt : option Z
}.

(** A Ride document with its participants in full.  [base] carries the
    other fields; the participants are those of [entries]. *)
Record doc := Doc {
  base : ride;
  entries : list entry;
  maxParticipants : Z
}.

(** The document as the socket handlers read it. *)
Definition view (d : doc) : ride :=
  set_participants (map core (entries d)) (base d).

(** [rideSchema.virtual('isFull')]. *)
Definition isFull (d : doc) : bool :=
  bool_decide (maxParticipants d ≤ Z.of_nat (participantCount (view d)))%Z.

(** [this.save()]: the pre-save hook; none of the fields the two methods
    below write has a validator that can fail. *)
Definition save (d : doc) : doc :=
  {| base := ride_pre_save (base d); entries := entries d;
     maxParticipants := maxParticipants d |}.

Definition is_entry (userId : string) (e : entry) : bool := is_user userId (core e).

(** [this.participants.find(...)] followed by an in-place update of the
    entry found. *)
Fixpoint amend_found (userId : string) (f : entry → entry) (es : list entry) : list entry :=
  match es with
  | [] => []
  | e :: rest =>
      if is_entry userId e then f e :: rest else e :: amend_found userId f rest
  end.

Definition set_entry_status (st : participant_status) (e : entry) : participant :=
  {| p_user := p_user (core e); p_status := st;
     p_currentLocation := p_currentLocation (core e); p_isOnline := p_isOnline (core e) |}.

(** What [addParticipant] does to the participant array: the entry found
    is confirmed, and given the car when one is passed ([if (carId)]); with
    no entry found a confirmed one is pushed. *)
Definition enlist (userId : string) (carId : option string) (es : list entry) : list entry :=
  let confirm e :=
    {| core := set_entry_status CONFIRMED e;
       car := match carId with Some c => Some c | None => car e end;
       leftAt := leftAt e |} in
  if existsb (is_entry userId) es
  then amend_found userId confirm es
  else es ++ [{| core := Participant userId CONFIRMED None false;
                 car := carId; leftAt := None |}].

(** [rideSchema.methods.addParticipant]; [carId] defaults to [null]. *)
Definition addParticipant (userId : string) (carId : option string) (d : doc) : doc :=
  save {| base := base d; entries := enlist userId carId (entries d);
          maxParticipants := maxParticipants d |}.

(** What [removeParticipant] does to the participant array. *)
Definition delist (now : Z) (userId : string) (es : list entry) : list entry :=
  let leave e :=
    {| core := set_entry_status LEFT e; car := car e; leftAt := Some now |} in
  amend_found userId leave es.

(** [rideSchema.methods.removeParticipant]. *)
Definition removeParticipant (now : Z) (userId : string) (d : doc) : doc :=
  save {| base := base d; entries := delist now userId (entries d);
          maxParticipants := maxParticipants d |}.

(** The identities on the participant list, in order. *)
Definition member_ids (d : doc) : list string := map (λ e, p_user (core e)) (entries d).

End Roster.

(* ===================================================================== *)
(** ** User documents: points, levels and badges                           *)
(* ===================================================================== *)

Module Gamification.

(** One element of [gamification.achievements]. *)
Record achievement := Achievement {
  a_name : string;
  a_description : string;
  a_earnedAt : Z;
  a_points : Z
}.

(** The [gamification] sub-document of a User, with the fields the two
    methods read or write.  Points are whole numbers. *)
Record sheet := Sheet {
  points : Z;
  level : Z;
  experience : Z;
  badges : list string;
  achievements : list achievement
}.

Definition badge_types : list string :=
  ["FIRST_RIDE"; "EVENT_ORGANIZER"; "SPOT_HUNTER"; "CREW_LEADER";
   "MILESTONE_DRIVER"; "COMMUNITY_BUILDER"; "PHOTOGRAPHER"; "ROAD_TRIPPER";
   "SPEED_DEMON"; "ECO_DRIVER"; "NIGHT_RIDER"; "WEEKEND_WARRIOR"].

(** [userSchema.methods.addPoints]; [reason] defaults to the empty string,
    for which no achievement is recorded.  [Math.floor(x / 1000)] is the
    floor division of [Z]. *)
Definition addPoints (now : Z) (pts : Z) (reason : string) (g : sheet) : sheet :=
  let points' := points g + pts in
  let experience' := experience g + pts in
  let newLevel := experience' / 1000 + 1 in
  let level' := if bool_decide (level g < newLevel) then newLevel else level g in
  let achievements' :=
    if String.eqb reason "" then achievements g
    else achievements g ++ [{| a_name := reason;
                               a_description := "Earned " +:+ pretty pts +:+ " points";
                               a_earnedAt := now;
                               a_points := pts |}] in
  {| points := points'; level := level'; experience := experience';
     badges := badges g; achievements := achievements' |}.

(** [userSchema.methods.addBadge]: a badge already held resolves to the
    document as it is, without a save; a new one is pushed and saved, and
    the save rejects ([None]) a badge outside the schema's enum. *)
Definition addBadge (badgeType : string) (g : sheet) : option sheet :=
  if bool_decide (badgeType ∈ badges g) then Some g
  else if bool_decide (badgeType ∈ badge_types)
       then Some {| points := points g; level := level g; experience := experience g;
                    badges := badges g ++ [badgeType]; achievements := achievements g |}
       else None.

End Gamification.

(* ===================================================================== *)
(** ** The browser profile script: points, clubs, visits, blog posts       *)
(* ===================================================================== *)

Module Profile.

(** An element of [user.blogs]. *)
Record blog := Blog {
  b_title : string;
  b_content : string;
  b_date : string
}.

(** The four containers of a user object: [tasks] (an object used as a set
    of task names, every value [true]), [clubs], [visited] and [blogs]. *)
Record shelves := Shelves {
  tasks : gset string;
  clubs : list string;
  visited : list string;
  blogs : list blog
}.

(** A user object as a value, which is what [JSON.stringify] writes and
    [JSON.parse] returns. *)
Record saved := Saved {
  sv_name : string;
  sv_car : string;
  sv_points : Z;
  sv_shelves : shelves
}.

(** The [carCrewUser] item of [localStorage]: missing, a text that is empty
    or does not parse, or a stored user. *)
Inductive slot := Absent | Unreadable | Stored (u : saved).

(** The state the script works on: the storage item, and the containers of
    the module-level [DEFAULT_USER] (its [name], [car] and [points] are never
    assigned and stay [''], [''] and [0]). *)
Record page := Page {
  storage : slot;
  defaults : shelves
}.

(** Where the containers of a user object live: [JSON.parse] builds fresh
    ones, the shallow copy [{ ...DEFAULT_USER }] shares those of
    [DEFAULT_USER]. *)
Inductive holder := Own (c : shelves) | Shared.

(** A user object in memory. *)
Record user_obj := UserObj {
  name : string;
  car : string;
  points : Z;
  held : holder
}.

(** [getUser]. *)
Definition getUser (pg : page) : user_obj :=
  match storage pg with
  | Stored u => UserObj (sv_name u) (sv_car u) (sv_points u) (Own (sv_shelves u))
  | Absent | Unreadable => UserObj "" "" 0 Shared
  end.

(** The containers a user object reaches at the moment it is read. *)
Definition contents (pg : page) (user : user_obj) : shelves :=
  match held user with
  | Own c => c
  | Shared => defaults pg
  end.

(** An in-place update of a container ([push], [tasks[k] = true]): it lands
    in the object's own containers or in those of [DEFAULT_USER]. *)
Definition mutate (f : shelves → shelves) (pg : page) (user : user_obj) : page * user_obj :=
  match held user with
  | Own c => (pg, UserObj (name user) (car user) (points user) (Own (f c)))
  | Shared => (Page (storage pg) (f (defaults pg)), user)
  end.

(** [saveUser]; the write to [localStorage] is taken to succeed. *)
Definition saveUser (user : user_obj) (pg : page) : page :=
  Page (Stored (Saved (name user) (car user) (points user) (contents pg user)))
       (defaults pg).

Definition add_task (taskName : string) (c : shelves) : shelves :=
  Shelves ({[taskName]} ∪ tasks c) (clubs c) (visited c) (blogs c).
Definition push_club (clubName : string) (c : shelves) : shelves :=
  Shelves (tasks c) (clubs c ++ [clubName]) (visited c) (blogs c).
Definition push_visited (locationId : string) (c : shelves) : shelves :=
  Shelves (tasks c) (clubs c) (visited c ++ [locationId]) (blogs c).
Definition push_blog (b : blog) (c : shelves) : shelves :=
  Shelves (tasks c) (clubs c) (visited c) (blogs c ++ [b]).

(** [if (taskName)] holds for a non-empty name; assigning [true] to the key
    [__proto__] of an object creates no property. *)
Definition recordable (taskName : string) : bool :=
  negb (String.eqb taskName "") && negb (String.eqb taskName "__proto__").

(** [addPoints]. *)
Definition addPoints (pts : Z) (taskName : string) (pg : page) : page :=
  let user := getUser pg in
  let user := UserObj (name user) (car user) (points user + pts) (held user) in
  let '(pg1, user1) :=
    if recordable taskName then mutate (add_task taskName) pg user else (pg, user) in
  saveUser user1 pg1.

(** [joinClub]. *)
Definition joinClub (clubName : string) (pg : page) : page :=
  let user := getUser pg in
  if bool_decide (clubName ∈ clubs (contents pg user)) then pg
  else
    let '(pg1, user1) := mutate (push_club clubName) pg user in
    let pg2 := saveUser user1 pg1 in
    addPoints 50 ("joinClub-" +:+ clubName) pg2.

(** [markVisited]. *)
Definition markVisited (locationId : string) (pg : page) : page :=
  let user := getUser pg in
  let '(pg1, user1) :=
    if bool_decide (locationId ∈ visited (contents pg user)) then (pg, user)
    else
      let '(pg1, user1) := mutate (push_visited locationId) pg user in
      (addPoints 25 ("visit-" +:+ locationId) pg1, user1) in
  saveUser user1 pg1.

(** [createBlogPost]; [date] is [new Date().toISOString()]. *)
Definition createBlogPost (title content date : string) (pg : page) : page :=
  let user := getUser pg in
  let '(pg1, user1) := mutate (push_blog (Blog title content date)) pg user in
  let pg2 := addPoints 30 ("blog-" +:+ title) pg1 in
  saveUser user1 pg2.

(** What [getUser] returns, as a value. *)
Definition profile (pg : page) : saved :=
  let user := getUser pg in
  Saved (name user) (car user) (points user) (contents pg user).

(** The hard-coded rows of [getLeaderboard]. *)
Definition sample : list (string * Z) :=
  [("Alex", 1500); ("Maria", 1200); ("Sofia", 900); ("Lucas", 700)].

(** [sample[existing].points = user.points] at the first row of that name. *)
Fixpoint set_row (who : string) (pts : Z) (rows : list (string * Z)) : list (string * Z) :=
  match rows with
  | [] => []
  | row :: rest =>
      if String.eqb row.1 who then (row.1, pts) :: rest
      else row :: set_row who pts rest
  end.

(** [Array.prototype.sort] with the comparator [b.points - a.points]: the
    sort is stable, so its result is that of inserting each row, from the
    last to the first, before the first row that does not have more points. *)
Fixpoint place (row : string * Z) (sorted : list (string * Z)) : list (string * Z) :=
  match sorted with
  | [] => [row]
  | r :: rest => if bool_decide (r.2 ≤ row.2)%Z then row :: r :: rest else r :: place row rest
  end.

Definition sort_by_points (rows : list (string * Z)) : list (string * Z) :=
  foldr place [] rows.

(** The rows [getLeaderboard] sorts: the sample with the current user
    inserted or updated, when the user has a name. *)
Definition board_rows (who : string) (pts : Z) : list (string * Z) :=
  if String.eqb who "" then sample
  else if existsb (λ row, String.eqb row.1 who) sample
       then set_row who pts sample
       else sample ++ [(who, pts)].

(** [getLeaderboard]. *)
Definition getLeaderboard (pg : page) : list (string * Z) :=
  let user := getUser pg in
  sort_by_points (board_rows (name user) (points user)).

(** Rows in the order [getLeaderboard] wants them: no row has fewer points
    than a row after it. *)
Definition descending (rows : list (string * Z)) : Prop :=
  StronglySorted (λ a b, (b.2 ≤ a.2)%Z) rows.

End Profile.

(* ===================================================================== *)
(** ** Sample documents and pages used in the examples                     *)
(* ===================================================================== *)

Module Demo.

(** The sample server with alice on socket 1 and bob on socket 3, before
    anyone has joined a room. *)
Definition lobby : World :=
  run_all Sample.verify
    (boot Sample.people (<["64d1f0a2b3c4d5e6f7089a01" := Sample.meetup PLANNING None]> ∅) 100)
    [Connect 1%nat; Connect 3%nat;
     Receive 1%nat (Authenticate (Some "token-alice"));
     Receive 3%nat (Authenticate (Some "token-bob"))].

(** A server that has just accepted a connection, with an active ride of
    alice's in the store. *)
Definition doorstep : World :=
  run_all Sample.verify
    (boot Sample.people (<["64d1f0a2b3c4d5e6f7089a01" := Sample.meetup ACTIVE None]> ∅) 100)
    [Connect 1%nat].

(** A ride of bob's alone, and one of bob's with carol. *)
Definition solo : ride :=
  {| organizer := "bob"; status := PLANNING; startTime := 5; endTime := None;
     participants := [Participant "bob" CONFIRMED None false];
     chat := []; stats_duration := 0 |}.

Definition pair : ride :=
  {| organizer := "bob"; status := PLANNING; startTime := 5; endTime := None;
     participants := [Participant "bob" CONFIRMED None false;
                      Participant "carol" JOINED None false];
     chat := []; stats_duration := 0 |}.

(** Three rides and their rooms: alice and bob in the first, bob alone in
    the second, bob and carol in the third. *)
Definition convoy : World :=
  run_all Sample.verify
    (boot Sample.people
          (<["64d1f0a2b3c4d5e6f7089a01" := Sample.meetup PLANNING None]>
             (<["64d1f0a2b3c4d5e6f7089a02" := solo]> (<["64d1f0a2b3c4d5e6f7089a03" := pair]> ∅))) 100)
    [Connect 1%nat; Connect 3%nat; Connect 4%nat;
     Receive 1%nat (Authenticate (Some "token-alice"));
     Receive 3%nat (Authenticate (Some "token-bob"));
     Receive 4%nat (Authenticate (Some "token-carol"));
     Receive 1%nat (JoinRide "64d1f0a2b3c4d5e6f7089a01");
     Receive 3%nat (JoinRide "64d1f0a2b3c4d5e6f7089a01");
     Receive 3%nat (JoinRide "64d1f0a2b3c4d5e6f7089a02");
     Receive 3%nat (JoinRide "64d1f0a2b3c4d5e6f7089a03");
     Receive 4%nat (JoinRide "64d1f0a2b3c4d5e6f7089a03")].

(** The sample ride with its participants in full, capped at two. *)
Definition outing : Roster.doc :=
  {| Roster.base := Sample.meetup PLANNING None;
     Roster.entries := [Roster.Entry (Participant "alice" CONFIRMED None false) None None;
                        Roster.Entry (Participant "bob" JOINED None false) (Some "car-7") None];
     Roster.maxParticipants := 2 |}.

(** The server with bob connected, after bob was removed from the ride. *)
Definition after_removal : World :=
  run_all Sample.verify
    (boot Sample.people
          (<["64d1f0a2b3c4d5e6f7089a01" := Roster.view (Roster.removeParticipant 500 "bob" outing)]> ∅) 600)
    [Connect 3%nat; Receive 3%nat (Authenticate (Some "token-bob"))].

Definition rookie : Gamification.sheet :=
  {| Gamification.points := 900; Gamification.level := 1;
     Gamification.experience := 900; Gamification.badges := ["FIRST_RIDE"];
     Gamification.achievements := [] |}.

Definition nothing : Profile.shelves := Profile.Shelves ∅ [] [] [].

(** A page with a stored user, and a page with nothing stored. *)
Definition returning : Profile.page :=
  Profile.Page
    (Profile.Stored (Profile.Saved "Maria" "Miata" 2000
                       (Profile.Shelves ∅ ["Roadsters"] ["pass-1"] [])))
    nothing.

Definition fresh : Profile.page := Profile.Page Profile.Absent nothing.

End Demo.

(* ===================================================================== *)
(** ** Properties of the Car photo paths                                   *)
(* ===================================================================== *)

Section CarPhotos.
Import Car.

Lemma primary_count_cons p ps :
  primary_count (p :: ps)
  = ((if isPrimary p then 1 else 0) + primary_count ps)%nat.
Proof. unfold primary_count. simpl. by destruct (isPrimary p). Qed.

(** Once a primary photo has been seen, the hook's loop leaves none behind
    it; before that it leaves at most one. *)
Lemma keep_first_primary_count foundPrimary ps :
  (primary_count (keep_first_primary foundPrimary ps)
   ≤ if foundPrimary then 0 else 1)%nat.
Proof.
  revert foundPrimary. induction ps as [|p ps IH]; intros found.
  - destruct found; cbn; lia.
  - cbn [keep_first_primary].
    destruct (isPrimary p) eqn:Hp, found; cbn [andb negb].
    + rewrite primary_count_cons. cbn. specialize (IH true). simpl in IH. lia.
    + rewrite primary_count_cons, Hp. specialize (IH true). simpl in IH. lia.
    + rewrite primary_count_cons, Hp. specialize (IH true). simpl in IH. lia.
    + rewrite primary_count_cons, Hp. specialize (IH false). simpl in IH. lia.
Qed.

Lemma pre_save_single_primary c : (primary_count (photos (pre_save c)) ≤ 1)%nat.
Proof.
  unfold pre_save. case_decide as Hmany.
  - cbn. apply (keep_first_primary_count false).
  - unfold primary_count. lia.
Qed.

Lemma primary_count_cleared ps : primary_count (map (set_isPrimary false) ps) = 0%nat.
Proof.
  induction ps as [|p ps IH]; [done|].
  cbn [map]. rewrite primary_count_cons. cbn. exact IH.
Qed.

Lemma primary_count_app ps qs :
  primary_count (ps ++ qs) = (primary_count ps + primary_count qs)%nat.
Proof. unfold primary_count. by rewrite List.filter_app, length_app. Qed.

Lemma cleared_not_primary ps p : p ∈ map (set_isPrimary false) ps → isPrimary p = false.
Proof. intros (q & -> & _)%list_elem_of_fmap. done. Qed.

Lemma set_isPrimary_same p : isPrimary p = false → set_isPrimary false p = p.
Proof. destruct p as [u c b t]. cbn. by intros ->. Qed.

Lemma unflag_no_primary ps :
  (∀ q, q ∈ ps → isPrimary q = false) → map (set_isPrimary false) ps = ps.
Proof.
  induction ps as [|p ps IH]; intros Hnone; [done|]. cbn.
  rewrite set_isPrimary_same by (apply Hnone; by left).
  f_equal. apply IH. intros q Hq. apply Hnone. by right.
Qed.

Lemma keep_first_primary_found ps :
  keep_first_primary true ps = map (set_isPrimary false) ps.
Proof.
  induction ps as [|p ps IH]; [done|]. cbn.
  destruct (isPrimary p) eqn:Hp; cbn; rewrite IH; [done|].
  by rewrite set_isPrimary_same.
Qed.

Lemma keep_first_primary_none ps :
  (∀ q, q ∈ ps → isPrimary q = false) → keep_first_primary false ps = ps.
Proof.
  induction ps as [|p ps IH]; intros Hnone; [done|]. cbn.
  rewrite (Hnone p) by (by left). cbn. f_equal. apply IH.
  intros q Hq. apply Hnone. by right.
Qed.

Lemma keep_first_primary_split before p after :
  (∀ q, q ∈ before → isPrimary q = false) →
  isPrimary p = true →
  keep_first_primary false (before ++ p :: after)
  = before ++ p :: map (set_isPrimary false) after.
Proof.
  intros Hbefore Hp. induction before as [|q before IH]; cbn.
  - rewrite Hp. cbn. by rewrite keep_first_primary_found.
  - rewrite (Hbefore q) by (by left). cbn. f_equal. apply IH.
    intros q' Hq'. apply Hbefore. by right.
Qed.

Lemma first_primary ps :
  (∀ q, q ∈ ps → isPrimary q = false)
  ∨ ∃ before p after, ps = before ++ p :: after
      ∧ (∀ q, q ∈ before → isPrimary q = false) ∧ isPrimary p = true.
Proof.
  induction ps as [|p ps IH]; [left; by intros q ?%not_elem_of_nil|].
  destruct (isPrimary p) eqn:Hp.
  - right. exists [], p, ps. split; [done|]. split; [|done]. by intros q ?%not_elem_of_nil.
  - destruct IH as [Hnone | (before & p' & after & -> & Hbefore & Hp')].
    + left. intros q [->|Hq]%elem_of_cons; [done|by apply Hnone].
    + right. exists (p :: before), p', after. split; [done|]. split; [|done].
      intros q [->|Hq]%elem_of_cons; [done|by apply Hbefore].
Qed.

Lemma primary_count_none ps :
  (∀ q, q ∈ ps → isPrimary q = false) → primary_count ps = 0%nat.
Proof.
  induction ps as [|p ps IH]; intros Hnone; [done|].
  rewrite primary_count_cons, (Hnone p) by (by left). apply IH.
  intros q Hq. apply Hnone. by right.
Qed.

Lemma primary_count_zero ps :
  primary_count ps = 0%nat → ∀ q, q ∈ ps → isPrimary q = false.
Proof.
  induction ps as [|p ps IH]; [by intros _ q ?%not_elem_of_nil|].
  rewrite primary_count_cons. intros Hcount q [->|Hq]%elem_of_cons.
  - destruct (isPrimary p); [lia|done].
  - apply IH; [|done]. destruct (isPrimary p); lia.
Qed.

(** The hook's branch on the number of primary photos does not show in its
    result: it is the loop's result in both cases. *)
Lemma pre_save_is_loop c :
  pre_save c = set_photos (keep_first_primary false (photos c)) c.
Proof.
  unfold pre_save. fold (primary_count (photos c)). case_decide as Hmany; [done|].
  destruct (first_primary (photos c)) as [Hnone | (before & p & after & Heq & Hbefore & Hp)].
  - rewrite keep_first_primary_none by done. by destruct c.
  - rewrite Heq, keep_first_primary_split by done.
    assert (Hafter : primary_count after = 0%nat).
    { rewrite Heq, primary_count_app, primary_count_cons, Hp in Hmany. lia. }
    rewrite unflag_no_primary by (by apply primary_count_zero).
    rewrite <- Heq. by destruct c.
Qed.

Lemma keep_first_primary_flags found ps :
  map (set_isPrimary false) (keep_first_primary found ps) = map (set_isPrimary false) ps.
Proof.
  revert found. induction ps as [|p ps IH]; intros found; [done|].
  cbn. destruct (isPrimary p && negb found); [cbn; by rewrite IH|].
  destruct (isPrimary p); cbn; by rewrite IH.
Qed.

(** The loop only clears flags: a photo that is primary afterwards is the
    photo that stood at its place before. *)
Lemma keep_first_primary_only_clears found ps i p' :
  keep_first_primary found ps !! i = Some p' →
  isPrimary p' = true →
  ps !! i = Some p'.
Proof.
  revert found i. induction ps as [|p ps IH]; intros found i; [done|].
  cbn [keep_first_primary].
  destruct (isPrimary p && negb found) eqn:Hfirst.
  - destruct i as [|i]; [done|]. cbn. apply IH.
  - destruct (isPrimary p) eqn:Hp.
    + destruct i as [|i]; cbn; [|apply IH]. intros [= <-]. done.
    + destruct i as [|i]; [done|]. cbn. apply IH.
Qed.

(** With a primary photo among them and none seen so far, the loop leaves
    exactly one. *)
Lemma keep_first_primary_one ps :
  (1 ≤ primary_count ps)%nat → primary_count (keep_first_primary false ps) = 1%nat.
Proof.
  intros Hsome.
  destruct (first_primary ps) as [Hnone | (before & p & after & -> & Hbefore & Hp)].
  - rewrite primary_count_none in Hsome by done. lia.
  - rewrite keep_first_primary_split by done.
    rewrite primary_count_app, primary_count_cons, Hp, primary_count_cleared.
    rewrite primary_count_none by done. done.
Qed.

Lemma photo_valid_cleared ps :
  forallb photo_valid (map (set_isPrimary false) ps) = forallb photo_valid ps.
Proof. induction ps as [|p ps IH]; [done|]. cbn. by rewrite IH. Qed.

(** C10. Every successful save stores at most one primary photo (and a
    document whose photos all have a url is saved): the photos stored are
    the photos given, in their order, with nothing but flags cleared, and
    exactly one is primary when at least one was.  [addPhoto] with a
    primary photo that has a url, on a car whose photos have one, is
    accepted and stores the earlier photos with the flag cleared, followed
    by the new photo as the only primary one. *)
Theorem car_single_primary_photo (c : car) :
  (forallb photo_valid (photos c) = true → is_Some (save c))
  ∧ (∀ c', save c = Some c' → (primary_count (photos c') ≤ 1)%nat)
  ∧ (∀ photoData c',
        isPrimary photoData = true →
        addPhoto photoData c = Some c' →
        photos c' = map (set_isPrimary false) (photos c) ++ [photoData]
        ∧ (∀ p, p ∈ map (set_isPrimary false) (photos c) → isPrimary p = false)
        ∧ primary_count (photos c') = 1%nat)
  ∧ (∀ c', save c = Some c' →
        owner c' = owner c
        ∧ map (set_isPrimary false) (photos c') = map (set_isPrimary false) (photos c)
        ∧ ((1 ≤ primary_count (photos c))%nat → primary_count (photos c') = 1%nat)
        ∧ (∀ i p', photos c' !! i = Some p' → isPrimary p' = true →
                   photos c !! i = Some p'))
  ∧ (∀ photoData,
        isPrimary photoData = true →
        photo_valid photoData = true →
        forallb photo_valid (photos c) = true →
        addPhoto photoData c
        = Some (set_photos (map (set_isPrimary false) (photos c) ++ [photoData]) c)).
Proof.
  split; [|split; [|split; [|split]]].
  - intros Hvalid. unfold save. rewrite Hvalid. eauto.
  - intros c'. unfold save. destruct (forallb _ _); [|done].
    intros [= <-]. apply pre_save_single_primary.
  - intros pd c' Hpd. unfold addPhoto, save. rewrite Hpd.
    destruct (forallb _ _); [|done]. intros [= <-].
    assert (Hcount : primary_count (map (set_isPrimary false) (photos c) ++ [pd]) = 1%nat).
    { rewrite primary_count_app, primary_count_cleared.
      unfold primary_count. cbn. by rewrite Hpd. }
    unfold pre_save. cbn [photos set_photos].
    fold (primary_count (map (set_isPrimary false) (photos c) ++ [pd])).
    rewrite Hcount. case_decide; [lia|]. cbn [photos set_photos].
    split; [done|]. split; [apply cleared_not_primary | done].
  - intros c'. unfold save. destruct (forallb _ _); [|done].
    intros [= <-]. rewrite pre_save_is_loop. cbn [owner photos set_photos].
    split; [done|]. split; [apply keep_first_primary_flags|].
    split; [apply keep_first_primary_one|].
    intros i p'. apply keep_first_primary_only_clears.
  - intros pd Hpd Hurl Hvalid. unfold addPhoto, save. rewrite Hpd.
    cbn [photos set_photos].
    rewrite forallb_app, photo_valid_cleared, Hvalid. cbn [forallb]. rewrite Hurl.
    cbn [andb]. f_equal.
    rewrite pre_save_is_loop. unfold set_photos. cbn [photos owner].
    rewrite keep_first_primary_split by (try apply cleared_not_primary; done).
    done.
Qed.

End CarPhotos.

Lemma car_single_primary_photo_witness :
  Car.save Sample.demo_car
  = Some (Car.MkCar "alice" [Car.Photo "a.jpg" "front" true 1;
                             Car.Photo "b.jpg" "rear" false 2])
  ∧ Car.primary_count [Car.Photo "a.jpg" "front" true 1;
                       Car.Photo "b.jpg" "rear" false 2] = 1%nat
  ∧ Car.addPhoto (Car.Photo "c.jpg" "side" true 3) Sample.demo_car
    = Some (Car.MkCar "alice" [Car.Photo "a.jpg" "front" false 1;
                               Car.Photo "b.jpg" "rear" false 2;
                               Car.Photo "c.jpg" "side" true 3])
  ∧ Car.primary_count [Car.Photo "a.jpg" "front" false 1;
                       Car.Photo "b.jpg" "rear" false 2;
                       Car.Photo "c.jpg" "side" true 3] = 1%nat.
Proof.
  destruct (car_single_primary_photo Sample.demo_car)
    as (_ & _ & Hadd & Hsave & Haccepted).
  assert (Hstored : Car.save Sample.demo_car
                    = Some (Car.MkCar "alice" [Car.Photo "a.jpg" "front" true 1;
                                               Car.Photo "b.jpg" "rear" false 2]))
    by reflexivity.
  split; [exact Hstored|].
  split; [exact (proj1 (proj2 (proj2 (Hsave _ Hstored))) (le_S 1 1 (le_n 1)))|].
  split; [exact (Haccepted (Car.Photo "c.jpg" "side" true 3) eq_refl eq_refl eq_refl)|].
  exact (proj2 (proj2 (Hadd (Car.Photo "c.jpg" "side" true 3) _ eq_refl
                            (Haccepted (Car.Photo "c.jpg" "side" true 3)
                                       eq_refl eq_refl eq_refl)))).
Defined.

(* ===================================================================== *)
(** ** Room membership: joining                                            *)
(* ===================================================================== *)

Lemma rideRooms_add_insert rideId userId (rr : gmap string (gset string)) :
  rideRooms_add rideId userId rr
  = <[rideId := {[userId]} ∪ default ∅ (rr !! rideId)]> rr.
Proof.
  unfold rideRooms_add. apply map_eq. intros k.
  destruct (rr !! rideId) as [members|] eqn:Hrr.
  - rewrite lookup_alter. rewrite lookup_insert. case_decide; subst; [|done].
    by rewrite Hrr.
  - rewrite lookup_alter. rewrite !lookup_insert. case_decide; subst; [|done].
    by rewrite decide_True.
Qed.

Lemma rideRooms_add_idemp rideId userId (rr : gmap string (gset string)) :
  rideRooms_add rideId userId (rideRooms_add rideId userId rr)
  = rideRooms_add rideId userId rr.
Proof.
  rewrite !rideRooms_add_insert. rewrite lookup_insert_eq, insert_insert_eq. cbn.
  by rewrite (assoc_L (∪)), union_idemp_L.
Qed.

Lemma socket_join_idemp sid room w :
  socket_join sid room (socket_join sid room w) = socket_join sid room w.
Proof.
  unfold socket_join, room_members, set_rooms. cbn.
  rewrite lookup_insert_eq, insert_insert_eq. cbn.
  by rewrite (assoc_L (∪)), union_idemp_L.
Qed.

Lemma socket_join_member sid room w : sid ∈ room_members (socket_join sid room w) room.
Proof.
  unfold socket_join, room_members, set_rooms. cbn.
  rewrite lookup_insert_eq. cbn. apply elem_of_union_l, elem_of_singleton. done.
Qed.

Lemma joined_idemp sid userId rideId w :
  joined sid userId rideId (joined sid userId rideId w) = joined sid userId rideId w.
Proof.
  unfold joined.
  change (socket_join sid (room_of rideId) (set_rideRooms ?x ?v))
    with (set_rideRooms x (socket_join sid (room_of rideId) v)).
  rewrite socket_join_idemp. cbn. by rewrite rideRooms_add_idemp.
Qed.

Lemma on_join_ride_accepts w sid s userId rideId id r :
  s_userId s = Some userId →
  castObjectId rideId = Some id →
  rides w !! id = Some r →
  existsb (is_user userId) (participants r) = true →
  on_join_ride w sid s rideId
  = (joined sid userId rideId w,
     [emit (joined sid userId rideId w) (ToSocket sid) (joined_ride rideId);
      emit (joined sid userId rideId w) (ToRoomExcept (room_of rideId) sid)
           (participant_joined userId (socket_username s))]).
Proof.
  intros Huser Hcast Hride Hpart. unfold on_join_ride.
  by rewrite Huser, Hcast, Hride, Hpart.
Qed.

Lemma not_participant_existsb userId (ps : list participant) :
  (∀ p, p ∈ ps → p_user p ≠ userId) → existsb (is_user userId) ps = false.
Proof.
  intros Hnone. induction ps as [|p ps IH]; [done|]. cbn.
  unfold is_user at 1. rewrite bool_decide_eq_false_2.
  - apply IH. intros q Hq. apply Hnone. by right.
  - apply Hnone. by left.
Qed.

Section Joining.
Variable jwt_verify : string → option string.

(** C5, amended. For an authenticated caller, whatever the membership map
    holds: [join_ride] on the id of a stored ride that lists no participant
    record of the caller answers the caller alone with the not-a-participant
    error; on a well-formed id (24 hexadecimal digits) that names no stored
    ride it answers with the ride-not-found error; on an id that is not a
    well-formed ObjectId the lookup throws and the caller gets the generic
    join failure.  In all three cases the world is left as it was. *)
Theorem join_ride_rejections (w : World) (sid : nat) (s : socket)
    (userId rideId : string) (cache : gmap string (gset string)) :
  sockets w !! sid = Some s →
  s_userId s = Some userId →
  let w0 := set_rideRooms cache w in
  (∀ id r, castObjectId rideId = Some id → rides w !! id = Some r →
        (∀ p, p ∈ participants r → p_user p ≠ userId) →
        handle jwt_verify w0 sid (JoinRide rideId)
        = (w0, [Out (ToSocket sid) {[sid]} (error "Not a participant of this ride")]))
  ∧ (∀ id, castObjectId rideId = Some id → rides w !! id = None →
        handle jwt_verify w0 sid (JoinRide rideId)
        = (w0, [Out (ToSocket sid) {[sid]} (error "Ride not found")]))
  ∧ (castObjectId rideId = None →
        handle jwt_verify w0 sid (JoinRide rideId)
        = (w0, [Out (ToSocket sid) {[sid]} (error "Failed to join ride")])).
Proof.
  intros Hsock Huser w0. split; [|split].
  - intros id r Hcast Hride Hnone. unfold handle. cbn. rewrite Hsock.
    unfold on_join_ride. rewrite Huser, Hcast. cbn. rewrite Hride.
    by rewrite (not_participant_existsb _ _ Hnone).
  - intros id Hcast Hride. unfold handle. cbn. rewrite Hsock.
    unfold on_join_ride. rewrite Huser, Hcast. cbn. by rewrite Hride.
  - intros Hcast. unfold handle. cbn. rewrite Hsock.
    unfold on_join_ride. by rewrite Huser, Hcast.
Qed.

(** C6. Joining twice in succession, with an id that names a stored ride
    listing the caller, ends in the world the first join produced: the
    caller is in the membership set and the socket in the delivery group
    after the first join, the second changes nothing and again answers
    [joined_ride], with no error. *)
Theorem join_ride_idempotent (w : World) (sid : nat) (s : socket)
    (userId rideId id : string) (r : ride) :
  sockets w !! sid = Some s →
  s_userId s = Some userId →
  castObjectId rideId = Some id →
  rides w !! id = Some r →
  existsb (is_user userId) (participants r) = true →
  let once := handle jwt_verify w sid (JoinRide rideId) in
  let twice := handle jwt_verify once.1 sid (JoinRide rideId) in
  userId ∈ default ∅ (rideRooms once.1 !! rideId)
  ∧ sid ∈ room_members once.1 (room_of rideId)
  ∧ twice.1 = once.1
  ∧ twice.2 = once.2
  ∧ ∃ others, twice.2 = [Out (ToSocket sid) {[sid]} (joined_ride rideId); others].
Proof.
  intros Hsock Huser Hcast Hride Hpart once twice.
  assert (Honce : once = on_join_ride w sid s rideId).
  { unfold once, handle. by rewrite Hsock. }
  rewrite (on_join_ride_accepts _ _ _ _ _ _ _ Huser Hcast Hride Hpart) in Honce.
  assert (Htwice : twice = on_join_ride (joined sid userId rideId w) sid s rideId).
  { unfold twice, handle. rewrite Honce. cbn. by rewrite Hsock. }
  rewrite (on_join_ride_accepts _ _ _ userId _ id r Huser Hcast) in Htwice by done.
  rewrite joined_idemp in Htwice.
  rewrite Htwice, Honce. cbn [fst snd].
  split; [|split; [|split; [|split]]]; try done.
  - unfold joined. cbn. rewrite rideRooms_add_insert, lookup_insert_eq. cbn.
    apply elem_of_union_l, elem_of_singleton. done.
  - unfold joined. apply socket_join_member.
  - eexists. reflexivity.
Qed.

End Joining.

(* ===================================================================== *)
(** ** Unauthenticated connections                                         *)
(* ===================================================================== *)

Section Unauthenticated.
Variable jwt_verify : string → option string.

(** On a connection that has not authenticated, the handler of every
    event other than [authenticate], given its payload, leaves the whole
    world as it was (the presence map, the room maps, the stores, and the
    connection itself, which stays open and unauthenticated) and emits
    either nothing or one [error] event addressed to that connection
    alone. *)
Lemma unauthenticated_event_is_inert (w : World) (sid : nat) (s : socket)
    (ev : inbound) :
  sockets w !! sid = Some s →
  s_userId s = None →
  (∀ token, ev ≠ Authenticate token) →
  let result := handle jwt_verify w sid ev in
  result.1 = w
  ∧ sockets result.1 !! sid = Some s
  ∧ (result.2 = []
     ∨ ∃ message, result.2 = [Out (ToSocket sid) {[sid]} (error message)])
  ∧ (ev ≠ Disconnect → run jwt_verify w (Receive sid ev) = result).
Proof.
  intros Hsock Hanon Hev result.
  assert (Hinert : result = (w, []) ∨ result = (w, [emit w (ToSocket sid) (error "Not authenticated")])).
  { unfold result, handle. rewrite Hsock.
    destruct ev; try (by destruct (Hev token));
      unfold on_join_ride, on_leave_ride, on_update_location, on_send_message,
        on_start_ride, on_end_ride, on_typing, on_disconnect;
      rewrite Hanon; auto. }
  assert (Hrun : ev ≠ Disconnect → run jwt_verify w (Receive sid ev) = result).
  { intros Hopen. by destruct ev. }
  destruct Hinert as [-> | ->]; cbn [fst snd]; repeat split; eauto.
Qed.

(** C9, where the code departs from it.  On a connection that has not
    authenticated, a [typing] event sent without a payload makes the
    listener throw: it neither returns silently nor answers with an [error]
    event.  Every other arrival that is not an [authenticate] ends as the
    claim says: the listener returns, the world is as it was, and nothing
    or one [error] event to that connection alone is emitted; this holds
    for every event with its payload, [typing] included, and for every
    other event sent without one. *)
Theorem typing_without_payload_throws (w : World) (sid : nat) (s : socket) :
  sockets w !! sid = Some s →
  s_userId s = None →
  listen jwt_verify w sid (Bare typing) = Thrown
  ∧ (∀ a, a ≠ Bare typing → a ≠ Bare authenticate →
       (∀ token, a ≠ WithPayload (Authenticate token)) →
       listen jwt_verify w sid a = Returned (w, [])
       ∨ ∃ message,
           listen jwt_verify w sid a
           = Returned (w, [Out (ToSocket sid) {[sid]} (error message)])).
Proof.
  intros Hsock Hanon. split.
  - unfold listen. by rewrite Hsock.
  - intros [ev | name] Htyping Hauth Htoken.
    + assert (Hev : ∀ token, ev ≠ Authenticate token).
      { intros token ->. by apply (Htoken token). }
      destruct (unauthenticated_event_is_inert w sid s ev Hsock Hanon Hev)
        as (Hworld & _ & Houts & _).
      unfold listen.
      destruct (handle jwt_verify w sid ev) as [w' outs]. cbn [fst snd] in *.
      subst w'. destruct Houts as [-> | [message ->]]; [by left|].
      right. by exists message.
    + unfold listen. rewrite Hsock. destruct name; try done; try (by left).
      * right. by eexists.
      * right. by eexists.
      * right. by eexists.
      * right. by eexists.
Qed.

(** An event sent without a payload changes nothing on the server,
    whoever sends it: the worlds the server reaches are those of [run]. *)
Lemma listen_bare_keeps_world (w : World) (sid : nat) (name : event_name)
    (result : World * list out) :
  listen jwt_verify w sid (Bare name) = Returned result → result.1 = w.
Proof.
  unfold listen. destruct (sockets w !! sid); [|by intros [= <-]].
  destruct name; intros [= <-]; done.
Qed.

End Unauthenticated.

(* ===================================================================== *)
(** ** Room membership: pruning on leave and disconnect                    *)
(* ===================================================================== *)

Lemma prune_member_Some userId members rest :
  prune_member userId members = Some rest →
  rest = members ∖ {[userId]} ∧ rest ≠ ∅.
Proof.
  unfold prune_member. case_decide as Hsize; [done|]. intros [= <-].
  split; [done|]. intros Hempty. apply Hsize. rewrite Hempty. apply size_empty.
Qed.

Lemma prune_member_None userId members :
  prune_member userId members = None ↔ members ∖ {[userId]} = ∅.
Proof.
  unfold prune_member. case_decide as Hsize.
  - split; [|done]. intros _. by apply leibniz_equiv, size_empty_iff.
  - split; [done|]. intros Hempty. destruct Hsize. rewrite Hempty. apply size_empty.
Qed.

Lemma rideRooms_prune_lookup userId (rr : gmap string (gset string)) rideId :
  rideRooms_prune userId rr !! rideId = rr !! rideId ≫= prune_member userId.
Proof. apply lookup_omap. Qed.

Lemma rideRooms_leave_lookup rideId userId (rr : gmap string (gset string)) k :
  rideRooms_leave rideId userId rr !! k
  = if decide (rideId = k) then rr !! k ≫= prune_member userId else rr !! k.
Proof.
  unfold rideRooms_leave. destruct (rr !! rideId) as [members|] eqn:Hrr.
  - destruct (prune_member userId members) as [rest|] eqn:Hrest.
    + rewrite lookup_insert. case_decide; subst; [|done]. rewrite Hrr. cbn. by rewrite Hrest.
    + rewrite lookup_delete. case_decide; subst; [|done]. rewrite Hrr. cbn. by rewrite Hrest.
  - case_decide; subst; [|done]. by rewrite Hrr.
Qed.

Lemma rooms_nonempty_add rideId userId rr :
  rooms_nonempty rr → rooms_nonempty (rideRooms_add rideId userId rr).
Proof.
  intros Hinv k members. rewrite rideRooms_add_insert, lookup_insert.
  case_decide; [|apply Hinv]. intros [= <-] Hempty.
  apply (not_elem_of_empty (C := gset string) userId). rewrite <- Hempty.
  apply elem_of_union_l, elem_of_singleton. done.
Qed.

Lemma rooms_nonempty_leave rideId userId rr :
  rooms_nonempty rr → rooms_nonempty (rideRooms_leave rideId userId rr).
Proof.
  intros Hinv k members. rewrite rideRooms_leave_lookup.
  case_decide; [|apply Hinv]. destruct (rr !! k) as [old|]; [|done]. cbn.
  intros Hrest. by apply prune_member_Some in Hrest as [_ ?].
Qed.

Lemma rooms_nonempty_prune userId rr : rooms_nonempty (rideRooms_prune userId rr).
Proof.
  intros k members. rewrite rideRooms_prune_lookup.
  destruct (rr !! k) as [old|]; [|done]. cbn.
  intros Hrest. by apply prune_member_Some in Hrest as [_ ?].
Qed.

Lemma rooms_nonempty_rehydrate sid userId rideIds w :
  rooms_nonempty (rideRooms w) →
  rooms_nonempty (rideRooms (fold_left (rehydrate_one sid userId) rideIds w)).
Proof.
  revert w. induction rideIds as [|rideId rideIds IH]; intros w Hinv; [done|].
  cbn [fold_left]. apply IH. unfold rehydrate_one. cbn. by apply rooms_nonempty_add.
Qed.

Section Pruning.
Variable jwt_verify : string → option string.

Lemma handle_rooms_nonempty w sid ev :
  rooms_nonempty (rideRooms w) →
  rooms_nonempty (rideRooms (handle jwt_verify w sid ev).1).
Proof.
  intros Hinv. unfold handle. destruct (sockets w !! sid) as [s|]; [|done].
  destruct ev as [token| rideId | rideId | rideId loc | rideId msg type ts
                 | rideId | rideId | rideId flag | ].
  - unfold on_authenticate.
    destruct token as [[|c tok]|]; [done| |done].
    destruct (jwt_verify _) as [decoded|]; [|done].
    destruct (users w !! decoded) as [u|]; [|done].
    cbn [fst]. by apply rooms_nonempty_rehydrate.
  - unfold on_join_ride. destruct (s_userId s) as [userId|]; [|done].
    destruct (castObjectId rideId) as [id|]; [|done].
    destruct (rides w !! id) as [r|]; [|done].
    destruct (negb _); [done|]. cbn. by apply rooms_nonempty_add.
  - unfold on_leave_ride. destruct (s_userId s) as [userId|]; [|done].
    cbn. by apply rooms_nonempty_leave.
  - unfold on_update_location. destruct (s_userId s) as [userId|]; [|done].
    by destruct (rides w !! rideId) as [r|].
  - unfold on_send_message. destruct (s_userId s) as [userId|]; [|done].
    destruct (rides w !! rideId) as [r|]; [|done].
    by destruct (addChatMessage _ _ _ _ _).
  - unfold on_start_ride. destruct (s_userId s) as [userId|]; [|done].
    destruct (rides w !! rideId) as [r|]; [|done]. by destruct (negb _).
  - unfold on_end_ride. destruct (s_userId s) as [userId|]; [|done].
    destruct (rides w !! rideId) as [r|]; [|done]. by destruct (negb _).
  - unfold on_typing. by destruct (s_userId s) as [userId|].
  - unfold on_disconnect. destruct (s_userId s) as [userId|]; [|done].
    cbn. apply rooms_nonempty_prune.
Qed.

Lemma run_rooms_nonempty w a :
  rooms_nonempty (rideRooms w) → rooms_nonempty (rideRooms (run jwt_verify w a).1).
Proof.
  intros Hinv. destruct a as [sid | sid ev | now | us rs]; cbn [run].
  - by destruct (sockets w !! sid).
  - pose proof (handle_rooms_nonempty w sid ev Hinv) as Hstep.
    destruct ev; try exact Hstep.
    destruct (handle jwt_verify w sid Disconnect) as [w1 outs]. exact Hstep.
  - done.
  - done.
Qed.

Lemma run_all_rooms_nonempty script w :
  rooms_nonempty (rideRooms w) → rooms_nonempty (rideRooms (run_all jwt_verify w script)).
Proof.
  revert w. induction script as [|a script IH]; intros w Hinv; [done|].
  cbn. apply IH. by apply run_rooms_nonempty.
Qed.

(** C7. Disconnect of an authenticated connection leaves its identity in no
    membership set, however many rooms held it, and leaves other members
    where they were: a room that keeps other members survives with exactly
    those members, a room whose set the disconnect empties is gone from the
    map.  [leave_ride] does the same to the room it names and touches no
    other room.  In every world the server can reach every entry of the
    room map is a non-empty set. *)
Theorem membership_pruned (w : World) (sid : nat) (s : socket) (userId : string) :
  sockets w !! sid = Some s →
  s_userId s = Some userId →
  let closed := (run jwt_verify w (Receive sid Disconnect)).1 in
  let left rideId := (handle jwt_verify w sid (LeaveRide rideId)).1 in
  (∀ rideId members, rideRooms closed !! rideId = Some members →
      (userId ∉ members) ∧ members ≠ ∅
      ∧ ∃ before, rideRooms w !! rideId = Some before ∧ members = before ∖ {[userId]})
  ∧ (∀ rideId before, rideRooms w !! rideId = Some before →
      before ∖ {[userId]} = ∅ → rideRooms closed !! rideId = None)
  ∧ (∀ rideId before, rideRooms w !! rideId = Some before →
      before ∖ {[userId]} = ∅ → rideRooms (left rideId) !! rideId = None)
  ∧ (∀ rideId members, rideRooms (left rideId) !! rideId = Some members →
      (userId ∉ members) ∧ members ≠ ∅)
  ∧ (∀ w', reachable jwt_verify w' → rooms_nonempty (rideRooms w'))
  ∧ (∀ rideId before, rideRooms w !! rideId = Some before →
      before ∖ {[userId]} ≠ ∅ →
      rideRooms closed !! rideId = Some (before ∖ {[userId]}))
  ∧ (∀ rideId before, rideRooms w !! rideId = Some before →
      before ∖ {[userId]} ≠ ∅ →
      rideRooms (left rideId) !! rideId = Some (before ∖ {[userId]}))
  ∧ (∀ rideId, rideRooms w !! rideId = None →
      rideRooms closed !! rideId = None ∧ rideRooms (left rideId) !! rideId = None)
  ∧ (∀ rideId other, other ≠ rideId →
      rideRooms (left rideId) !! other = rideRooms w !! other).
Proof.
  intros Hsock Huser closed left.
  assert (Hclosed : rideRooms closed = rideRooms_prune userId (rideRooms w)).
  { unfold closed. cbn [run]. unfold handle. rewrite Hsock.
    unfold on_disconnect. by rewrite Huser. }
  assert (Hleft : ∀ rideId,
             rideRooms (left rideId) = rideRooms_leave rideId userId (rideRooms w)).
  { intros rideId. unfold left, handle. rewrite Hsock.
    unfold on_leave_ride. by rewrite Huser. }
  split; [|split; [|split; [|split; [|split; [|split; [|split; [|split]]]]]]].
  - intros rideId members. rewrite Hclosed, rideRooms_prune_lookup.
    destruct (rideRooms w !! rideId) as [before|]; [|done]. cbn.
    intros [-> Hne]%prune_member_Some.
    split; [|split; [done|by exists before]].
    intros Hin. apply elem_of_difference in Hin as [_ Hnot].
    apply Hnot, elem_of_singleton. done.
  - intros rideId before Hbefore Hempty.
    rewrite Hclosed, rideRooms_prune_lookup, Hbefore. cbn.
    by apply prune_member_None.
  - intros rideId before Hbefore Hempty.
    rewrite Hleft, rideRooms_leave_lookup, decide_True, Hbefore by done. cbn.
    by apply prune_member_None.
  - intros rideId members.
    rewrite Hleft, rideRooms_leave_lookup, decide_True by done.
    destruct (rideRooms w !! rideId) as [before|]; [|done]. cbn.
    intros [-> Hne]%prune_member_Some. split; [|done].
    intros Hin. apply elem_of_difference in Hin as [_ Hnot].
    apply Hnot, elem_of_singleton. done.
  - intros w' (us & rs & now & script & ->).
    apply run_all_rooms_nonempty. intros rideId members. cbn.
    by rewrite lookup_empty.
  - intros rideId before Hbefore Hrest.
    rewrite Hclosed, rideRooms_prune_lookup, Hbefore. cbn.
    destruct (prune_member userId before) as [rest|] eqn:Hprune.
    + by apply prune_member_Some in Hprune as [-> _].
    + by apply prune_member_None in Hprune.
  - intros rideId before Hbefore Hrest.
    rewrite Hleft, rideRooms_leave_lookup, decide_True, Hbefore by done. cbn.
    destruct (prune_member userId before) as [rest|] eqn:Hprune.
    + by apply prune_member_Some in Hprune as [-> _].
    + by apply prune_member_None in Hprune.
  - intros rideId Habsent. split.
    + by rewrite Hclosed, rideRooms_prune_lookup, Habsent.
    + by rewrite Hleft, rideRooms_leave_lookup, decide_True, Habsent.
  - intros rideId other Hne.
    rewrite Hleft, rideRooms_leave_lookup. by rewrite decide_False.
Qed.

End Pruning.


(* ===================================================================== *)
(** ** The ride lifecycle: start and end                                   *)
(* ===================================================================== *)

Lemma startRide_fields now r :
  status (startRide now r) = ACTIVE ∧ startTime (startRide now r) = now
  ∧ organizer (startRide now r) = organizer r
  ∧ endTime (startRide now r) = endTime r
  ∧ participants (startRide now r) = participants r
  ∧ chat (startRide now r) = chat r.
Proof.
  unfold startRide, ride_pre_save. cbn.
  destruct (endTime r) eqn:Hend; cbn; repeat split; done.
Qed.

Lemma endRide_fields now r :
  status (endRide now r) = COMPLETED ∧ endTime (endRide now r) = Some now
  ∧ stats_duration (endRide now r) = now - startTime r
  ∧ organizer (endRide now r) = organizer r
  ∧ startTime (endRide now r) = startTime r
  ∧ participants (endRide now r) = participants r
  ∧ chat (endRide now r) = chat r.
Proof. unfold endRide, ride_pre_save. cbn. repeat split. Qed.

Section Lifecycle.
Variable jwt_verify : string → option string.

Lemma on_start_ride_organizer w sid s rideId r :
  s_userId s = Some (organizer r) →
  rides w !! rideId = Some r →
  on_start_ride w sid s rideId
  = (set_rides (<[rideId := startRide (clock w) r]> (rides w)) w,
     [Out (ToRoom (room_of rideId)) (room_members w (room_of rideId))
          (ride_started rideId (clock w))]).
Proof.
  intros Huser Hride. unfold on_start_ride. rewrite Huser, Hride.
  rewrite bool_decide_eq_true_2 by done. cbn [negb].
  by destruct (startRide_fields (clock w) r) as (_ & -> & _).
Qed.

Lemma on_end_ride_organizer w sid s rideId r :
  s_userId s = Some (organizer r) →
  rides w !! rideId = Some r →
  on_end_ride w sid s rideId
  = (set_rides (<[rideId := endRide (clock w) r]> (rides w)) w,
     [Out (ToRoom (room_of rideId)) (room_members w (room_of rideId))
          (ride_ended rideId (Some (clock w)) (clock w - startTime r))]).
Proof.
  intros Huser Hride. unfold on_end_ride. rewrite Huser, Hride.
  by rewrite bool_decide_eq_true_2.
Qed.

(** C1, amended. For an authenticated requester and an existing ride,
    whatever the ride's status: a requester other than the organizer gets
    an error event and the world is unchanged; the organizer's request
    stores the ride as [ACTIVE] with the server clock as start time, the
    rest of the ride and every other ride untouched, and emits
    [ride_started] with that start time to every socket of the ride's
    room, the sender's included when it is in the room. *)
Theorem start_ride_organizer_only (w : World) (sid : nat) (s : socket)
    (userId rideId : string) (r : ride) :
  sockets w !! sid = Some s →
  s_userId s = Some userId →
  rides w !! rideId = Some r →
  let result := handle jwt_verify w sid (StartRide rideId) in
  (organizer r ≠ userId →
     result = (w, [Out (ToSocket sid) {[sid]} (error "Only organizer can start ride")]))
  ∧ (organizer r = userId →
       start_succeeded result rideId
       ∧ (∃ r', rides result.1 !! rideId = Some r'
                ∧ status r' = ACTIVE ∧ startTime r' = clock w
                ∧ organizer r' = organizer r ∧ endTime r' = endTime r
                ∧ participants r' = participants r ∧ chat r' = chat r)
       ∧ (∀ other, other ≠ rideId → rides result.1 !! other = rides w !! other)
       ∧ result.2 = [Out (ToRoom (room_of rideId)) (room_members w (room_of rideId))
                         (ride_started rideId (clock w))]
       ∧ (sid ∈ room_members w (room_of rideId) →
          ∀ o, o ∈ result.2 → sid ∈ o_recipients o)).
Proof.
  intros Hsock Huser Hride result.
  assert (Hresult : result = on_start_ride w sid s rideId).
  { unfold result, handle. by rewrite Hsock. }
  split.
  - intros Hother. rewrite Hresult. unfold on_start_ride.
    rewrite Huser, Hride. by rewrite bool_decide_eq_false_2.
  - intros <-. rewrite Hresult, (on_start_ride_organizer _ _ _ _ _ Huser Hride).
    cbn [fst snd rides set_rides].
    pose proof (startRide_fields (clock w) r) as (Hst & Ht & Horg & Hend & Hps & Hchat).
    split; [|split; [|split; [|split]]].
    + split; [|by eauto]. exists (startRide (clock w) r).
      cbn. by rewrite lookup_insert_eq.
    + exists (startRide (clock w) r). by rewrite lookup_insert_eq.
    + intros other Hne. by rewrite lookup_insert_ne.
    + done.
    + intros Hin o ->%list_elem_of_singleton. done.
Qed.

(** C2, amended. An organizer's [end_ride] is accepted whatever the
    ride's status, [COMPLETED] included: the ride is stored as [COMPLETED]
    with the server clock as its end time, replacing an end time stamped
    before, and [ride_ended] is emitted to the ride's room with no error;
    so of two end calls in succession both go through and the second
    stamps the end time again. *)
Theorem end_ride_restamps (w : World) (sid : nat) (s : socket)
    (rideId : string) (r : ride) (later : Z) :
  sockets w !! sid = Some s →
  s_userId s = Some (organizer r) →
  rides w !! rideId = Some r →
  let first := handle jwt_verify w sid (EndRide rideId) in
  let second := handle jwt_verify (set_clock later first.1) sid (EndRide rideId) in
  (∃ r1, rides first.1 !! rideId = Some r1
         ∧ status r1 = COMPLETED ∧ endTime r1 = Some (clock w))
  ∧ first.2 = [Out (ToRoom (room_of rideId)) (room_members w (room_of rideId))
                   (ride_ended rideId (Some (clock w)) (clock w - startTime r))]
  ∧ (∃ r2, rides second.1 !! rideId = Some r2
           ∧ status r2 = COMPLETED ∧ endTime r2 = Some later)
  ∧ second.2 = [Out (ToRoom (room_of rideId)) (room_members w (room_of rideId))
                    (ride_ended rideId (Some later) (later - startTime r))].
Proof.
  intros Hsock Huser Hride first second.
  assert (Hfirst : first = on_end_ride w sid s rideId).
  { unfold first, handle. by rewrite Hsock. }
  rewrite (on_end_ride_organizer _ _ _ _ _ Huser Hride) in Hfirst.
  pose proof (endRide_fields (clock w) r) as (Hst & Hend & _ & Horg & Hstart & _).
  assert (Hsecond : second
                    = on_end_ride (set_clock later first.1) sid s rideId).
  { unfold second, handle. rewrite Hfirst. cbn. by rewrite Hsock. }
  rewrite (on_end_ride_organizer _ _ _ _ (endRide (clock w) r)) in Hsecond; cycle 1.
  { by rewrite Horg. }
  { rewrite Hfirst. cbn. by rewrite lookup_insert_eq. }
  rewrite Hsecond, Hfirst. cbn [fst snd rides set_rides set_clock clock].
  pose proof (endRide_fields later (endRide (clock w) r)) as (Hst2 & Hend2 & _).
  split; [|split; [|split]].
  - exists (endRide (clock w) r). by rewrite lookup_insert_eq.
  - done.
  - exists (endRide later (endRide (clock w) r)). by rewrite lookup_insert_eq.
  - by rewrite Hstart.
Qed.

End Lifecycle.

(** C1 fails as stated: alice, the organizer, starts a ride that is already
    [COMPLETED]; the request goes through. *)
Lemma start_only_from_planning_refuted : ¬ start_only_from_planning_as_stated.
Proof.
  intros Hclaim.
  destruct (Hclaim Sample.verify (Sample.server COMPLETED (Some 10)) 1%nat
                   Sample.alice_socket "64d1f0a2b3c4d5e6f7089a01" (Sample.meetup COMPLETED (Some 10)))
    as [Hplanning _].
  - vm_compute. reflexivity.
  - vm_compute. reflexivity.
  - split.
    + exists (startRide 100 (Sample.meetup COMPLETED (Some 10))).
      split; vm_compute; reflexivity.
    + exists {[1%nat; 3%nat]}, 100. vm_compute. reflexivity.
  - discriminate Hplanning.
Qed.

Lemma start_ride_organizer_only_witness :
  (handle Sample.verify (Sample.server PLANNING None) 3%nat (StartRide "64d1f0a2b3c4d5e6f7089a01")
   = (Sample.server PLANNING None,
      [Out (ToSocket 3%nat) {[3%nat]} (error "Only organizer can start ride")]))
  ∧ start_succeeded
      (handle Sample.verify (Sample.server PLANNING None) 1%nat (StartRide "64d1f0a2b3c4d5e6f7089a01")) "64d1f0a2b3c4d5e6f7089a01".
Proof.
  split.
  - refine (proj1 (start_ride_organizer_only Sample.verify (Sample.server PLANNING None)
                     3%nat Sample.bob_socket "bob" "64d1f0a2b3c4d5e6f7089a01" (Sample.meetup PLANNING None)
                     _ _ _) _).
    + vm_compute. reflexivity.
    + reflexivity.
    + vm_compute. reflexivity.
    + discriminate.
  - refine (proj1 (proj2 (start_ride_organizer_only Sample.verify
                            (Sample.server PLANNING None)
                            1%nat Sample.alice_socket "alice" "64d1f0a2b3c4d5e6f7089a01"
                            (Sample.meetup PLANNING None) _ _ _) _)).
    + vm_compute. reflexivity.
    + reflexivity.
    + vm_compute. reflexivity.
    + reflexivity.
Defined.

(** C2 fails as stated: alice ends a ride that is [COMPLETED] with end time
    10; the stored end time becomes 100 and no error is emitted. *)
Lemma end_on_completed_fails_refuted : ¬ end_on_completed_fails_as_stated.
Proof.
  intros Hclaim.
  destruct (Hclaim Sample.verify (Sample.server COMPLETED (Some 10)) 1%nat
                   Sample.alice_socket "64d1f0a2b3c4d5e6f7089a01" (Sample.meetup COMPLETED (Some 10)))
    as [Hsame _].
  - vm_compute. reflexivity.
  - reflexivity.
  - vm_compute. reflexivity.
  - reflexivity.
  - vm_compute in Hsame. discriminate Hsame.
Qed.

Lemma end_ride_restamps_witness :
  ∃ r2, rides (handle Sample.verify
                 (set_clock 250
                    (handle Sample.verify (Sample.server COMPLETED (Some 10)) 1%nat
                            (EndRide "64d1f0a2b3c4d5e6f7089a01")).1)
                 1%nat (EndRide "64d1f0a2b3c4d5e6f7089a01")).1 !! "64d1f0a2b3c4d5e6f7089a01" = Some r2
        ∧ status r2 = COMPLETED ∧ endTime r2 = Some 250.
Proof.
  refine (proj1 (proj2 (proj2 (end_ride_restamps Sample.verify
                                 (Sample.server COMPLETED (Some 10)) 1%nat
                                 Sample.alice_socket "64d1f0a2b3c4d5e6f7089a01"
                                 (Sample.meetup COMPLETED (Some 10)) 250 _ _ _)))).
  - vm_compute. reflexivity.
  - reflexivity.
  - vm_compute. reflexivity.
Defined.

(* ===================================================================== *)
(** ** Location updates and chat messages                                  *)
(* ===================================================================== *)

Lemma update_found_absent userId f (ps : list participant) :
  (∀ p, p ∈ ps → p_user p ≠ userId) → update_found userId f ps = ps.
Proof.
  induction ps as [|p ps IH]; intros Hnone; [done|]. cbn.
  unfold is_user. rewrite bool_decide_eq_false_2.
  - f_equal. apply IH. intros q Hq. apply Hnone. by right.
  - apply Hnone. by left.
Qed.

Lemma update_found_first userId f (before : list participant) p after :
  (∀ q, q ∈ before → p_user q ≠ userId) →
  p_user p = userId →
  update_found userId f (before ++ p :: after) = before ++ f p :: after.
Proof.
  intros Hbefore Hp. induction before as [|q before IH]; cbn.
  - unfold is_user. by rewrite bool_decide_eq_true_2.
  - unfold is_user at 1. rewrite bool_decide_eq_false_2.
    + f_equal. apply IH. intros q' Hq'. apply Hbefore. by right.
    + apply Hbefore. by left.
Qed.

Lemma ride_pre_save_fields r :
  status (ride_pre_save r) = status r ∧ organizer (ride_pre_save r) = organizer r
  ∧ startTime (ride_pre_save r) = startTime r ∧ endTime (ride_pre_save r) = endTime r
  ∧ participants (ride_pre_save r) = participants r ∧ chat (ride_pre_save r) = chat r.
Proof. unfold ride_pre_save. destruct (endTime r) eqn:Hend; cbn; repeat split; done. Qed.

Section Traffic.
Variable jwt_verify : string → option string.

(** C3, amended. For an authenticated caller and an existing ride, whatever
    the ride's status and whether or not the caller has a participant
    record: one [participant_location] event with the server clock as its
    timestamp goes to the sockets of the ride's room other than the
    sender's.  The caller's first participant record, of any status, gets
    the new snapshot and is marked online; with no record of the caller the
    participants are stored as they were. *)
Theorem update_location_unconditional (w : World) (sid : nat) (s : socket)
    (userId rideId : string) (r : ride) (loc : location_data) :
  sockets w !! sid = Some s →
  s_userId s = Some userId →
  rides w !! rideId = Some r →
  let result := handle jwt_verify w sid (UpdateLocation rideId loc) in
  let snapshot := location_snapshot (clock w) loc in
  result.2 = [Out (ToRoomExcept (room_of rideId) sid)
                  (room_members w (room_of rideId) ∖ {[sid]})
                  (participant_location userId (socket_username s) snapshot)]
  ∧ (∀ o, o ∈ result.2 → sid ∉ o_recipients o)
  ∧ ∃ r', rides result.1 !! rideId = Some r'
      ∧ status r' = status r
      ∧ ((∀ p, p ∈ participants r → p_user p ≠ userId) →
         participants r' = participants r)
      ∧ (∀ before p after,
           participants r = before ++ p :: after →
           (∀ q, q ∈ before → p_user q ≠ userId) →
           p_user p = userId →
           participants r'
           = before ++ Participant userId (p_status p) (Some snapshot) true :: after).
Proof.
  intros Hsock Huser Hride result snapshot.
  assert (Hresult : result = on_update_location w sid s rideId loc).
  { unfold result, handle. by rewrite Hsock. }
  unfold on_update_location in Hresult. rewrite Huser, Hride in Hresult.
  rewrite Hresult. cbn [fst snd rides set_rides].
  split; [done|]. split.
  - intros o ->%list_elem_of_singleton. cbn.
    intros [_ Hnot]%elem_of_difference. by apply Hnot, elem_of_singleton.
  - exists (updateParticipantLocation (clock w) userId loc r).
    rewrite lookup_insert_eq. unfold updateParticipantLocation.
    pose proof (ride_pre_save_fields
                  (set_participants
                     (update_found userId
                        (λ p, Participant (p_user p) (p_status p)
                                (Some (location_snapshot (clock w) loc)) true)
                        (participants r)) r)) as (Hst & _ & _ & _ & Hps & _).
    split; [done|]. split; [exact Hst|]. rewrite Hps. cbn [participants set_participants].
    split.
    + intros Hnone. by apply update_found_absent.
    + intros before p after -> Hbefore Hp.
      rewrite update_found_first by done. by rewrite Hp.
Qed.

(** C8, amended. For an authenticated caller and an existing ride: a
    message the chat schema accepts (non-empty, at most 500 characters,
    kind [TEXT], [SYSTEM] or [LOCATION], [TEXT] when none is given) is
    appended to the stored chat with the server clock as its timestamp and
    [new_message] is emitted with the server clock to every socket of the
    ride's room; a message the schema rejects is neither stored nor
    broadcast and the caller alone gets an error event.  In both cases a
    timestamp in the payload plays no part. *)
Theorem send_message_server_stamped (w : World) (sid : nat) (s : socket)
    (userId rideId : string) (r : ride) (message : string) (type : option string)
    (stamp : option Z) :
  sockets w !! sid = Some s →
  s_userId s = Some userId →
  rides w !! rideId = Some r →
  let result := handle jwt_verify w sid (SendMessage rideId message type stamp) in
  let entry := ChatEntry userId message (clock w) (default "TEXT" type) in
  (chat_entry_valid entry = true →
     (∃ r', rides result.1 !! rideId = Some r' ∧ chat r' = chat r ++ [entry])
     ∧ result.2 = [Out (ToRoom (room_of rideId)) (room_members w (room_of rideId))
                       (new_message userId (socket_username s) message
                                    (default "TEXT" type) (clock w))]
     ∧ (sid ∈ room_members w (room_of rideId) →
        ∀ o, o ∈ result.2 → sid ∈ o_recipients o))
  ∧ (chat_entry_valid entry = false →
     result = (w, [Out (ToSocket sid) {[sid]} (error "Failed to send message")]))
  ∧ (∀ stamp', handle jwt_verify w sid (SendMessage rideId message type stamp') = result).
Proof.
  intros Hsock Huser Hride result entry.
  assert (Hresult : result = on_send_message w sid s rideId message type).
  { unfold result, handle. by rewrite Hsock. }
  unfold on_send_message, addChatMessage in Hresult.
  rewrite Huser, Hride in Hresult. fold entry in Hresult.
  split; [|split].
  - intros Hvalid. rewrite Hvalid in Hresult. rewrite Hresult.
    cbn [fst snd rides set_rides].
    split; [|split; [done|]].
    + eexists. rewrite lookup_insert_eq. split; [done|].
      by destruct (ride_pre_save_fields (set_chat (chat r ++ [entry]) r))
        as (_ & _ & _ & _ & _ & ->).
    + intros Hin o ->%list_elem_of_singleton. done.
  - intros Hinvalid. by rewrite Hinvalid in Hresult.
  - intros stamp'. unfold result, handle. by rewrite Hsock.
Qed.

End Traffic.

(** C3 fails as stated: carol, who has no participant record of the ride,
    reports a location for it while it is [ACTIVE]; the room gets the
    broadcast. *)
Lemma update_location_revalidates_refuted : ¬ update_location_revalidates_as_stated.
Proof.
  intros Hclaim.
  destruct (Hclaim Sample.verify (Sample.server ACTIVE None) 4%nat
                   Sample.carol_socket "carol" "64d1f0a2b3c4d5e6f7089a01" (Sample.meetup ACTIVE None)
                   (LocationData (Coordinates 52 13) (Some 40) None))
    as [_ (p & Hp & Hcarol & _)].
  - vm_compute. reflexivity.
  - reflexivity.
  - vm_compute. reflexivity.
  - assert (Houts :
      (handle Sample.verify (Sample.server ACTIVE None) 4%nat
              (UpdateLocation "64d1f0a2b3c4d5e6f7089a01" (LocationData (Coordinates 52 13) (Some 40) None))).2
      = [Out (ToRoomExcept "ride_64d1f0a2b3c4d5e6f7089a01" 4%nat) {[1%nat; 2%nat; 3%nat]}
             (participant_location "carol" "Carol"
                (Location (Coordinates 52 13) 100 40 0))])
      by (vm_compute; reflexivity).
    rewrite Houts. unfold location_broadcast.
    eexists _, _, _, _, _. apply list_elem_of_singleton. reflexivity.
  - apply list_elem_of_In in Hp. cbn in Hp.
    destruct Hp as [<- | [<- | []]]; discriminate Hcarol.
Qed.

Lemma update_location_unconditional_witness :
  (handle Sample.verify (Sample.server PLANNING None) 4%nat
          (UpdateLocation "64d1f0a2b3c4d5e6f7089a01" (LocationData (Coordinates 52 13) (Some 40) None))).2
  = [Out (ToRoomExcept "ride_64d1f0a2b3c4d5e6f7089a01" 4%nat)
         (room_members (Sample.server PLANNING None) "ride_64d1f0a2b3c4d5e6f7089a01" ∖ {[4%nat]})
         (participant_location "carol" "Carol" (Location (Coordinates 52 13) 100 40 0))].
Proof.
  refine (proj1 (update_location_unconditional Sample.verify (Sample.server PLANNING None)
                   4%nat Sample.carol_socket "carol" "64d1f0a2b3c4d5e6f7089a01" (Sample.meetup PLANNING None)
                   (LocationData (Coordinates 52 13) (Some 40) None) _ _ _)).
  - vm_compute. reflexivity.
  - reflexivity.
  - vm_compute. reflexivity.
Defined.

(** C8 fails as stated: bob posts a message of 501 characters; the ride's
    chat is not extended and nothing is broadcast. *)
Lemma send_message_always_posts_refuted : ¬ send_message_always_posts_as_stated.
Proof.
  intros Hclaim.
  destruct (Hclaim Sample.verify (Sample.server ACTIVE None) 3%nat
                   Sample.bob_socket "bob" "64d1f0a2b3c4d5e6f7089a01" (Sample.meetup ACTIVE None)
                   Sample.long_message None None)
    as [_ (recipients & uname & t & Hsent)].
  - vm_compute. reflexivity.
  - reflexivity.
  - vm_compute. reflexivity.
  - vm_compute in Hsent. discriminate Hsent.
Qed.

Lemma send_message_server_stamped_witness :
  (handle Sample.verify (Sample.server ACTIVE None) 3%nat
          (SendMessage "64d1f0a2b3c4d5e6f7089a01" "hello" None (Some 7))).2
  = [Out (ToRoom "ride_64d1f0a2b3c4d5e6f7089a01") (room_members (Sample.server ACTIVE None) "ride_64d1f0a2b3c4d5e6f7089a01")
         (new_message "bob" "Bob" "hello" "TEXT" 100)]
  ∧ handle Sample.verify (Sample.server ACTIVE None) 3%nat
           (SendMessage "64d1f0a2b3c4d5e6f7089a01" Sample.long_message None (Some 7))
    = (Sample.server ACTIVE None,
       [Out (ToSocket 3%nat) {[3%nat]} (error "Failed to send message")]).
Proof.
  split.
  - refine (proj1 (proj2 (proj1 (send_message_server_stamped Sample.verify
                     (Sample.server ACTIVE None) 3%nat Sample.bob_socket "bob" "64d1f0a2b3c4d5e6f7089a01"
                     (Sample.meetup ACTIVE None) "hello" None (Some 7) _ _ _) _))).
    + vm_compute. reflexivity.
    + reflexivity.
    + vm_compute. reflexivity.
    + vm_compute. reflexivity.
  - refine (proj1 (proj2 (send_message_server_stamped Sample.verify
                     (Sample.server ACTIVE None) 3%nat Sample.bob_socket "bob" "64d1f0a2b3c4d5e6f7089a01"
                     (Sample.meetup ACTIVE None) Sample.long_message None (Some 7) _ _ _))
                  _).
    + vm_compute. reflexivity.
    + reflexivity.
    + vm_compute. reflexivity.
    + vm_compute. reflexivity.
Defined.

(* ===================================================================== *)
(** ** The presence registry                                               *)
(* ===================================================================== *)

Lemma rehydrate_keeps_presence sid userId rideIds w :
  let w' := fold_left (rehydrate_one sid userId) rideIds w in
  users w' = users w ∧ connectedUsers w' = connectedUsers w
  ∧ sockets w' = sockets w ∧ clock w' = clock w.
Proof.
  revert w. induction rideIds as [|rideId rideIds IH]; intros w; [done|].
  cbn [fold_left]. destruct (IH (rehydrate_one sid userId w rideId)) as (-> & -> & -> & ->).
  done.
Qed.

Lemma NoDup_filter_fst {A B} (P : A * B → bool) (l : list (A * B)) :
  NoDup l.*1 → NoDup (List.filter P l).*1.
Proof.
  induction l as [|x l IH]; [done|]. cbn.
  intros [Hx Hl]%NoDup_cons. destruct (P x); cbn; [|by apply IH].
  apply NoDup_cons. split; [|by apply IH].
  intros (y & Hfst & Hy)%list_elem_of_fmap. apply Hx.
  apply list_elem_of_fmap. exists y. split; [done|].
  apply list_elem_of_In, List.filter_In in Hy as [Hy _]. by apply list_elem_of_In.
Qed.

Lemma find_friends_NoDup w userId : NoDup (find_friends w userId).
Proof. unfold find_friends. apply NoDup_filter_fst, NoDup_fst_map_to_list. Qed.

Lemma notify_friends_reached w userId e :
  notify_friends w userId e
  = (λ p, Out (ToSocket p.2) {[p.2]} e) <$> reached w userId.
Proof.
  unfold notify_friends, reached.
  induction (find_friends w userId) as [|fid fids IH]; [done|]. cbn.
  destruct (connectedUsers w !! fid) as [fs|]; cbn; [|done]. by rewrite IH.
Qed.

Lemma reached_fst_sublist w userId : (reached w userId).*1 `sublist_of` find_friends w userId.
Proof.
  unfold reached.
  induction (find_friends w userId) as [|fid fids IH]; [done|]. cbn.
  destruct (connectedUsers w !! fid) as [fs|]; cbn.
  - by apply sublist_skip.
  - by apply sublist_cons.
Qed.

Lemma elem_of_find_friends w userId fid :
  fid ∈ find_friends w userId
  ↔ ∃ f, users w !! fid = Some f ∧ friend_query userId f = true.
Proof.
  unfold find_friends. rewrite list_elem_of_fmap. split.
  - intros ([k f] & -> & Hin). apply list_elem_of_In, List.filter_In in Hin as [Hin Hq].
    apply list_elem_of_In, elem_of_map_to_list in Hin. by exists f.
  - intros (f & Hdoc & Hq). exists (fid, f). split; [done|].
    apply list_elem_of_In, List.filter_In. split; [|done].
    by apply list_elem_of_In, elem_of_map_to_list.
Qed.

Lemma elem_of_reached w userId fid fs :
  (fid, fs) ∈ reached w userId
  ↔ connectedUsers w !! fid = Some fs
    ∧ ∃ f, users w !! fid = Some f ∧ friend_query userId f = true.
Proof.
  unfold reached. rewrite list_elem_of_omap. setoid_rewrite elem_of_find_friends. split.
  - intros (k & Hk & Hconn). destruct (connectedUsers w !! k) as [fs'|] eqn:Hc; [|done].
    cbn in Hconn. by simplify_eq.
  - intros (Hconn & Hf). exists fid. split; [done|]. by rewrite Hconn.
Qed.

Lemma friend_query_set_presence userId online now u :
  friend_query userId (set_presence online now u) = friend_query userId u.
Proof. done. Qed.

Lemma friend_query_true userId u :
  friend_query userId u = true
  ↔ (∃ f, f ∈ friends u ∧ f_user f = userId)
    ∧ (∃ f, f ∈ friends u ∧ f_status f = ACCEPTED).
Proof.
  unfold friend_query. rewrite andb_true_iff, !existsb_exists.
  split.
  - intros [(f & Hf & Huser) (g & Hg & Hstatus)]. split.
    + exists f. split; [by apply list_elem_of_In|]. by apply bool_decide_eq_true in Huser.
    + exists g. split; [by apply list_elem_of_In|]. by apply bool_decide_eq_true in Hstatus.
  - intros [(f & Hf & Huser) (g & Hg & Hstatus)]. split.
    + exists f. split; [by apply list_elem_of_In|]. by apply bool_decide_eq_true.
    + exists g. split; [by apply list_elem_of_In|]. by apply bool_decide_eq_true.
Qed.

Lemma elem_of_reached_unregistered w userId fid fs :
  (fid, fs) ∈ reached (unregistered userId w) userId
  ↔ fid ≠ userId ∧ connectedUsers w !! fid = Some fs
    ∧ ∃ f, users w !! fid = Some f ∧ friend_query userId f = true.
Proof.
  rewrite elem_of_reached. cbn. split.
  - intros (Hconn & f & Hdoc & Hq).
    apply lookup_delete_Some in Hconn as [Hne Hconn].
    split; [done|]. split; [done|].
    rewrite lookup_alter_ne in Hdoc by done. by exists f.
  - intros (Hne & Hconn & f & Hdoc & Hq). split.
    + by apply lookup_delete_Some.
    + exists f. by rewrite lookup_alter_ne.
Qed.

Section Presence.
Variable jwt_verify : string → option string.

Lemma on_authenticate_accepts w sid c token userId u :
  jwt_verify (String c token) = Some userId →
  users w !! userId = Some u →
  (on_authenticate jwt_verify w sid (Some (String c token))).1
  = fold_left (rehydrate_one sid userId)
      (find_active_rides (registered sid userId u w) userId)
      (registered sid userId u w).
Proof. intros Hverify Hdoc. unfold on_authenticate. by rewrite Hverify, Hdoc. Qed.

Lemma on_disconnect_authenticated w sid s userId :
  s_userId s = Some userId →
  on_disconnect w sid s
  = (unregistered userId w,
     notify_friends (unregistered userId w) userId
       (friend_offline userId (socket_username s))).
Proof. intros Huser. unfold on_disconnect. by rewrite Huser. Qed.

(** C4, amended. The registry keeps one connection per identity, the one
    that authenticated last: a successful [authenticate] registers the
    connection under the identity and marks the identity online.  Every
    disconnect of an authenticated connection, whether or not other
    connections of the identity stay open, removes the identity's mapping,
    marks the identity offline with the server clock as last-seen time, and
    sends [friend_offline], carrying the identity and its user name, to the
    registered socket of each user the contact query returns: the events
    sent are exactly one for each other identity that has a registered
    socket and whose stored friends list has an entry for the identity and
    an accepted entry (the query's two conditions, each met by some entry
    of the list), none twice.
    The closed connection is gone from the server, so it does this once. *)
Theorem presence_single_connection (w : World) (sid : nat) (s : socket)
    (userId : string) :
  sockets w !! sid = Some s →
  (∀ c token u, jwt_verify (String c token) = Some userId →
      users w !! userId = Some u →
      let result := handle jwt_verify w sid (Authenticate (Some (String c token))) in
      connectedUsers result.1 !! userId = Some sid
      ∧ users result.1 !! userId = Some (set_presence true (clock w) u)
      ∧ sockets result.1 !! sid = Some (Socket (Some userId) (Some u))
      ∧ reports_online result.1 userId)
  ∧ (s_userId s = Some userId →
      let result := run jwt_verify w (Receive sid Disconnect) in
      connectedUsers result.1 !! userId = None
      ∧ users result.1 !! userId = set_presence false (clock w) <$> users w !! userId
      ∧ ¬ reports_online result.1 userId
      ∧ sockets result.1 !! sid = None
      ∧ (∀ sid', sid' ≠ sid → sockets result.1 !! sid' = sockets w !! sid')
      ∧ result.2 = notify_friends result.1 userId
                     (friend_offline userId (socket_username s))
      ∧ NoDup (find_friends result.1 userId)
      ∧ ∃ notified : list (string * nat),
          NoDup notified.*1
          ∧ (∀ fid friendSocket, (fid, friendSocket) ∈ notified ↔
               fid ≠ userId ∧ connectedUsers w !! fid = Some friendSocket
               ∧ ∃ u, users w !! fid = Some u
                      ∧ (∃ f, f ∈ friends u ∧ f_user f = userId)
                      ∧ (∃ f, f ∈ friends u ∧ f_status f = ACCEPTED))
          ∧ result.2 = (λ p, Out (ToSocket p.2) {[p.2]}
                              (friend_offline userId (socket_username s))) <$> notified).
Proof.
  intros Hsock. split.
  - intros c token u Hverify Hdoc result.
    assert (Hresult : result.1
              = fold_left (rehydrate_one sid userId)
                  (find_active_rides (registered sid userId u w) userId)
                  (registered sid userId u w)).
    { unfold result, handle. rewrite Hsock. by apply on_authenticate_accepts. }
    destruct (rehydrate_keeps_presence sid userId
                (find_active_rides (registered sid userId u w) userId)
                (registered sid userId u w)) as (Hu & Hc & Hs & _).
    rewrite <- Hresult in Hu, Hc, Hs.
    assert (Hconn : connectedUsers result.1 !! userId = Some sid).
    { rewrite Hc. cbn. apply lookup_insert_eq. }
    assert (Huser : users result.1 !! userId = Some (set_presence true (clock w) u)).
    { rewrite Hu. cbn. by rewrite lookup_alter_eq, Hdoc. }
    split; [exact Hconn|]. split; [exact Huser|]. split.
    + rewrite Hs. cbn. apply lookup_insert_eq.
    + split; [by rewrite Hconn|]. eexists. split; [exact Huser|done].
  - intros Huser result.
    assert (Hresult : result
              = (close_socket sid (unregistered userId w),
                 notify_friends (unregistered userId w) userId
                   (friend_offline userId (socket_username s)))).
    { unfold result. cbn [run]. unfold handle. rewrite Hsock.
      by rewrite (on_disconnect_authenticated _ _ _ _ Huser). }
    rewrite Hresult. cbn [fst snd].
    assert (Hgone : connectedUsers (close_socket sid (unregistered userId w)) !! userId
                    = None).
    { cbn. apply lookup_delete_eq. }
    split; [exact Hgone|]. split; [cbn; apply lookup_alter_eq|].
    split; [intros [[x Hx] _]; by rewrite Hgone in Hx|].
    split; [cbn; apply lookup_delete_eq|].
    split; [intros sid' Hne; cbn; by apply lookup_delete_ne|].
    split; [done|]. split; [apply find_friends_NoDup|].
    exists (reached (unregistered userId w) userId). split; [|split].
    + apply (sublist_NoDup _ (find_friends (unregistered userId w) userId));
        [apply find_friends_NoDup|apply reached_fst_sublist].
    + intros fid friendSocket. rewrite elem_of_reached_unregistered.
      by setoid_rewrite friend_query_true.
    + apply notify_friends_reached.
Qed.

End Presence.

(** C4 fails as stated: alice is authenticated on sockets 1 and 2; closing
    socket 1 drops her mapping and marks her offline while socket 2 is
    still open. *)
Lemma closing_one_device_keeps_online_refuted : ¬ closing_one_device_keeps_online_as_stated.
Proof.
  intros Hclaim.
  destruct (Hclaim Sample.verify (Sample.server PLANNING None) 1%nat Sample.alice_socket
                   2%nat Sample.alice_socket2 "alice")
    as (_ & [[sid Hregistered] _] & _).
  - discriminate.
  - vm_compute. reflexivity.
  - reflexivity.
  - vm_compute. reflexivity.
  - reflexivity.
  - split.
    + exists 2%nat. vm_compute. reflexivity.
    + exists (User "Alice" [Friend "bob" ACCEPTED] true 100). split; [|reflexivity].
      vm_compute. reflexivity.
  - vm_compute in Hregistered. discriminate Hregistered.
Qed.

Lemma presence_single_connection_witness :
  connectedUsers (run Sample.verify (Sample.server PLANNING None)
                      (Receive 1%nat Disconnect)).1 !! "alice" = None
  ∧ sockets (run Sample.verify (Sample.server PLANNING None)
                 (Receive 1%nat Disconnect)).1 !! 2%nat
    = sockets (Sample.server PLANNING None) !! 2%nat
  ∧ Out (ToSocket 3%nat) {[3%nat]} (friend_offline "alice" "Alice")
    ∈ (run Sample.verify (Sample.server PLANNING None) (Receive 1%nat Disconnect)).2.
Proof.
  destruct (presence_single_connection Sample.verify (Sample.server PLANNING None)
              1%nat Sample.alice_socket "alice") as [_ Hclose].
  - vm_compute. reflexivity.
  - destruct Hclose as (Hgone & _ & _ & _ & Hothers & _ & _ & notified & _ & Hwho & Houts).
    + reflexivity.
    + split; [exact Hgone|]. split; [apply Hothers; discriminate|].
      rewrite Houts. apply list_elem_of_fmap. exists ("bob", 3%nat). split; [reflexivity|].
      apply Hwho. split; [discriminate|]. split; [vm_compute; reflexivity|].
      exists (User "Bob" [Friend "alice" ACCEPTED] true 100).
      split; [vm_compute; reflexivity|].
      split; exists (Friend "alice" ACCEPTED); (split; [by left|reflexivity]).
Defined.

(** C5 fails as stated: carol asks to join ["r9"], under which no ride is
    stored; the id is no ObjectId, the lookup throws, and the answer is the
    generic join failure. *)
Lemma join_unknown_id_not_found_refuted : ¬ join_unknown_id_not_found_as_stated.
Proof.
  intros Hclaim.
  specialize (Hclaim Sample.verify (Sample.server PLANNING None) 4%nat
                     Sample.carol_socket "carol" "r9").
  assert (Hanswer : handle Sample.verify (Sample.server PLANNING None) 4%nat (JoinRide "r9")
                    = (Sample.server PLANNING None,
                       [Out (ToSocket 4%nat) {[4%nat]} (error "Failed to join ride")]))
    by (vm_compute; reflexivity).
  rewrite Hanswer in Hclaim.
  assert (Hwrong : (Sample.server PLANNING None,
                    [Out (ToSocket 4%nat) {[4%nat]} (error "Failed to join ride")])
                   = (Sample.server PLANNING None,
                      [Out (ToSocket 4%nat) {[4%nat]} (error "Ride not found")])).
  { apply Hclaim.
    - vm_compute. reflexivity.
    - reflexivity.
    - intros id Hcast. vm_compute in Hcast. discriminate Hcast. }
  apply (f_equal snd) in Hwrong. cbn in Hwrong. discriminate Hwrong.
Qed.

Lemma join_ride_rejections_witness :
  handle Sample.verify
         (set_rideRooms {["64d1f0a2b3c4d5e6f7089a01" := {["carol"]}]} (Sample.server PLANNING None))
         4%nat (JoinRide "64d1f0a2b3c4d5e6f7089a01")
  = (set_rideRooms {["64d1f0a2b3c4d5e6f7089a01" := {["carol"]}]} (Sample.server PLANNING None),
     [Out (ToSocket 4%nat) {[4%nat]} (error "Not a participant of this ride")])
  ∧ handle Sample.verify
           (set_rideRooms {["64d1f0a2b3c4d5e6f7089a01" := {["carol"]}]} (Sample.server PLANNING None))
           4%nat (JoinRide "64d1f0a2b3c4d5e6f7089a09")
    = (set_rideRooms {["64d1f0a2b3c4d5e6f7089a01" := {["carol"]}]} (Sample.server PLANNING None),
       [Out (ToSocket 4%nat) {[4%nat]} (error "Ride not found")])
  ∧ handle Sample.verify
           (set_rideRooms {["64d1f0a2b3c4d5e6f7089a01" := {["carol"]}]} (Sample.server PLANNING None))
           4%nat (JoinRide "r9")
    = (set_rideRooms {["64d1f0a2b3c4d5e6f7089a01" := {["carol"]}]} (Sample.server PLANNING None),
       [Out (ToSocket 4%nat) {[4%nat]} (error "Failed to join ride")]).
Proof.
  destruct (join_ride_rejections Sample.verify (Sample.server PLANNING None) 4%nat
              Sample.carol_socket "carol" "64d1f0a2b3c4d5e6f7089a01"
              {["64d1f0a2b3c4d5e6f7089a01" := {["carol"]}]})
    as (Hreject & _ & _).
  { vm_compute. reflexivity. }
  { reflexivity. }
  destruct (join_ride_rejections Sample.verify (Sample.server PLANNING None) 4%nat
              Sample.carol_socket "carol" "64d1f0a2b3c4d5e6f7089a09"
              {["64d1f0a2b3c4d5e6f7089a01" := {["carol"]}]})
    as (_ & Hmissing & _).
  { vm_compute. reflexivity. }
  { reflexivity. }
  destruct (join_ride_rejections Sample.verify (Sample.server PLANNING None) 4%nat
              Sample.carol_socket "carol" "r9"
              {["64d1f0a2b3c4d5e6f7089a01" := {["carol"]}]})
    as (_ & _ & Hmalformed).
  { vm_compute. reflexivity. }
  { reflexivity. }
  split; [|split].
  - apply (Hreject "64d1f0a2b3c4d5e6f7089a01" (Sample.meetup PLANNING None)).
    + vm_compute. reflexivity.
    + vm_compute. reflexivity.
    + intros p Hp. apply list_elem_of_In in Hp. cbn in Hp.
      destruct Hp as [<- | [<- | []]]; discriminate.
  - apply (Hmissing "64d1f0a2b3c4d5e6f7089a09").
    + vm_compute. reflexivity.
    + vm_compute. reflexivity.
  - apply Hmalformed. vm_compute. reflexivity.
Defined.

Lemma join_ride_idempotent_witness :
  (handle Sample.verify
          (handle Sample.verify (Sample.server PLANNING None) 2%nat
                  (JoinRide "64d1f0a2b3c4d5e6f7089a01")).1
          2%nat (JoinRide "64d1f0a2b3c4d5e6f7089a01")).1
  = (handle Sample.verify (Sample.server PLANNING None) 2%nat
            (JoinRide "64d1f0a2b3c4d5e6f7089a01")).1.
Proof.
  refine (proj1 (proj2 (proj2 (join_ride_idempotent Sample.verify (Sample.server PLANNING None)
                                 2%nat Sample.alice_socket2 "alice"
                                 "64d1f0a2b3c4d5e6f7089a01" "64d1f0a2b3c4d5e6f7089a01"
                                 (Sample.meetup PLANNING None) _ _ _ _ _)))).
  - vm_compute. reflexivity.
  - reflexivity.
  - vm_compute. reflexivity.
  - vm_compute. reflexivity.
  - reflexivity.
Defined.

Lemma typing_without_payload_throws_witness :
  listen Sample.verify (Sample.server ACTIVE None) 5%nat (Bare typing) = Thrown
  ∧ (listen Sample.verify (Sample.server ACTIVE None) 5%nat (Bare join_ride)
     = Returned (Sample.server ACTIVE None, [])
     ∨ ∃ message,
         listen Sample.verify (Sample.server ACTIVE None) 5%nat (Bare join_ride)
         = Returned (Sample.server ACTIVE None,
                     [Out (ToSocket 5%nat) {[5%nat]} (error message)])).
Proof.
  destruct (typing_without_payload_throws Sample.verify (Sample.server ACTIVE None)
              5%nat (Socket None None)) as [Hthrown Hothers].
  - vm_compute. reflexivity.
  - reflexivity.
  - split; [exact Hthrown|].
    apply Hothers; [discriminate | discriminate | intros token; discriminate].
Defined.

Lemma membership_pruned_witness :
  rideRooms Demo.convoy !! "64d1f0a2b3c4d5e6f7089a01" = Some {["alice"; "bob"]}
  ∧ rideRooms Demo.convoy !! "64d1f0a2b3c4d5e6f7089a02" = Some {["bob"]}
  ∧ rideRooms Demo.convoy !! "64d1f0a2b3c4d5e6f7089a03" = Some {["bob"; "carol"]}
  ∧ rideRooms (run Sample.verify Demo.convoy (Receive 3%nat Disconnect)).1
      !! "64d1f0a2b3c4d5e6f7089a01" = Some {["alice"]}
  ∧ rideRooms (run Sample.verify Demo.convoy (Receive 3%nat Disconnect)).1
      !! "64d1f0a2b3c4d5e6f7089a02" = None
  ∧ rideRooms (run Sample.verify Demo.convoy (Receive 3%nat Disconnect)).1
      !! "64d1f0a2b3c4d5e6f7089a03" = Some {["carol"]}
  ∧ rideRooms (handle Sample.verify Demo.convoy 3%nat (LeaveRide "64d1f0a2b3c4d5e6f7089a01")).1
      !! "64d1f0a2b3c4d5e6f7089a01" = Some {["alice"]}
  ∧ rideRooms (handle Sample.verify Demo.convoy 3%nat (LeaveRide "64d1f0a2b3c4d5e6f7089a01")).1
      !! "64d1f0a2b3c4d5e6f7089a03" = Some {["bob"; "carol"]}
  ∧ rooms_nonempty (rideRooms Demo.convoy).
Proof.
  assert (Hfirst : rideRooms Demo.convoy !! "64d1f0a2b3c4d5e6f7089a01" = Some {["alice"; "bob"]})
    by (vm_compute; reflexivity).
  assert (Hsecond : rideRooms Demo.convoy !! "64d1f0a2b3c4d5e6f7089a02" = Some {["bob"]})
    by (vm_compute; reflexivity).
  assert (Hthird : rideRooms Demo.convoy !! "64d1f0a2b3c4d5e6f7089a03" = Some {["bob"; "carol"]})
    by (vm_compute; reflexivity).
  destruct (membership_pruned Sample.verify Demo.convoy 3%nat Sample.bob_socket "bob")
    as (_ & Hemptied & _ & _ & Hreach & Hkept & Hleft & _ & Hothers).
  - vm_compute. reflexivity.
  - reflexivity.
  - split; [exact Hfirst|]. split; [exact Hsecond|]. split; [exact Hthird|].
    split; [|split; [|split; [|split; [|split]]]].
    + rewrite (Hkept _ _ Hfirst).
      * vm_compute. reflexivity.
      * intros Hnone. vm_compute in Hnone. discriminate Hnone.
    + apply (Hemptied _ _ Hsecond). vm_compute. reflexivity.
    + rewrite (Hkept _ _ Hthird).
      * vm_compute. reflexivity.
      * intros Hnone. vm_compute in Hnone. discriminate Hnone.
    + rewrite (Hleft _ _ Hfirst).
      * vm_compute. reflexivity.
      * intros Hnone. vm_compute in Hnone. discriminate Hnone.
    + rewrite (Hothers "64d1f0a2b3c4d5e6f7089a01" "64d1f0a2b3c4d5e6f7089a03") by discriminate. exact Hthird.
    + apply Hreach.
      exists Sample.people,
             (<["64d1f0a2b3c4d5e6f7089a01" := Sample.meetup PLANNING None]>
                (<["64d1f0a2b3c4d5e6f7089a02" := Demo.solo]> (<["64d1f0a2b3c4d5e6f7089a03" := Demo.pair]> ∅))),
             100,
             [Connect 1%nat; Connect 3%nat; Connect 4%nat;
              Receive 1%nat (Authenticate (Some "token-alice"));
              Receive 3%nat (Authenticate (Some "token-bob"));
              Receive 4%nat (Authenticate (Some "token-carol"));
              Receive 1%nat (JoinRide "64d1f0a2b3c4d5e6f7089a01");
              Receive 3%nat (JoinRide "64d1f0a2b3c4d5e6f7089a01");
              Receive 3%nat (JoinRide "64d1f0a2b3c4d5e6f7089a02");
              Receive 3%nat (JoinRide "64d1f0a2b3c4d5e6f7089a03");
              Receive 4%nat (JoinRide "64d1f0a2b3c4d5e6f7089a03")].
      reflexivity.
Defined.

(* ===================================================================== *)
(** ** Authentication: refusals and the rejoined rooms                     *)
(* ===================================================================== *)

Lemma existsb_is_user userId (ps : list participant) :
  existsb (is_user userId) ps = true ↔ ∃ p, p ∈ ps ∧ p_user p = userId.
Proof.
  rewrite existsb_exists. split.
  - intros (p & Hp & Huser). exists p. split; [by apply list_elem_of_In|].
    unfold is_user in Huser. by apply bool_decide_eq_true in Huser.
  - intros (p & Hp & Huser). exists p. split; [by apply list_elem_of_In|].
    unfold is_user. by apply bool_decide_eq_true.
Qed.

Lemma elem_of_find_active_rides w userId rideId :
  rideId ∈ find_active_rides w userId
  ↔ ∃ r, rides w !! rideId = Some r ∧ status r = ACTIVE
         ∧ ∃ p, p ∈ participants r ∧ p_user p = userId.
Proof.
  unfold find_active_rides. rewrite list_elem_of_fmap. split.
  - intros ([rid r] & -> & Hin). apply list_elem_of_In, List.filter_In in Hin as [Hin Hkeep].
    apply list_elem_of_In, elem_of_map_to_list in Hin. cbn in *.
    apply andb_true_iff in Hkeep as [Hpart Hactive].
    exists r. split; [done|]. split; [by apply bool_decide_eq_true in Hactive|].
    by apply existsb_is_user.
  - intros (r & Hride & Hactive & Hpart). exists (rideId, r). split; [done|].
    apply list_elem_of_In, List.filter_In. split.
    + by apply list_elem_of_In, elem_of_map_to_list.
    + cbn. apply andb_true_iff. split; [by apply existsb_is_user|].
      by apply bool_decide_eq_true.
Qed.

Lemma rehydrate_rideRooms sid userId rideIds w rideId :
  rideRooms (fold_left (rehydrate_one sid userId) rideIds w) !! rideId
  = if decide (rideId ∈ rideIds)
    then Some ({[userId]} ∪ default ∅ (rideRooms w !! rideId))
    else rideRooms w !! rideId.
Proof.
  revert w. induction rideIds as [|a rideIds IH]; intros w.
  - rewrite decide_False; [done|]. apply not_elem_of_nil.
  - cbn [fold_left]. rewrite IH.
    assert (Hstep : rideRooms (rehydrate_one sid userId w a) !! rideId
                    = if decide (a = rideId)
                      then Some ({[userId]} ∪ default ∅ (rideRooms w !! rideId))
                      else rideRooms w !! rideId).
    { unfold rehydrate_one. cbn [rideRooms set_rideRooms socket_join set_rooms].
      rewrite rideRooms_add_insert, lookup_insert.
      destruct (decide (a = rideId)) as [->|Hne]; done. }
    rewrite Hstep. clear Hstep IH.
    destruct (decide (rideId ∈ a :: rideIds)) as [Hcons|Hcons],
             (decide (rideId ∈ rideIds)) as [Hin|Hnot],
             (decide (a = rideId)) as [->|Hne]; cbn; try done.
    all: try by rewrite (assoc_L (∪)), union_idemp_L.
    all: try (apply elem_of_cons in Hcons as [?|?]; by subst).
    all: destruct Hcons; first [by left | by right].
Qed.

Lemma rehydrate_room_members sid userId rideIds w room :
  room_members (fold_left (rehydrate_one sid userId) rideIds w) room
  = if decide (room ∈ room_of <$> rideIds)
    then {[sid]} ∪ room_members w room
    else room_members w room.
Proof.
  revert w. induction rideIds as [|a rideIds IH]; intros w.
  - rewrite decide_False; [done|]. apply not_elem_of_nil.
  - cbn [fold_left]. rewrite IH.
    assert (Hstep : room_members (rehydrate_one sid userId w a) room
                    = if decide (room_of a = room)
                      then {[sid]} ∪ room_members w room
                      else room_members w room).
    { unfold rehydrate_one, socket_join, room_members.
      cbn [rooms set_rideRooms set_rooms]. rewrite lookup_insert.
      destruct (decide (room_of a = room)) as [<-|Hne]; done. }
    rewrite Hstep. clear Hstep IH. rewrite fmap_cons.
    destruct (decide (room ∈ room_of a :: (room_of <$> rideIds))) as [Hcons|Hcons],
             (decide (room ∈ room_of <$> rideIds)) as [Hin|Hnot],
             (decide (room_of a = room)) as [<-|Hne];
      try done.
    all: try by rewrite (assoc_L (∪)), union_idemp_L.
    all: try (apply elem_of_cons in Hcons as [?|?]; by subst).
    all: destruct Hcons; first [by left | by right].
Qed.

Lemma notify_friends_events w userId e o :
  o ∈ notify_friends w userId e →
  o_event o = e ∧ ∃ fid friendSocket,
     fid ∈ find_friends w userId ∧ connectedUsers w !! fid = Some friendSocket
     ∧ o_target o = ToSocket friendSocket ∧ o_recipients o = {[friendSocket]}.
Proof.
  unfold notify_friends. intros (fid & Hfid & Hout)%list_elem_of_omap.
  destruct (connectedUsers w !! fid) as [fs|] eqn:Hfs; [|done].
  cbn in Hout. injection Hout as <-. split; [done|]. by exists fid, fs.
Qed.

Section Authentication.
Variable jwt_verify : string → option string.

(** X1. [authenticate] with no token, an empty token, a token that fails
    verification, or a token naming no stored user changes nothing and
    answers the sender alone with one [auth_error]; in particular a
    connection that had authenticated before keeps its identity. *)
Theorem authenticate_rejections (w : World) (sid : nat) (s : socket)
    (token : option string) :
  sockets w !! sid = Some s →
  (token = None ∨ token = Some ""
   ∨ ∃ tok, token = Some tok
       ∧ (jwt_verify tok = None
          ∨ ∃ decoded, jwt_verify tok = Some decoded ∧ users w !! decoded = None)) →
  ∃ message,
    handle jwt_verify w sid (Authenticate token)
    = (w, [Out (ToSocket sid) {[sid]} (auth_error message)])
    ∧ message ∈ ["No token provided"; "Authentication failed"; "Invalid token"].
Proof.
  intros Hsock Hbad. unfold handle. rewrite Hsock. unfold on_authenticate.
  destruct Hbad as [-> | [-> | (tok & -> & Hbad)]].
  - eexists. split; [done|]. rewrite !elem_of_cons. auto.
  - eexists. split; [done|]. rewrite !elem_of_cons. auto.
  - destruct tok as [|c tok].
    { eexists. split; [done|]. rewrite !elem_of_cons. auto. }
    destruct Hbad as [-> | (decoded & -> & ->)];
      eexists; (split; [done|]); rewrite !elem_of_cons; auto.
Qed.

(** X2. A successful [authenticate] puts the identity into the membership
    set, and the socket into the delivery group, of every stored ride that
    is [ACTIVE] and lists the identity as a participant, whatever the
    participant's status; the membership of every other ride is as before;
    the first event emitted is the [authenticated] acknowledgement to the
    sender listing exactly those rides, and every further event is a
    [friend_online] to a single registered socket. *)
Theorem authenticate_rehydrates (w : World) (sid : nat) (s : socket)
    (c : Ascii.ascii) (tok userId : string) (u : user) :
  sockets w !! sid = Some s →
  jwt_verify (String c tok) = Some userId →
  users w !! userId = Some u →
  let result := handle jwt_verify w sid (Authenticate (Some (String c tok))) in
  (∀ rideId r, rides w !! rideId = Some r → status r = ACTIVE →
      (∃ p, p ∈ participants r ∧ p_user p = userId) →
      userId ∈ default ∅ (rideRooms result.1 !! rideId)
      ∧ sid ∈ room_members result.1 (room_of rideId))
  ∧ (∀ rideId, rideId ∉ find_active_rides w userId →
      rideRooms result.1 !! rideId = rideRooms w !! rideId)
  ∧ rides result.1 = rides w
  ∧ ∃ notices,
      result.2 = Out (ToSocket sid) {[sid]}
                     (authenticated userId (username u) (find_active_rides w userId))
                 :: notices
      ∧ ∀ o, o ∈ notices →
          o_event o = friend_online userId (username u)
          ∧ ∃ friendSocket, o_target o = ToSocket friendSocket
                            ∧ o_recipients o = {[friendSocket]}.
Proof.
  intros Hsock Hverify Hdoc result.
  assert (Hresult : result
            = (fold_left (rehydrate_one sid userId) (find_active_rides w userId)
                 (registered sid userId u w),
               emit (fold_left (rehydrate_one sid userId) (find_active_rides w userId)
                       (registered sid userId u w))
                    (ToSocket sid)
                    (authenticated userId (username u) (find_active_rides w userId))
               :: notify_friends
                    (fold_left (rehydrate_one sid userId) (find_active_rides w userId)
                       (registered sid userId u w))
                    userId (friend_online userId (username u)))).
  { unfold result, handle. rewrite Hsock. unfold on_authenticate.
    by rewrite Hverify, Hdoc. }
  rewrite Hresult. cbn [fst snd].
  split; [|split; [|split]].
  - intros rideId r Hride Hactive Hpart.
    assert (Hin : rideId ∈ find_active_rides w userId).
    { apply elem_of_find_active_rides. eauto. }
    split.
    + rewrite rehydrate_rideRooms, decide_True by done. cbn.
      apply elem_of_union_l, elem_of_singleton. done.
    + rewrite rehydrate_room_members, decide_True.
      * apply elem_of_union_l, elem_of_singleton. done.
      * by apply list_elem_of_fmap_2.
  - intros rideId Hnot. by rewrite rehydrate_rideRooms, decide_False.
  - assert (Hgen : ∀ ids w0, rides (fold_left (rehydrate_one sid userId) ids w0) = rides w0).
    { induction ids as [|a ids IH]; intros w0; [done|]. cbn [fold_left]. by rewrite IH. }
    by rewrite Hgen.
  - eexists. split; [done|].
    intros o (-> & fid & fs & _ & _ & -> & ->)%notify_friends_events. eauto.
Qed.

End Authentication.

(* ===================================================================== *)
(** ** Rooms: leaving, and what no handler touches                         *)
(* ===================================================================== *)

Lemma set_rooms_same w : set_rooms (rooms w) w = w.
Proof. by destruct w. Qed.

Lemma set_rideRooms_same w : set_rideRooms (rideRooms w) w = w.
Proof. by destruct w. Qed.

Lemma rideRooms_leave_not_member rideId userId (rr : gmap string (gset string)) :
  rr !! rideId ≠ Some ∅ →
  userId ∉ default ∅ (rr !! rideId) →
  rideRooms_leave rideId userId rr = rr.
Proof.
  intros Hne Hnot. unfold rideRooms_leave.
  destruct (rr !! rideId) as [members|] eqn:Hrr; [|done]. cbn in Hnot.
  assert (Hsame : members ∖ {[userId]} = members).
  { apply set_eq. intros x. rewrite elem_of_difference, elem_of_singleton.
    split; [by intros [? _]|]. intros Hx. split; [done|]. by intros ->. }
  unfold prune_member. rewrite Hsame. case_decide as Hsize.
  - destruct Hne. f_equal. by apply leibniz_equiv, size_empty_iff.
  - by apply insert_id.
Qed.

Lemma rideRooms_leave_add rideId userId (rr : gmap string (gset string)) :
  rr !! rideId ≠ Some ∅ →
  userId ∉ default ∅ (rr !! rideId) →
  rideRooms_leave rideId userId (rideRooms_add rideId userId rr) = rr.
Proof.
  intros Hne Hnot. rewrite rideRooms_add_insert. unfold rideRooms_leave.
  rewrite lookup_insert_eq.
  assert (Hback : ({[userId]} ∪ default ∅ (rr !! rideId)) ∖ {[userId]}
                  = default ∅ (rr !! rideId)).
  { apply set_eq. intros x. rewrite elem_of_difference, elem_of_union, elem_of_singleton.
    split; [by intros [[->|?] ?]|]. intros Hx. split; [by right|]. by intros ->. }
  unfold prune_member. rewrite Hback.
  destruct (rr !! rideId) as [members|] eqn:Hrr; cbn.
  - case_decide as Hsize.
    + destruct Hne. f_equal. by apply leibniz_equiv, size_empty_iff.
    + rewrite insert_insert_eq. by apply insert_id.
  - rewrite decide_True by apply size_empty. by apply delete_insert_id.
Qed.

Lemma socket_leave_not_member sid room w :
  rooms w !! room ≠ Some ∅ →
  sid ∉ room_members w room →
  socket_leave sid room w = w.
Proof.
  intros Hne Hnot. unfold socket_leave.
  assert (Hsame : room_members w room ∖ {[sid]} = room_members w room).
  { apply set_eq. intros x. rewrite elem_of_difference, elem_of_singleton.
    split; [by intros [? _]|]. intros Hx. split; [done|]. by intros ->. }
  rewrite Hsame. unfold room_members in *.
  destruct (rooms w !! room) as [members|] eqn:Hroom; cbn.
  - case_decide as Hempty; [by subst|]. rewrite insert_id by done. apply set_rooms_same.
  - rewrite decide_True by done. rewrite delete_id by done. apply set_rooms_same.
Qed.

Lemma socket_leave_join sid room w :
  rooms w !! room ≠ Some ∅ →
  sid ∉ room_members w room →
  socket_leave sid room (socket_join sid room w) = w.
Proof.
  intros Hne Hnot. unfold socket_leave, socket_join, room_members in *.
  cbn [rooms set_rooms]. rewrite lookup_insert_eq. cbn [default from_option id].
  assert (Hback : ({[sid]} ∪ default ∅ (rooms w !! room)) ∖ {[sid]}
                  = default ∅ (rooms w !! room)).
  { apply set_eq. intros x. rewrite elem_of_difference, elem_of_union, elem_of_singleton.
    split; [by intros [[->|?] ?]|]. intros Hx. split; [by right|]. by intros ->. }
  rewrite Hback.
  destruct (rooms w !! room) as [members|] eqn:Hroom; cbn.
  - case_decide as Hempty; [by subst|].
    rewrite insert_insert_eq, insert_id by done. by destruct w.
  - rewrite decide_True by done. rewrite delete_insert_id by done. by destruct w.
Qed.

Lemma update_found_roster userId f (ps : list participant) :
  (∀ p, p_user (f p) = p_user p ∧ p_status (f p) = p_status p) →
  roster_of (update_found userId f ps) = roster_of ps.
Proof.
  intros Hf. unfold roster_of. induction ps as [|p ps IH]; [done|]. cbn.
  destruct (is_user userId p); cbn.
  - by destruct (Hf p) as [-> ->].
  - by rewrite IH.
Qed.

Lemma rehydrate_keeps_rides sid userId rideIds w :
  rides (fold_left (rehydrate_one sid userId) rideIds w) = rides w.
Proof.
  revert w. induction rideIds as [|a rideIds IH]; intros w; [done|].
  cbn [fold_left]. by rewrite IH.
Qed.

Section Untouched.
Variable jwt_verify : string → option string.

(** X3. Joining a ride's room and then leaving it restores the world,
    when the id names a stored ride, the caller is one of its participants
    and was not in the room before (and no room is kept with an
    empty set, as in every world the server reaches). *)
Theorem join_then_leave_restores (w : World) (sid : nat) (s : socket)
    (userId rideId id : string) (r : ride) :
  sockets w !! sid = Some s →
  s_userId s = Some userId →
  castObjectId rideId = Some id →
  rides w !! id = Some r →
  existsb (is_user userId) (participants r) = true →
  rideRooms w !! rideId ≠ Some ∅ →
  rooms w !! room_of rideId ≠ Some ∅ →
  userId ∉ default ∅ (rideRooms w !! rideId) →
  sid ∉ room_members w (room_of rideId) →
  (handle jwt_verify (handle jwt_verify w sid (JoinRide rideId)).1 sid (LeaveRide rideId)).1
  = w.
Proof.
  intros Hsock Huser Hcast Hride Hpart Hrr Hroom Hnot Hout.
  assert (Hjoin : handle jwt_verify w sid (JoinRide rideId)
                  = on_join_ride w sid s rideId).
  { unfold handle. by rewrite Hsock. }
  rewrite Hjoin, (on_join_ride_accepts _ _ _ _ _ _ _ Huser Hcast Hride Hpart). cbn [fst].
  unfold handle. cbn [sockets joined socket_join set_rooms set_rideRooms]. rewrite Hsock.
  unfold on_leave_ride. rewrite Huser. cbn [fst].
  unfold joined.
  change (socket_leave sid (room_of rideId) (set_rideRooms ?x ?v))
    with (set_rideRooms x (socket_leave sid (room_of rideId) v)).
  rewrite socket_leave_join by done. cbn [rideRooms set_rideRooms socket_join set_rooms].
  rewrite rideRooms_leave_add by done. by destruct w.
Qed.

(** X4. [leave_ride] checks neither that the ride exists nor that the
    caller is in its room: for a caller who is not, the world is unchanged,
    yet the caller is answered [left_ride] and the sockets of the room are
    told [participant_left]. *)
Theorem leave_ride_not_member (w : World) (sid : nat) (s : socket)
    (userId rideId : string) :
  sockets w !! sid = Some s →
  s_userId s = Some userId →
  rideRooms w !! rideId ≠ Some ∅ →
  rooms w !! room_of rideId ≠ Some ∅ →
  userId ∉ default ∅ (rideRooms w !! rideId) →
  sid ∉ room_members w (room_of rideId) →
  handle jwt_verify w sid (LeaveRide rideId)
  = (w, [Out (ToSocket sid) {[sid]} (left_ride rideId);
         Out (ToRoomExcept (room_of rideId) sid) (room_members w (room_of rideId) ∖ {[sid]})
             (participant_left userId (socket_username s))]).
Proof.
  intros Hsock Huser Hrr Hroom Hnot Hout.
  unfold handle. rewrite Hsock. unfold on_leave_ride. rewrite Huser.
  rewrite socket_leave_not_member by done.
  rewrite rideRooms_leave_not_member by done.
  by rewrite set_rideRooms_same.
Qed.

(** X5. Only [authenticate] writes a socket's identity, and only that of
    the socket it arrives on: every other connection's record, and the
    sender's own under any other event, is the same after the handler. *)
Theorem handlers_keep_identities (w : World) (sid sid' : nat) (ev : inbound)
    (s' : socket) :
  sockets w !! sid' = Some s' →
  sid' ≠ sid ∨ (∀ token, ev ≠ Authenticate token) →
  sockets (handle jwt_verify w sid ev).1 !! sid' = Some s'.
Proof.
  intros Hsock' Hother. unfold handle.
  destruct (sockets w !! sid) as [s|] eqn:Hsock; [|done].
  destruct ev as [token| rideId | rideId | rideId loc | rideId msg type ts
                 | rideId | rideId | rideId flag | ].
  - destruct Hother as [Hne | Hev]; [|by destruct (Hev token)].
    unfold on_authenticate.
    destruct token as [[|c tok]|]; [done| |done].
    destruct (jwt_verify _) as [decoded|]; [|done].
    destruct (users w !! decoded) as [u|]; [|done]. cbn [fst].
    destruct (rehydrate_keeps_presence sid decoded
                (find_active_rides (registered sid decoded u w) decoded)
                (registered sid decoded u w)) as (_ & _ & Hs & _).
    unfold registered in Hs. cbn zeta in Hs. rewrite Hs. cbn.
    by rewrite lookup_insert_ne.
  - unfold on_join_ride. destruct (s_userId s); [|done].
    destruct (castObjectId rideId) as [id|]; [|done].
    destruct (rides w !! id); [|done]. by destruct (negb _).
  - unfold on_leave_ride. by destruct (s_userId s).
  - unfold on_update_location. destruct (s_userId s); [|done].
    by destruct (rides w !! rideId).
  - unfold on_send_message. destruct (s_userId s); [|done].
    destruct (rides w !! rideId); [|done]. by destruct (addChatMessage _ _ _ _ _).
  - unfold on_start_ride. destruct (s_userId s); [|done].
    destruct (rides w !! rideId); [|done]. by destruct (negb _).
  - unfold on_end_ride. destruct (s_userId s); [|done].
    destruct (rides w !! rideId); [|done]. by destruct (negb _).
  - unfold on_typing. by destruct (s_userId s).
  - unfold on_disconnect. by destruct (s_userId s).
Qed.

(** X6. No socket event deletes a ride or changes who takes part in it: for
    every stored ride the organizer and the list of participants' identities
    and statuses are the same after any handler.  In particular [join_ride]
    does not mark a participant [JOINED] and [leave_ride] does not mark one
    [LEFT]. *)
Theorem handlers_keep_roster (w : World) (sid : nat) (ev : inbound)
    (rideId : string) (r : ride) :
  rides w !! rideId = Some r →
  ∃ r', rides (handle jwt_verify w sid ev).1 !! rideId = Some r'
        ∧ organizer r' = organizer r
        ∧ roster_of (participants r') = roster_of (participants r).
Proof.
  intros Hride. unfold handle.
  destruct (sockets w !! sid) as [s|] eqn:Hsock; [|by exists r].
  destruct ev as [token| rid | rid | rid loc | rid msg type ts
                 | rid | rid | rid flag | ].
  - unfold on_authenticate.
    destruct token as [[|c tok]|]; [by exists r| |by exists r].
    destruct (jwt_verify _) as [decoded|]; [|by exists r].
    destruct (users w !! decoded) as [u|]; [|by exists r].
    cbn [fst]. rewrite rehydrate_keeps_rides. by exists r.
  - unfold on_join_ride. destruct (s_userId s); [|by exists r].
    destruct (castObjectId rid) as [id|]; [|by exists r].
    destruct (rides w !! id); [|by exists r]. destruct (negb _); by exists r.
  - unfold on_leave_ride. destruct (s_userId s); by exists r.
  - unfold on_update_location. destruct (s_userId s) as [userId|]; [|by exists r].
    destruct (rides w !! rid) as [r0|] eqn:Hr0; [|by exists r].
    cbn [fst rides set_rides].
    destruct (decide (rid = rideId)) as [->|Hne]; [|rewrite lookup_insert_ne by done; by exists r].
    rewrite lookup_insert_eq. eexists. split; [done|].
    assert (r0 = r) as -> by congruence.
    unfold updateParticipantLocation.
    match goal with |- context [ride_pre_save ?x] =>
      destruct (ride_pre_save_fields x) as (_ & -> & _ & _ & -> & _) end.
    split; [done|]. cbn. by apply update_found_roster.
  - unfold on_send_message. destruct (s_userId s) as [userId|]; [|by exists r].
    destruct (rides w !! rid) as [r0|] eqn:Hr0; [|by exists r].
    unfold addChatMessage. destruct (chat_entry_valid _); [|by exists r].
    cbn [fst rides set_rides].
    destruct (decide (rid = rideId)) as [->|Hne]; [|rewrite lookup_insert_ne by done; by exists r].
    rewrite lookup_insert_eq. eexists. split; [done|].
    assert (r0 = r) as -> by congruence.
    match goal with |- context [ride_pre_save ?x] =>
      destruct (ride_pre_save_fields x) as (_ & -> & _ & _ & -> & _) end.
    done.
  - unfold on_start_ride. destruct (s_userId s) as [userId|]; [|by exists r].
    destruct (rides w !! rid) as [r0|] eqn:Hr0; [|by exists r].
    destruct (negb _); [by exists r|].
    cbn [fst rides set_rides].
    destruct (decide (rid = rideId)) as [->|Hne]; [|rewrite lookup_insert_ne by done; by exists r].
    rewrite lookup_insert_eq. eexists. split; [done|].
    assert (r0 = r) as -> by congruence.
    by destruct (startRide_fields (clock w) r) as (_ & _ & -> & _ & -> & _).
  - unfold on_end_ride. destruct (s_userId s) as [userId|]; [|by exists r].
    destruct (rides w !! rid) as [r0|] eqn:Hr0; [|by exists r].
    destruct (negb _); [by exists r|].
    cbn [fst rides set_rides].
    destruct (decide (rid = rideId)) as [->|Hne]; [|rewrite lookup_insert_ne by done; by exists r].
    rewrite lookup_insert_eq. eexists. split; [done|].
    assert (r0 = r) as -> by congruence.
    by destruct (endRide_fields (clock w) r) as (_ & _ & _ & -> & _ & -> & _).
  - unfold on_typing. destruct (s_userId s); by exists r.
  - unfold on_disconnect. destruct (s_userId s); by exists r.
Qed.

(** X7. When the organizer starts a ride and later ends it, the stored ride
    is [COMPLETED] with the two server times as its start and end, its
    duration statistic and its [duration] virtual are their difference, and
    [ride_ended] carries that end time and duration. *)
Theorem start_then_end_duration (w : World) (sid : nat) (s : socket)
    (rideId : string) (r : ride) (later : Z) :
  sockets w !! sid = Some s →
  s_userId s = Some (organizer r) →
  rides w !! rideId = Some r →
  let started := handle jwt_verify w sid (StartRide rideId) in
  let ended := handle jwt_verify (set_clock later started.1) sid (EndRide rideId) in
  (∃ r2, rides ended.1 !! rideId = Some r2
         ∧ status r2 = COMPLETED ∧ startTime r2 = clock w ∧ endTime r2 = Some later
         ∧ stats_duration r2 = later - clock w
         ∧ duration r2 = Some (later - clock w))
  ∧ ended.2 = [Out (ToRoom (room_of rideId)) (room_members w (room_of rideId))
                   (ride_ended rideId (Some later) (later - clock w))].
Proof.
  intros Hsock Huser Hride started ended.
  assert (Hstarted : started = on_start_ride w sid s rideId).
  { unfold started, handle. by rewrite Hsock. }
  rewrite (on_start_ride_organizer _ _ _ _ _ Huser Hride) in Hstarted.
  pose proof (startRide_fields (clock w) r) as (_ & Hstart & Horg & _).
  assert (Hended : ended = on_end_ride (set_clock later started.1) sid s rideId).
  { unfold ended, handle. rewrite Hstarted. cbn. by rewrite Hsock. }
  rewrite (on_end_ride_organizer _ _ _ _ (startRide (clock w) r)) in Hended; cycle 1.
  { by rewrite Horg. }
  { rewrite Hstarted. cbn. by rewrite lookup_insert_eq. }
  rewrite Hended, Hstarted. cbn [fst snd rides set_rides set_clock clock].
  pose proof (endRide_fields later (startRide (clock w) r))
    as (Hst & Hend & Hdur & _ & Hkeep & _).
  split.
  - eexists. rewrite lookup_insert_eq. split; [done|].
    unfold duration. rewrite Hst, Hend, Hdur, Hkeep, Hstart. done.
  - by rewrite Hstart.
Qed.

End Untouched.

Section Reauthentication.
Variable jwt_verify : string → option string.

(** What a successful [authenticate] leaves in the presence maps. *)
Lemma authenticate_presence w sid s c tok userId u :
  sockets w !! sid = Some s →
  jwt_verify (String c tok) = Some userId →
  users w !! userId = Some u →
  let w' := (handle jwt_verify w sid (Authenticate (Some (String c tok)))).1 in
  users w' = alter (set_presence true (clock w)) userId (users w)
  ∧ connectedUsers w' = <[userId := sid]> (connectedUsers w)
  ∧ sockets w' = <[sid := Socket (Some userId) (Some u)]> (sockets w)
  ∧ clock w' = clock w.
Proof.
  intros Hsock Hverify Hdoc w'.
  assert (Hw' : w' = fold_left (rehydrate_one sid userId)
                       (find_active_rides (registered sid userId u w) userId)
                       (registered sid userId u w)).
  { unfold w', handle. rewrite Hsock. by apply on_authenticate_accepts. }
  rewrite Hw'.
  by destruct (rehydrate_keeps_presence sid userId
                 (find_active_rides (registered sid userId u w) userId)
                 (registered sid userId u w)) as (-> & -> & -> & ->).
Qed.

(** X8. A connection that authenticates as one identity and then as
    another is registered under both, and its disconnect unregisters only
    the second: the first identity stays mapped to the closed connection and
    stays marked online. *)
Theorem reauthentication_leaves_stale_entry (w : World) (sid : nat) (s : socket)
    (c1 c2 : Ascii.ascii) (tok1 tok2 first second : string) (u1 u2 : user) :
  sockets w !! sid = Some s →
  jwt_verify (String c1 tok1) = Some first →
  jwt_verify (String c2 tok2) = Some second →
  first ≠ second →
  users w !! first = Some u1 →
  users w !! second = Some u2 →
  let w1 := (handle jwt_verify w sid (Authenticate (Some (String c1 tok1)))).1 in
  let w2 := (handle jwt_verify w1 sid (Authenticate (Some (String c2 tok2)))).1 in
  let w3 := (run jwt_verify w2 (Receive sid Disconnect)).1 in
  sockets w3 !! sid = None
  ∧ connectedUsers w3 !! second = None
  ∧ connectedUsers w3 !! first = Some sid
  ∧ users w3 !! first = Some (set_presence true (clock w) u1).
Proof.
  intros Hsock Hv1 Hv2 Hne Hu1 Hu2 w1 w2 w3.
  destruct (authenticate_presence w sid s c1 tok1 first u1 Hsock Hv1 Hu1)
    as (Husers1 & Hconn1 & Hsock1 & Hclock1).
  fold w1 in Husers1, Hconn1, Hsock1, Hclock1.
  assert (Hsid1 : sockets w1 !! sid = Some (Socket (Some first) (Some u1))).
  { rewrite Hsock1. apply lookup_insert_eq. }
  assert (Hu2' : users w1 !! second = Some u2).
  { rewrite Husers1, lookup_alter_ne; done. }
  destruct (authenticate_presence w1 sid _ c2 tok2 second u2 Hsid1 Hv2 Hu2')
    as (Husers2 & Hconn2 & Hsock2 & Hclock2).
  fold w2 in Husers2, Hconn2, Hsock2, Hclock2.
  assert (Hsid2 : sockets w2 !! sid = Some (Socket (Some second) (Some u2))).
  { rewrite Hsock2. apply lookup_insert_eq. }
  assert (Hw3 : w3 = close_socket sid (unregistered second w2)).
  { unfold w3. cbn [run]. unfold handle. rewrite Hsid2.
    by rewrite (on_disconnect_authenticated _ _ _ second). }
  rewrite Hw3. cbn.
  split; [apply lookup_delete_eq|]. split; [apply lookup_delete_eq|]. split.
  - rewrite lookup_delete_ne by done. rewrite Hconn2, lookup_insert_ne by done.
    rewrite Hconn1. apply lookup_insert_eq.
  - rewrite lookup_alter_ne by done. rewrite Husers2, lookup_alter_ne by done.
    rewrite Husers1, lookup_alter_eq, Hu1. done.
Qed.

End Reauthentication.

(* ===================================================================== *)
(** ** The Car pre-save hook: which photo stays primary                    *)
(* ===================================================================== *)

Section CarHook.
Import Car.

(** X9. The pre-save hook keeps the first primary photo and clears the flag
    of every later one, leaving the photos before it, the order, and every
    field other than the flag as they were; a car with no primary photo is
    stored unchanged (the hook never promotes a photo); and running the hook
    on its own result changes nothing. *)
Theorem pre_save_keeps_first_primary (c : car) :
  (∀ before p after,
      photos c = before ++ p :: after →
      (∀ q, q ∈ before → isPrimary q = false) →
      isPrimary p = true →
      photos (pre_save c) = before ++ p :: map (set_isPrimary false) after)
  ∧ ((∀ q, q ∈ photos c → isPrimary q = false) → pre_save c = c)
  ∧ owner (pre_save c) = owner c
  ∧ map (set_isPrimary false) (photos (pre_save c)) = map (set_isPrimary false) (photos c)
  ∧ pre_save (pre_save c) = pre_save c.
Proof.
  assert (Hflags : ∀ found ps,
             map (set_isPrimary false) (keep_first_primary found ps)
             = map (set_isPrimary false) ps).
  { intros found ps. revert found. induction ps as [|p ps IH]; intros found; [done|].
    cbn. destruct (isPrimary p && negb found); [cbn; by rewrite IH|].
    destruct (isPrimary p); cbn; by rewrite IH. }
  split; [|split; [|split; [|split]]].
  - intros before p after Heq Hbefore Hp.
    rewrite pre_save_is_loop. cbn. rewrite Heq. by apply keep_first_primary_split.
  - intros Hnone. rewrite pre_save_is_loop, keep_first_primary_none by done. by destruct c.
  - by rewrite pre_save_is_loop.
  - rewrite pre_save_is_loop. cbn. apply Hflags.
  - rewrite (pre_save_is_loop (pre_save c)), (pre_save_is_loop c).
    unfold set_photos. cbn. f_equal.
    destruct (first_primary (photos c)) as [Hnone | (before & p & after & -> & Hbefore & Hp)].
    + by rewrite !(keep_first_primary_none _ Hnone).
    + rewrite !keep_first_primary_split by done. do 2 f_equal.
      apply unflag_no_primary. intros q (q0 & -> & _)%list_elem_of_fmap. done.
Qed.

End CarHook.


(* ===================================================================== *)
(** ** Ride documents: adding and removing participants                    *)
(* ===================================================================== *)

Lemma ride_pre_save_idemp r : ride_pre_save (ride_pre_save r) = ride_pre_save r.
Proof.
  unfold ride_pre_save. destruct (endTime r) as [e|] eqn:Hend; cbn; rewrite Hend; done.
Qed.

Section RosterFacts.
Import Roster.

Lemma is_entry_true userId e : is_entry userId e = true ↔ p_user (core e) = userId.
Proof. unfold is_entry, is_user. apply bool_decide_eq_true. Qed.

Lemma is_entry_false userId e : is_entry userId e = false ↔ p_user (core e) ≠ userId.
Proof. unfold is_entry, is_user. apply bool_decide_eq_false. Qed.

Lemma existsb_is_entry_false userId es :
  (∀ e, e ∈ es → p_user (core e) ≠ userId) → existsb (is_entry userId) es = false.
Proof.
  induction es as [|e es IH]; intros Hnone; [done|]. cbn.
  rewrite (proj2 (is_entry_false userId e)) by (apply Hnone; by left).
  apply IH. intros e' He'. apply Hnone. by right.
Qed.

Lemma existsb_is_entry_split userId before e after :
  p_user (core e) = userId → existsb (is_entry userId) (before ++ e :: after) = true.
Proof.
  intros He. rewrite existsb_app. cbn.
  rewrite (proj2 (is_entry_true userId e)) by done. apply orb_true_r.
Qed.

Lemma amend_found_absent userId f es :
  (∀ e, e ∈ es → p_user (core e) ≠ userId) → amend_found userId f es = es.
Proof.
  induction es as [|e es IH]; intros Hnone; [done|]. cbn.
  rewrite (proj2 (is_entry_false userId e)) by (apply Hnone; by left).
  f_equal. apply IH. intros e' He'. apply Hnone. by right.
Qed.

Lemma amend_found_first userId f before e after :
  (∀ q, q ∈ before → p_user (core q) ≠ userId) →
  p_user (core e) = userId →
  amend_found userId f (before ++ e :: after) = before ++ f e :: after.
Proof.
  intros Hbefore He. induction before as [|q before IH]; cbn.
  - by rewrite (proj2 (is_entry_true userId e)).
  - rewrite (proj2 (is_entry_false userId q)) by (apply Hbefore; by left).
    f_equal. apply IH. intros q' Hq'. apply Hbefore. by right.
Qed.

Lemma first_entry userId es :
  (∀ e, e ∈ es → p_user (core e) ≠ userId)
  ∨ ∃ before e after, es = before ++ e :: after
      ∧ (∀ q, q ∈ before → p_user (core q) ≠ userId) ∧ p_user (core e) = userId.
Proof.
  induction es as [|e es IH]; [left; by intros q ?%not_elem_of_nil|].
  destruct (decide (p_user (core e) = userId)) as [He|He].
  - right. exists [], e, es. split; [done|]. split; [|done]. by intros q ?%not_elem_of_nil.
  - destruct IH as [Hnone | (before & e' & after & -> & Hbefore & He')].
    + left. intros q [->|Hq]%elem_of_cons; [done|by apply Hnone].
    + right. exists (e :: before), e', after. split; [done|]. split; [|done].
      intros q [->|Hq]%elem_of_cons; [done|by apply Hbefore].
Qed.

Lemma participantCount_view d :
  participantCount (view d) = length (List.filter counted (map core (entries d))).
Proof. done. Qed.

Lemma participantCount_save d : participantCount (view (save d)) = participantCount (view d).
Proof.
  unfold participantCount, view, save. cbn.
  by destruct (ride_pre_save_fields (base d)) as (_ & _ & _ & _ & _ & _).
Qed.

Lemma save_idemp d : save (save d) = save d.
Proof. unfold save. cbn. by rewrite ride_pre_save_idemp. Qed.

Lemma enlist_existing userId carId before e after :
  (∀ q, q ∈ before → p_user (core q) ≠ userId) →
  p_user (core e) = userId →
  enlist userId carId (before ++ e :: after)
  = before
    ++ {| core := Participant userId CONFIRMED (p_currentLocation (core e))
                              (p_isOnline (core e));
          car := match carId with Some c => Some c | None => car e end;
          leftAt := leftAt e |}
    :: after.
Proof.
  intros Hbefore He. unfold enlist.
  rewrite existsb_is_entry_split by done.
  rewrite amend_found_first by done. unfold set_entry_status. by rewrite He.
Qed.

Lemma enlist_absent userId carId es :
  (∀ e, e ∈ es → p_user (core e) ≠ userId) →
  enlist userId carId es
  = es ++ [{| core := Participant userId CONFIRMED None false;
              car := carId; leftAt := None |}].
Proof.
  intros Hnone. unfold enlist. by rewrite existsb_is_entry_false.
Qed.

Lemma enlist_idemp userId carId es :
  enlist userId carId (enlist userId carId es) = enlist userId carId es.
Proof.
  destruct (first_entry userId es) as [Hnone | (before & e & after & -> & Hbefore & He)].
  - rewrite (enlist_absent _ _ _ Hnone).
    rewrite enlist_existing by done. cbn. by destruct carId.
  - rewrite enlist_existing by done.
    rewrite enlist_existing by done. cbn. by destruct carId.
Qed.

(** X11. [addParticipant] confirms the first entry of an identity already
    on the list, in place, replacing its car only when a car is given, and
    appends a confirmed entry for an identity that is not on it; so it never
    adds a second entry for an identity, and adding the same participant
    again changes nothing. *)
Theorem addParticipant_confirms (userId : string) (carId : option string) (d : doc) :
  let d' := addParticipant userId carId d in
  (∀ before e after,
      entries d = before ++ e :: after →
      (∀ q, q ∈ before → p_user (core q) ≠ userId) →
      p_user (core e) = userId →
      entries d'
      = before
        ++ {| core := Participant userId CONFIRMED (p_currentLocation (core e))
                                  (p_isOnline (core e));
              car := match carId with Some c => Some c | None => car e end;
              leftAt := leftAt e |}
        :: after)
  ∧ ((∀ e, e ∈ entries d → p_user (core e) ≠ userId) →
      entries d'
      = entries d ++ [{| core := Participant userId CONFIRMED None false;
                         car := carId; leftAt := None |}])
  ∧ (NoDup (member_ids d) → NoDup (member_ids d'))
  ∧ addParticipant userId carId d' = d'.
Proof.
  intros d'. unfold d', addParticipant, save. cbn [entries].
  split; [|split; [|split]].
  - intros before e after -> Hbefore He. by apply enlist_existing.
  - apply enlist_absent.
  - unfold member_ids. cbn [entries].
    destruct (first_entry userId (entries d))
      as [Hnone | (before & e & after & Heq & Hbefore & He)].
    + rewrite (enlist_absent _ _ _ Hnone), map_app. cbn. intros Hnodup.
      apply NoDup_app. split; [done|]. split; [|apply NoDup_singleton].
      intros x (e & -> & Hin)%list_elem_of_fmap Heq%list_elem_of_singleton.
      by apply (Hnone e).
    + rewrite Heq, enlist_existing by done. rewrite !map_app, !map_cons.
      cbn [core p_user]. by rewrite He.
  - cbn [base entries maxParticipants].
    by rewrite ride_pre_save_idemp, enlist_idemp.
Qed.

Lemma filter_counted_app (ps qs : list participant) :
  length (List.filter counted (ps ++ qs))
  = (length (List.filter counted ps) + length (List.filter counted qs))%nat.
Proof. by rewrite List.filter_app, length_app. Qed.

(** X12. [addParticipant] does not look at the ride's capacity: on a ride
    that is full it still appends a confirmed entry for a new identity, so
    the participant count grows by one and exceeds [maxParticipants]. *)
Theorem addParticipant_ignores_capacity (userId : string) (carId : option string) (d : doc) :
  isFull d = true →
  (∀ e, e ∈ entries d → p_user (core e) ≠ userId) →
  let d' := addParticipant userId carId d in
  participantCount (view d') = S (participantCount (view d))
  ∧ (maxParticipants d' < Z.of_nat (participantCount (view d')))%Z
  ∧ isFull d' = true.
Proof.
  intros Hfull Hnone d'.
  assert (Hcount : participantCount (view d') = S (participantCount (view d))).
  { unfold d', addParticipant. rewrite participantCount_save, !participantCount_view.
    cbn [entries]. rewrite (enlist_absent _ _ _ Hnone), map_app, filter_counted_app.
    change (length (List.filter counted (map core [?x]))) with 1%nat. lia. }
  unfold isFull in *. apply bool_decide_eq_true in Hfull.
  assert (Hmax : maxParticipants d' = maxParticipants d) by done.
  split; [done|]. rewrite Hcount, Hmax. split; [lia|].
  apply bool_decide_eq_true. lia.
Qed.

Lemma delist_keeps_ids now userId es :
  map (λ e, p_user (core e)) (delist now userId es) = map (λ e, p_user (core e)) es.
Proof.
  unfold delist.
  destruct (first_entry userId es) as [Hnone | (before & e & after & -> & Hbefore & He)].
  - by rewrite amend_found_absent.
  - rewrite amend_found_first by done. rewrite !map_app, !map_cons. done.
Qed.

(** X13. [removeParticipant] deletes nobody: the identities on the list and
    their order stay as they were.  The first entry of the identity is set
    to [LEFT] with the given time as [leftAt], its other fields and every
    other entry untouched; the participant count drops by one when that
    entry was [CONFIRMED] or [JOINED] and is unchanged otherwise; for an
    identity that is not on the list the participants are stored unchanged. *)
Theorem removeParticipant_is_soft (now : Z) (userId : string) (d : doc) :
  let d' := removeParticipant now userId d in
  member_ids d' = member_ids d
  ∧ (∀ before e after,
        entries d = before ++ e :: after →
        (∀ q, q ∈ before → p_user (core q) ≠ userId) →
        p_user (core e) = userId →
        entries d'
        = before
          ++ {| core := Participant userId LEFT (p_currentLocation (core e))
                                    (p_isOnline (core e));
                car := car e; leftAt := Some now |}
          :: after
        ∧ participantCount (view d)
          = ((if counted (core e) then 1 else 0) + participantCount (view d'))%nat)
  ∧ ((∀ e, e ∈ entries d → p_user (core e) ≠ userId) → entries d' = entries d).
Proof.
  intros d'.
  assert (Hentries : entries d' = delist now userId (entries d)) by done.
  split; [|split].
  - unfold member_ids. rewrite Hentries. apply delist_keeps_ids.
  - intros before e after Heq Hbefore He. rewrite Hentries, Heq.
    unfold delist. rewrite amend_found_first by done.
    unfold set_entry_status. rewrite He. split; [done|].
    unfold d', removeParticipant. rewrite participantCount_save, !participantCount_view.
    cbn [entries]. rewrite Heq. unfold delist. rewrite amend_found_first by done.
    rewrite !map_app, !map_cons, !filter_counted_app.
    cbn [List.filter core].
    change (counted (set_entry_status LEFT e)) with false.
    destruct (counted (core e)); cbn [length]; lia.
  - intros Hnone. rewrite Hentries. unfold delist. by apply amend_found_absent.
Qed.

End RosterFacts.

Section RemovedStillJoins.
Variable jwt_verify : string → option string.
Import Roster.

(** X14. Being removed from a ride does not close its room: after
    [removeParticipant] the identity's entry is still on the list, so
    [join_ride] with an id naming that ride admits the identity to the membership set and the socket to
    the delivery group, and answers [joined_ride]. *)
Theorem removed_participant_still_joins (w : World) (sid : nat) (s : socket)
    (userId rideId id : string) (now : Z) (d : doc) :
  sockets w !! sid = Some s →
  s_userId s = Some userId →
  userId ∈ member_ids d →
  castObjectId rideId = Some id →
  rides w !! id = Some (view (removeParticipant now userId d)) →
  let result := handle jwt_verify w sid (JoinRide rideId) in
  userId ∈ default ∅ (rideRooms result.1 !! rideId)
  ∧ sid ∈ room_members result.1 (room_of rideId)
  ∧ ∃ notice, result.2 = [Out (ToSocket sid) {[sid]} (joined_ride rideId); notice].
Proof.
  intros Hsock Huser Hmember Hcast Hride result.
  assert (Hpart : existsb (is_user userId)
                    (participants (view (removeParticipant now userId d))) = true).
  { apply existsb_is_user.
    unfold member_ids in Hmember.
    rewrite <- (delist_keeps_ids now userId (entries d)) in Hmember.
    apply list_elem_of_fmap in Hmember as (e & He & Hin).
    exists (core e). split; [|done].
    unfold view, removeParticipant, save. cbn [participants set_participants entries].
    by apply list_elem_of_fmap_2. }
  assert (Hresult : result = on_join_ride w sid s rideId).
  { unfold result, handle. by rewrite Hsock. }
  rewrite (on_join_ride_accepts _ _ _ _ _ _ _ Huser Hcast Hride Hpart) in Hresult.
  rewrite Hresult. cbn [fst snd]. split; [|split].
  - unfold joined. cbn. rewrite rideRooms_add_insert, lookup_insert_eq. cbn.
    apply elem_of_union_l, elem_of_singleton. done.
  - unfold joined. apply socket_join_member.
  - eexists. reflexivity.
Qed.

End RemovedStillJoins.

(* ===================================================================== *)
(** ** User documents: points, levels and badges                           *)
(* ===================================================================== *)

Section GamificationFacts.
Import Gamification.

(** X15. [addPoints] adds the same amount to points and experience and
    sets the level to the larger of the old level and
    [floor(experience / 1000) + 1]: the level is never lowered, not even by
    negative points, and where it agreed with the experience before and the
    points are not negative it agrees with it afterwards.  An achievement is
    recorded exactly when a reason is given. *)
Theorem addPoints_levels (now pts : Z) (reason : string) (g : sheet) :
  let g' := addPoints now pts reason g in
  points g' = points g + pts
  ∧ experience g' = experience g + pts
  ∧ level g' = Z.max (level g) (experience g' / 1000 + 1)
  ∧ (level g ≤ level g')%Z
  ∧ (level g = experience g / 1000 + 1 → (0 ≤ pts)%Z →
     level g' = experience g' / 1000 + 1)
  ∧ badges g' = badges g
  ∧ (reason = "" → achievements g' = achievements g)
  ∧ (reason ≠ "" →
     achievements g'
     = achievements g
       ++ [Achievement reason ("Earned " +:+ pretty pts +:+ " points") now pts]).
Proof.
  intros g'. unfold g', addPoints. cbn.
  split; [done|]. split; [done|].
  assert (Hlevel : (if bool_decide (level g < (experience g + pts) / 1000 + 1)
                    then (experience g + pts) / 1000 + 1 else level g)
                   = Z.max (level g) ((experience g + pts) / 1000 + 1)).
  { case_bool_decide; lia. }
  rewrite Hlevel. split; [done|]. split; [lia|]. split.
  - intros Hagree Hpts.
    assert ((experience g) / 1000 ≤ (experience g + pts) / 1000)%Z
      by (apply Z.div_le_mono; lia).
    lia.
  - split; [done|]. split.
    + by intros ->.
    + intros Hreason. destruct (String.eqb reason "") eqn:Heq; [|done].
      by apply String.eqb_eq in Heq.
Qed.

(** X16. [addBadge] never stores a badge twice and never stores one outside
    the schema's list: a badge already held leaves the document as it is, a
    new badge of a listed type is accepted and stored at the end of the
    list, the rest of the document untouched, and any other is rejected; so
    a list of badges without repetitions stays one, and adding the same
    badge again changes nothing. *)
Theorem addBadge_once (badgeType : string) (g : sheet) :
  (badgeType ∈ badges g → addBadge badgeType g = Some g)
  ∧ (badgeType ∉ badges g → badgeType ∉ badge_types → addBadge badgeType g = None)
  ∧ (∀ g', addBadge badgeType g = Some g' →
        badgeType ∈ badges g'
        ∧ (badgeType ∉ badges g → badges g' = badges g ++ [badgeType])
        ∧ (NoDup (badges g) → NoDup (badges g'))
        ∧ points g' = points g ∧ level g' = level g ∧ experience g' = experience g
        ∧ addBadge badgeType g' = Some g')
  ∧ (badgeType ∉ badges g → badgeType ∈ badge_types →
        addBadge badgeType g
        = Some {| points := points g; level := level g; experience := experience g;
                  badges := badges g ++ [badgeType]; achievements := achievements g |}).
Proof.
  unfold addBadge. split; [|split; [|split]].
  - intros Hheld. by rewrite bool_decide_eq_true_2.
  - intros Hnew Hunknown. by rewrite !bool_decide_eq_false_2.
  - intros g'. case_bool_decide as Hheld.
    + intros [= <-]. rewrite bool_decide_eq_true_2 by done. done.
    + case_bool_decide as Hknown; [|done]. intros [= <-]. cbn.
      assert (Hin : badgeType ∈ badges g ++ [badgeType]).
      { apply elem_of_app. right. by apply list_elem_of_singleton. }
      rewrite bool_decide_eq_true_2 by done.
      repeat split; try done.
      intros Hnodup. apply NoDup_app. split; [done|]. split; [|apply NoDup_singleton].
      intros x Hx Heq%list_elem_of_singleton. by subst.
  - intros Hnew Hlisted.
    by rewrite bool_decide_eq_false_2, bool_decide_eq_true_2.
Qed.

End GamificationFacts.

(* ===================================================================== *)
(** ** The browser profile script                                          *)
(* ===================================================================== *)

Section ProfileFacts.
Import Profile.

Lemma recordable_joinClub clubName : recordable ("joinClub-" +:+ clubName) = true.
Proof. done. Qed.

Lemma recordable_visit locationId : recordable ("visit-" +:+ locationId) = true.
Proof. done. Qed.

Lemma recordable_blog title : recordable ("blog-" +:+ title) = true.
Proof. done. Qed.

(** X17. [joinClub] awards its 50 points once per club: for a club the
    user is not in, the stored user afterwards has the club appended, 50
    points more and the task [joinClub-<club>] recorded, the rest as
    [getUser] returned it before; for a club the user is in nothing changes,
    so joining the same club again changes nothing. *)
Theorem joinClub_awards_once (clubName : string) (pg : page) :
  let before := profile pg in
  (clubName ∈ clubs (sv_shelves before) → joinClub clubName pg = pg)
  ∧ (clubName ∉ clubs (sv_shelves before) →
      storage (joinClub clubName pg)
      = Stored (Saved (sv_name before) (sv_car before) (sv_points before + 50)
                  (Shelves ({["joinClub-" +:+ clubName]} ∪ tasks (sv_shelves before))
                           (clubs (sv_shelves before) ++ [clubName])
                           (visited (sv_shelves before))
                           (blogs (sv_shelves before))))
      ∧ joinClub clubName (joinClub clubName pg) = joinClub clubName pg).
Proof.
  intros before. unfold before, profile. split.
  - intros Hin. unfold joinClub. by rewrite bool_decide_eq_true_2.
  - intros Hnew. cbn [sv_shelves] in Hnew.
    assert (Hfirst : storage (joinClub clubName pg)
      = Stored (Saved (name (getUser pg)) (car (getUser pg)) (points (getUser pg) + 50)
                  (Shelves ({["joinClub-" +:+ clubName]} ∪ tasks (contents pg (getUser pg)))
                           (clubs (contents pg (getUser pg)) ++ [clubName])
                           (visited (contents pg (getUser pg)))
                           (blogs (contents pg (getUser pg)))))).
    { unfold joinClub. rewrite bool_decide_eq_false_2 by done.
      unfold addPoints. rewrite recordable_joinClub.
      destruct pg as [[| |u] dflt]; reflexivity. }
    split; [exact Hfirst|].
    unfold joinClub at 1. rewrite bool_decide_eq_true_2; [done|].
    unfold getUser, contents. rewrite Hfirst. cbn.
    apply elem_of_app. right. by apply list_elem_of_singleton.
Qed.

(** X18. [markVisited] never changes the points: the 25 points its call of
    [addPoints] stores are overwritten by its own final [saveUser] of the
    user object read at the start.  A new location is appended to the
    visited list, the name, car, clubs and blogs stay as they were, and when
    a user was stored before, the task list is unchanged too. *)
Theorem markVisited_keeps_points (locationId : string) (pg : page) :
  let before := profile pg in
  let after := profile (markVisited locationId pg) in
  sv_points after = sv_points before
  ∧ sv_name after = sv_name before ∧ sv_car after = sv_car before
  ∧ clubs (sv_shelves after) = clubs (sv_shelves before)
  ∧ blogs (sv_shelves after) = blogs (sv_shelves before)
  ∧ visited (sv_shelves after)
    = (if bool_decide (locationId ∈ visited (sv_shelves before))
       then visited (sv_shelves before)
       else visited (sv_shelves before) ++ [locationId])
  ∧ (∀ u, storage pg = Stored u →
        tasks (sv_shelves after) = tasks (sv_shelves before))
  ∧ storage (markVisited locationId pg) = Stored after.
Proof.
  intros before after. unfold after, before, profile, markVisited.
  destruct pg as [[| |u] dflt];
    cbn [getUser storage contents held defaults sv_shelves];
    destruct (bool_decide (locationId ∈ _)) eqn:Hseen;
    unfold addPoints; rewrite ?recordable_visit; cbn; repeat split; done.
Qed.

(** X19. [createBlogPost] appends the post and, like [markVisited], leaves
    the points as they were: its final [saveUser] stores the user object
    read before [addPoints] ran.  A stored user's task list is unchanged as
    well. *)
Theorem createBlogPost_keeps_points (title content date : string) (pg : page) :
  let before := profile pg in
  let after := profile (createBlogPost title content date pg) in
  sv_points after = sv_points before
  ∧ sv_name after = sv_name before ∧ sv_car after = sv_car before
  ∧ clubs (sv_shelves after) = clubs (sv_shelves before)
  ∧ visited (sv_shelves after) = visited (sv_shelves before)
  ∧ blogs (sv_shelves after) = blogs (sv_shelves before) ++ [Blog title content date]
  ∧ (∀ u, storage pg = Stored u →
        tasks (sv_shelves after) = tasks (sv_shelves before))
  ∧ storage (createBlogPost title content date pg) = Stored after.
Proof.
  intros before after. unfold after, before, profile, createBlogPost.
  destruct pg as [[| |u] dflt]; cbn; repeat split; try done.
Qed.

(** X20. With nothing stored, the containers of a user object are those of
    [DEFAULT_USER]: [markVisited] appends the location to [DEFAULT_USER]'s
    own visited list and records the task in its task object, so until the
    page is reloaded a user read from an empty storage has that location
    visited and that task done. *)
Theorem markVisited_writes_defaults (locationId : string) (dflt : shelves) :
  locationId ∉ visited dflt →
  let pg' := markVisited locationId (Page Absent dflt) in
  defaults pg'
  = Shelves ({["visit-" +:+ locationId]} ∪ tasks dflt) (clubs dflt)
            (visited dflt ++ [locationId]) (blogs dflt)
  ∧ profile (Page Absent (defaults pg')) = Saved "" "" 0 (defaults pg')
  ∧ sv_points (profile pg') = 0.
Proof.
  intros Hnew pg'. unfold pg', markVisited. cbn [getUser storage contents held defaults].
  rewrite bool_decide_eq_false_2 by done. done.
Qed.

Lemma place_perm row rows : place row rows ≡ₚ row :: rows.
Proof.
  induction rows as [|r rows IH]; [done|]. cbn. case_bool_decide; [done|].
  rewrite IH. apply Permutation_swap.
Qed.

Lemma place_descending row rows : descending rows → descending (place row rows).
Proof.
  unfold descending. induction rows as [|r rows IH]; intros Hsorted.
  - repeat constructor.
  - cbn. apply StronglySorted_inv in Hsorted as [Hrest Hr].
    case_bool_decide as Hle.
    + constructor; [by constructor|]. constructor; [done|].
      eapply Forall_impl; [exact Hr|]. cbn. intros x Hx. lia.
    + constructor; [by apply IH|].
      rewrite place_perm. constructor; [cbn; lia|done].
Qed.

Lemma sort_by_points_perm rows : sort_by_points rows ≡ₚ rows.
Proof.
  induction rows as [|r rows IH]; [done|]. cbn. by rewrite place_perm, IH.
Qed.

Lemma sort_by_points_descending rows : descending (sort_by_points rows).
Proof.
  induction rows as [|r rows IH]; [constructor|]. cbn. by apply place_descending.
Qed.

Lemma set_row_names who pts rows : (set_row who pts rows).*1 = rows.*1.
Proof.
  induction rows as [|r rows IH]; [done|]. cbn.
  destruct (String.eqb r.1 who); cbn; [done|by rewrite IH].
Qed.

Lemma set_row_member who pts rows :
  existsb (λ row, String.eqb row.1 who) rows = true → (who, pts) ∈ set_row who pts rows.
Proof.
  induction rows as [|r rows IH]; [done|]. cbn.
  destruct (String.eqb r.1 who) eqn:Hr; cbn.
  - intros _. apply String.eqb_eq in Hr as ->. by left.
  - intros Hrest. right. by apply IH.
Qed.

Lemma existsb_row_named who (rows : list (string * Z)) :
  existsb (λ row, String.eqb row.1 who) rows = true ↔ who ∈ rows.*1.
Proof.
  induction rows as [|r rows IH]; cbn.
  - split; [done|]. by intros ?%not_elem_of_nil.
  - rewrite orb_true_iff, String.eqb_eq, elem_of_cons, IH.
    split; (intros [?|?]; [by left|by right]).
Qed.

Lemma sample_names_NoDup : NoDup sample.*1.
Proof. apply (bool_decide_unpack _). vm_compute. exact I. Qed.

(** X21. [getLeaderboard] returns the four sample rows, with the current
    user's points written into the row of the user's name or, for a name
    that is not in the sample, with a row for the user added; an unnamed
    user gets no row.  The rows come back in descending order of points, no
    row lost or repeated, and no name appears twice. *)
Theorem getLeaderboard_sorted (pg : page) :
  let who := sv_name (profile pg) in
  let pts := sv_points (profile pg) in
  let board := getLeaderboard pg in
  descending board
  ∧ board ≡ₚ board_rows who pts
  ∧ NoDup board.*1
  ∧ (who ≠ "" → (who, pts) ∈ board)
  ∧ (who = "" → board = sample)
  ∧ length board = (if bool_decide (who = "" ∨ who ∈ sample.*1) then 4 else 5)%nat.
Proof.
  intros who pts board.
  assert (Hboard : board = sort_by_points (board_rows who pts)) by done.
  assert (Hperm : board ≡ₚ board_rows who pts).
  { rewrite Hboard. apply sort_by_points_perm. }
  pose proof (existsb_row_named who sample) as Hlisted.
  split; [rewrite Hboard; apply sort_by_points_descending|].
  split; [done|]. split; [|split; [|split]].
  - rewrite Hperm. unfold board_rows.
    destruct (String.eqb who "") eqn:Hanon.
    { apply sample_names_NoDup. }
    destruct (existsb _ sample) eqn:Hin.
    + rewrite set_row_names. apply sample_names_NoDup.
    + rewrite fmap_app. apply NoDup_app. split; [|split; [|apply NoDup_singleton]].
      * apply sample_names_NoDup.
      * intros x Hx Heq%list_elem_of_singleton. cbn in Heq. subst x.
        apply Hlisted in Hx. congruence.
  - intros Hnamed. rewrite Hperm. unfold board_rows.
    destruct (String.eqb who "") eqn:Hanon; [by apply String.eqb_eq in Hanon|].
    destruct (existsb _ sample) eqn:Hin.
    + by apply set_row_member.
    + apply elem_of_app. right. by apply list_elem_of_singleton.
  - intros Hanon. rewrite Hboard. unfold board_rows. by rewrite Hanon.
  - rewrite Hperm. unfold board_rows.
    destruct (String.eqb who "") eqn:Hanon.
    { apply String.eqb_eq in Hanon. rewrite bool_decide_eq_true_2 by (by left). done. }
    apply String.eqb_neq in Hanon.
    destruct (existsb _ sample) eqn:Hin.
    + rewrite bool_decide_eq_true_2 by (right; by apply Hlisted).
      rewrite <- (length_fmap fst), set_row_names. done.
    + rewrite bool_decide_eq_false_2; [done|].
      intros [?|Hx]; [done|]. apply Hlisted in Hx. congruence.
Qed.

End ProfileFacts.

(* ===================================================================== *)
(** ** The properties above on the sample data                             *)
(* ===================================================================== *)

Lemma authenticate_rejections_witness :
  ∃ message,
    handle Sample.verify (Sample.server PLANNING None) 5%nat (Authenticate (Some "forged"))
    = (Sample.server PLANNING None, [Out (ToSocket 5%nat) {[5%nat]} (auth_error message)])
    ∧ message ∈ ["No token provided"; "Authentication failed"; "Invalid token"].
Proof.
  apply (authenticate_rejections Sample.verify (Sample.server PLANNING None) 5%nat
           (Socket None None)).
  - vm_compute. reflexivity.
  - right. right. exists "forged". split; [reflexivity|]. left. reflexivity.
Defined.

Lemma authenticate_rehydrates_witness :
  "alice" ∈ default ∅ (rideRooms (handle Sample.verify Demo.doorstep 1%nat
                                     (Authenticate (Some "token-alice"))).1 !! "64d1f0a2b3c4d5e6f7089a01")
  ∧ 1%nat ∈ room_members (handle Sample.verify Demo.doorstep 1%nat
                            (Authenticate (Some "token-alice"))).1 (room_of "64d1f0a2b3c4d5e6f7089a01").
Proof.
  refine (proj1 (authenticate_rehydrates Sample.verify Demo.doorstep 1%nat
                   (Socket None None) _ _ "alice" Sample.alice _ _ _)
                "64d1f0a2b3c4d5e6f7089a01" (Sample.meetup ACTIVE None) _ _ _).
  - vm_compute. reflexivity.
  - reflexivity.
  - vm_compute. reflexivity.
  - vm_compute. reflexivity.
  - reflexivity.
  - exists (Participant "alice" CONFIRMED None false). split; [by left|reflexivity].
Defined.

Lemma lobby_rooms_empty :
  rideRooms Demo.lobby !! "64d1f0a2b3c4d5e6f7089a01" = None ∧ rooms Demo.lobby !! room_of "64d1f0a2b3c4d5e6f7089a01" = None.
Proof. split; vm_compute; reflexivity. Qed.

Lemma join_then_leave_restores_witness :
  (handle Sample.verify
          (handle Sample.verify Demo.lobby 1%nat (JoinRide "64d1f0a2b3c4d5e6f7089a01")).1 1%nat (LeaveRide "64d1f0a2b3c4d5e6f7089a01")).1
  = Demo.lobby.
Proof.
  destruct lobby_rooms_empty as [Hrr Hrooms].
  apply (join_then_leave_restores Sample.verify Demo.lobby 1%nat Sample.alice_socket
           "alice" "64d1f0a2b3c4d5e6f7089a01" "64d1f0a2b3c4d5e6f7089a01"
           (Sample.meetup PLANNING None)).
  - vm_compute. reflexivity.
  - reflexivity.
  - vm_compute. reflexivity.
  - vm_compute. reflexivity.
  - reflexivity.
  - rewrite Hrr. discriminate.
  - rewrite Hrooms. discriminate.
  - rewrite Hrr. apply not_elem_of_empty.
  - unfold room_members. rewrite Hrooms. apply not_elem_of_empty.
Defined.

Lemma leave_ride_not_member_witness :
  handle Sample.verify Demo.lobby 3%nat (LeaveRide "no-such-ride")
  = (Demo.lobby,
     [Out (ToSocket 3%nat) {[3%nat]} (left_ride "no-such-ride");
      Out (ToRoomExcept (room_of "no-such-ride") 3%nat)
          (room_members Demo.lobby (room_of "no-such-ride") ∖ {[3%nat]})
          (participant_left "bob" (socket_username Sample.bob_socket))]).
Proof.
  assert (Hrr : rideRooms Demo.lobby !! "no-such-ride" = None) by (vm_compute; reflexivity).
  assert (Hrooms : rooms Demo.lobby !! room_of "no-such-ride" = None)
    by (vm_compute; reflexivity).
  apply (leave_ride_not_member Sample.verify Demo.lobby 3%nat Sample.bob_socket "bob").
  - vm_compute. reflexivity.
  - reflexivity.
  - rewrite Hrr. discriminate.
  - rewrite Hrooms. discriminate.
  - rewrite Hrr. apply not_elem_of_empty.
  - unfold room_members. rewrite Hrooms. apply not_elem_of_empty.
Defined.

Lemma handlers_keep_identities_witness :
  sockets (handle Sample.verify (Sample.server PLANNING None) 1%nat
                  (Authenticate (Some "token-carol"))).1 !! 3%nat
  = Some Sample.bob_socket.
Proof.
  apply (handlers_keep_identities Sample.verify (Sample.server PLANNING None) 1%nat 3%nat).
  - vm_compute. reflexivity.
  - left. discriminate.
Defined.

Lemma handlers_keep_roster_witness :
  ∃ r', rides (handle Sample.verify (Sample.server ACTIVE None) 3%nat
                 (UpdateLocation "64d1f0a2b3c4d5e6f7089a01" (LocationData (Coordinates 52 13) None None))).1
          !! "64d1f0a2b3c4d5e6f7089a01" = Some r'
        ∧ organizer r' = "alice"
        ∧ roster_of (participants r') = [("alice", CONFIRMED); ("bob", JOINED)].
Proof.
  apply (handlers_keep_roster Sample.verify (Sample.server ACTIVE None) 3%nat
           (UpdateLocation "64d1f0a2b3c4d5e6f7089a01" (LocationData (Coordinates 52 13) None None))
           "64d1f0a2b3c4d5e6f7089a01" (Sample.meetup ACTIVE None)).
  vm_compute. reflexivity.
Defined.

Lemma start_then_end_duration_witness :
  (handle Sample.verify
          (set_clock 250
             (handle Sample.verify (Sample.server PLANNING None) 1%nat (StartRide "64d1f0a2b3c4d5e6f7089a01")).1)
          1%nat (EndRide "64d1f0a2b3c4d5e6f7089a01")).2
  = [Out (ToRoom (room_of "64d1f0a2b3c4d5e6f7089a01")) (room_members (Sample.server PLANNING None) (room_of "64d1f0a2b3c4d5e6f7089a01"))
         (ride_ended "64d1f0a2b3c4d5e6f7089a01" (Some 250) (250 - clock (Sample.server PLANNING None)))].
Proof.
  refine (proj2 (start_then_end_duration Sample.verify (Sample.server PLANNING None) 1%nat
                   Sample.alice_socket "64d1f0a2b3c4d5e6f7089a01" (Sample.meetup PLANNING None) 250 _ _ _)).
  - vm_compute. reflexivity.
  - reflexivity.
  - vm_compute. reflexivity.
Defined.

Lemma reauthentication_leaves_stale_entry_witness :
  connectedUsers
    (run Sample.verify
       (handle Sample.verify
          (handle Sample.verify Demo.lobby 1%nat (Authenticate (Some "token-alice"))).1
          1%nat (Authenticate (Some "token-carol"))).1
       (Receive 1%nat Disconnect)).1 !! "alice"
  = Some 1%nat.
Proof.
  refine (proj1 (proj2 (proj2 (reauthentication_leaves_stale_entry Sample.verify Demo.lobby
                    1%nat Sample.alice_socket _ _ _ _ "alice" "carol"
                    (User "Alice" [Friend "bob" ACCEPTED] true 100) Sample.carol
                    _ _ _ _ _ _)))).
  - vm_compute. reflexivity.
  - reflexivity.
  - reflexivity.
  - discriminate.
  - vm_compute. reflexivity.
  - vm_compute. reflexivity.
Defined.

Lemma pre_save_keeps_first_primary_witness :
  Car.photos (Car.pre_save Sample.demo_car)
  = [Car.Photo "a.jpg" "front" true 1; Car.Photo "b.jpg" "rear" false 2].
Proof.
  refine (proj1 (pre_save_keeps_first_primary Sample.demo_car)
                [] (Car.Photo "a.jpg" "front" true 1) [Car.Photo "b.jpg" "rear" true 2]
                _ _ _).
  - reflexivity.
  - intros q Hq. by apply not_elem_of_nil in Hq.
  - reflexivity.
Defined.

Lemma addParticipant_confirms_witness :
  Roster.entries (Roster.addParticipant "carol" None Demo.outing)
  = Roster.entries Demo.outing
    ++ [Roster.Entry (Participant "carol" CONFIRMED None false) None None].
Proof.
  refine (proj1 (proj2 (addParticipant_confirms "carol" None Demo.outing)) _).
  intros e He. apply list_elem_of_In in He. cbn in He.
  destruct He as [<- | [<- | []]]; discriminate.
Defined.

Lemma addParticipant_ignores_capacity_witness :
  participantCount (Roster.view (Roster.addParticipant "carol" (Some "car-9") Demo.outing))
  = S (participantCount (Roster.view Demo.outing))
  ∧ (Roster.maxParticipants (Roster.addParticipant "carol" (Some "car-9") Demo.outing)
     < Z.of_nat (participantCount
                   (Roster.view (Roster.addParticipant "carol" (Some "car-9") Demo.outing))))%Z
  ∧ Roster.isFull (Roster.addParticipant "carol" (Some "car-9") Demo.outing) = true.
Proof.
  apply (addParticipant_ignores_capacity "carol" (Some "car-9") Demo.outing).
  - reflexivity.
  - intros e He. apply list_elem_of_In in He. cbn in He.
    destruct He as [<- | [<- | []]]; discriminate.
Defined.

Lemma removeParticipant_is_soft_witness :
  Roster.entries (Roster.removeParticipant 500 "bob" Demo.outing)
  = [Roster.Entry (Participant "alice" CONFIRMED None false) None None]
    ++ Roster.Entry (Participant "bob" LEFT None false) (Some "car-7") (Some 500) :: []
  ∧ participantCount (Roster.view Demo.outing)
    = (1 + participantCount (Roster.view (Roster.removeParticipant 500 "bob" Demo.outing)))%nat.
Proof.
  refine (proj1 (proj2 (removeParticipant_is_soft 500 "bob" Demo.outing))
                [Roster.Entry (Participant "alice" CONFIRMED None false) None None]
                (Roster.Entry (Participant "bob" JOINED None false) (Some "car-7") None)
                [] _ _ _).
  - reflexivity.
  - intros q Hq. apply list_elem_of_In in Hq. cbn in Hq.
    destruct Hq as [<- | []]. discriminate.
  - reflexivity.
Defined.

Lemma removed_participant_still_joins_witness :
  "bob" ∈ default ∅ (rideRooms (handle Sample.verify Demo.after_removal 3%nat
                                   (JoinRide "64d1f0a2b3c4d5e6f7089a01")).1 !! "64d1f0a2b3c4d5e6f7089a01")
  ∧ 3%nat ∈ room_members (handle Sample.verify Demo.after_removal 3%nat (JoinRide "64d1f0a2b3c4d5e6f7089a01")).1
                         (room_of "64d1f0a2b3c4d5e6f7089a01")
  ∧ ∃ notice, (handle Sample.verify Demo.after_removal 3%nat (JoinRide "64d1f0a2b3c4d5e6f7089a01")).2
              = [Out (ToSocket 3%nat) {[3%nat]} (joined_ride "64d1f0a2b3c4d5e6f7089a01"); notice].
Proof.
  apply (removed_participant_still_joins Sample.verify Demo.after_removal 3%nat
           Sample.bob_socket "bob" "64d1f0a2b3c4d5e6f7089a01" "64d1f0a2b3c4d5e6f7089a01"
           500 Demo.outing).
  - vm_compute. reflexivity.
  - reflexivity.
  - right. left.
  - vm_compute. reflexivity.
  - vm_compute. reflexivity.
Defined.

Lemma addPoints_levels_witness :
  Gamification.level (Gamification.addPoints 7 250 "" Demo.rookie)
  = (Gamification.experience (Gamification.addPoints 7 250 "" Demo.rookie) / 1000 + 1)%Z.
Proof.
  refine (proj1 (proj2 (proj2 (proj2 (proj2
            (addPoints_levels 7 250 "" Demo.rookie))))) _ _).
  - reflexivity.
  - discriminate.
Defined.

Lemma addBadge_once_witness :
  Gamification.addBadge "FIRST_RIDE" Demo.rookie = Some Demo.rookie
  ∧ Gamification.addBadge "TURBO" Demo.rookie = None
  ∧ Gamification.addBadge "NIGHT_RIDER" Demo.rookie
    = Some {| Gamification.points := 900; Gamification.level := 1;
              Gamification.experience := 900;
              Gamification.badges := ["FIRST_RIDE"; "NIGHT_RIDER"];
              Gamification.achievements := [] |}.
Proof.
  split; [|split].
  - refine (proj1 (addBadge_once "FIRST_RIDE" Demo.rookie) _). by left.
  - refine (proj1 (proj2 (addBadge_once "TURBO" Demo.rookie)) _ _).
    + intros Hin. apply list_elem_of_In in Hin. cbn in Hin.
      destruct Hin as [Heq | []]. discriminate Heq.
    + intros Hin. apply list_elem_of_In in Hin. cbn in Hin.
      repeat (destruct Hin as [Hin | Hin]; [discriminate Hin|]). destruct Hin.
  - refine (proj2 (proj2 (proj2 (addBadge_once "NIGHT_RIDER" Demo.rookie))) _ _).
    + intros Hin. apply list_elem_of_In in Hin. cbn in Hin.
      destruct Hin as [Heq | []]. discriminate Heq.
    + apply list_elem_of_In. cbn. do 10 right. left. reflexivity.
Defined.

Lemma joinClub_awards_once_witness :
  Profile.joinClub "Roadsters" Demo.returning = Demo.returning
  ∧ Profile.joinClub "Alpine" (Profile.joinClub "Alpine" Demo.returning)
    = Profile.joinClub "Alpine" Demo.returning.
Proof.
  split.
  - refine (proj1 (joinClub_awards_once "Roadsters" Demo.returning) _). by left.
  - refine (proj2 (proj2 (joinClub_awards_once "Alpine" Demo.returning) _)).
    intros Hin. apply list_elem_of_In in Hin. cbn in Hin.
    destruct Hin as [Heq | []]. discriminate Heq.
Defined.

Lemma markVisited_keeps_points_witness :
  Profile.tasks (Profile.sv_shelves (Profile.profile (Profile.markVisited "pass-2" Demo.returning)))
  = Profile.tasks (Profile.sv_shelves (Profile.profile Demo.returning)).
Proof.
  refine (proj1 (proj2 (proj2 (proj2 (proj2 (proj2 (proj2
            (markVisited_keeps_points "pass-2" Demo.returning)))))))
            (Profile.Saved "Maria" "Miata" 2000
               (Profile.Shelves ∅ ["Roadsters"] ["pass-1"] [])) _).
  reflexivity.
Defined.

Lemma createBlogPost_keeps_points_witness :
  Profile.tasks
    (Profile.sv_shelves
       (Profile.profile (Profile.createBlogPost "Alps" "Snow." "2024-01-01" Demo.returning)))
  = Profile.tasks (Profile.sv_shelves (Profile.profile Demo.returning)).
Proof.
  refine (proj1 (proj2 (proj2 (proj2 (proj2 (proj2 (proj2
            (createBlogPost_keeps_points "Alps" "Snow." "2024-01-01" Demo.returning)))))))
            (Profile.Saved "Maria" "Miata" 2000
               (Profile.Shelves ∅ ["Roadsters"] ["pass-1"] [])) _).
  reflexivity.
Defined.

Lemma markVisited_writes_defaults_witness :
  Profile.visited (Profile.defaults (Profile.markVisited "pass-2" Demo.fresh)) = ["pass-2"]
  ∧ Profile.sv_points (Profile.profile (Profile.markVisited "pass-2" Demo.fresh)) = 0.
Proof.
  destruct (markVisited_writes_defaults "pass-2" Demo.nothing) as (Hdefaults & _ & Hpoints).
  - intros Hin. by apply not_elem_of_nil in Hin.
  - split; [|exact Hpoints]. unfold Demo.fresh. by rewrite Hdefaults.
Defined.

Lemma getLeaderboard_sorted_witness :
  ("Maria", 2000) ∈ Profile.getLeaderboard Demo.returning.
Proof.
  refine (proj1 (proj2 (proj2 (proj2 (getLeaderboard_sorted Demo.returning)))) _).
  discriminate.
Defined.
